(** * The reconciliation state machine of the Redis cluster operator

    A shallow embedding of [controllers/rediscluster_controller.go], in the
    two revisions of the file that the repository holds, and the properties
    of its lifecycle state machine.

    The controller is a sequence of calls to routines of the operator
    (recovery, scale, rolling update, the cluster state view, ...) and of
    the Kubernetes client.  The handlers of this file are embedded as they
    are written.  The routines they call live in other files of the
    operator; they are taken as parameters (classes [Client] and
    [Routines]): each acts on an abstract external world [W] (pods, Redis
    nodes, config maps, the in-memory cluster state view) and returns its
    outcome.  The routines that act on the cluster receive the cluster
    object by pointer and also return the object as they leave it; [r.State]
    and the resource held by the API server are written by the controller
    file only.

    Effects are threaded through a state monad that also emits the trace of
    what a computation did (log lines and calls), so that "is logged", "is
    called before" and "is not called" are statements about the trace.

    The last part embeds the generated deep copies of the API types
    ([api/v1/zz_generated.deepcopy.go]) over a heap of cells. *)

From Stdlib Require Import ZArith List String Bool Lia Permutation.
Import ListNotations.

Local Open Scope string_scope.
Local Open Scope Z_scope.

(** ** Data *)

(** [type RedisClusterState string] and its six constants. *)
Definition RedisClusterState : Type := string.

Definition NotExists : RedisClusterState := "NotExists".
Definition Reset : RedisClusterState := "Reset".
Definition Ready : RedisClusterState := "Ready".
Definition Recovering : RedisClusterState := "Recovering".
Definition Updating : RedisClusterState := "Updating".
Definition Scale : RedisClusterState := "Scale".

(** The fields of [dbv1.RedisCluster] that the controller reads and writes. *)
Record RedisClusterSpec : Type := {
  LeaderCount : Z;
  LeaderFollowersCount : Z
}.

Record RedisClusterStatus : Type := {
  ClusterState : string
}.

Record NamespacedName : Type := {
  Namespace : string;
  Name : string
}.

Record RedisCluster : Type := {
  ObjectMeta : NamespacedName;
  Spec : RedisClusterSpec;
  Status : RedisClusterStatus
}.

(** [redisCluster.Status.ClusterState = string(st)] *)
Definition setClusterState (redisCluster : RedisCluster) (st : RedisClusterState)
  : RedisCluster :=
  {| ObjectMeta := ObjectMeta redisCluster;
     Spec := Spec redisCluster;
     Status := {| ClusterState := st |} |}.

(** Go errors.  An error of the API machinery carries a reason; the
    controller only asks whether it is "not found" or "conflict". *)
Inductive StatusReason : Type :=
| StatusReasonNotFound
| StatusReasonConflict
| StatusReasonUnknown.

Inductive error : Type :=
| StatusError (reason : StatusReason) (message : string)
| errorString (message : string).

Definition Error (e : error) : string :=
  match e with
  | StatusError _ m => m
  | errorString m => m
  end.

(** [apierrors.IsNotFound], [apierrors.IsConflict]: false on [nil]. *)
Definition IsNotFound (err : option error) : bool :=
  match err with
  | Some (StatusError StatusReasonNotFound _) => true
  | _ => false
  end.

Definition IsConflict (err : option error) : bool :=
  match err with
  | Some (StatusError StatusReasonConflict _) => true
  | _ => false
  end.

(** [client.IgnoreNotFound] *)
Definition IgnoreNotFound (err : option error) : option error :=
  if IsNotFound err then None else err.

(** [ctrl.Request] and [ctrl.Result]; a [time.Duration] counts nanoseconds. *)
Record Request : Type := {
  Key : NamespacedName
}.

Record Result : Type := {
  Requeue : bool;
  RequeueAfter : Z
}.

Definition Second : Z := 1000000000.

Definition sameKey (a b : NamespacedName) : bool :=
  (Namespace a =? Namespace b)%string && (Name a =? Name b)%string.

(** ** Traces *)

(** The states of the cluster state view that the controller file names:
    [view.ClusterOK], [view.ClusterRebalance], [view.ClusterFix]. *)
Module view.
Inductive ClusterState : Type :=
| ClusterOK
| ClusterRebalance
| ClusterFix.
End view.

(** The routines a computation may call. *)
Inductive Call : Type :=
| CGet
| CStatusUpdate (state : string)
| CgetClusterStateView
| CCreateStateView (leaderCount followersCount : Z)
| CupdateClusterStateView
| CcreateClusterStateView
| CdeleteClusterStateView
| CdeleteAllRedisClusterPods
| CcreateNewRedisCluster
| CinitializeFollowers
| CNewRedisClusterView
| CisClusterComplete
| CisClusterUpToDate
| CisScaleRequired
| CforgetLostNodes
| CscaleCluster
| CrecoverCluster
| CupdateCluster
| CSaveRedisClusterView (data : string)
| CSaveRedisClusterState (state : string)
| CsetStateViewClusterOK
| CsetStateViewNodeOK (node : string)
| CmarshalStateView
| CfindHealthyLeader
| CaddLeaders (ip : string) (names : list string)
| CdeleteNodes (ip : string)
| CcliClusterRebalance (ip : string) (useEmptyMasters : bool)
| CcliClusterFix (ip : string)
| CsetStateViewClusterState (st : view.ClusterState)
| CmutexLock
| CmutexUnlock.

Inductive Event : Type :=
| Println (msg : string)
| Printf (msg : string)
| LogInfo (msg : string) (keysAndValues : list string)
| LogError (err : error) (msg : string)
| Called (c : Call).

Definition isCreateStateView (e : Event) : bool :=
  match e with
  | Called (CCreateStateView _ _) => true
  | _ => false
  end.

Definition isStatusUpdate (e : Event) : bool :=
  match e with
  | Called (CStatusUpdate _) => true
  | _ => false
  end.

(** The calls of a trace, in order. *)
Definition calls (tr : list Event) : list Call :=
  flat_map (fun e =>
    match e with
    | Called c => [c]
    | _ => []
    end) tr.

(** The three evaluations of the Ready handler, in the order of a trace. *)
Definition evaluations (tr : list Event) : list Call :=
  flat_map (fun e =>
    match e with
    | Called CisClusterComplete => [CisClusterComplete]
    | Called CisClusterUpToDate => [CisClusterUpToDate]
    | Called CisScaleRequired => [CisScaleRequired]
    | _ => []
    end) tr.

(** ** The state of the operator process and of the API server *)

Section Machine.
Context {W : Type}.

Record Sys : Type := {
  State : RedisClusterState;        (* r.State *)
  ClusterReset : bool;              (* var ClusterReset (first revision) *)
  cluster : option RedisCluster;    (* var cluster *dbv1.RedisCluster *)
  api : option RedisCluster;        (* the resource held by the API server *)
  world : W
}.

Definition set_State (v : RedisClusterState) (s : Sys) : Sys :=
  {| State := v; ClusterReset := ClusterReset s; cluster := cluster s;
     api := api s; world := world s |}.

Definition set_ClusterReset (v : bool) (s : Sys) : Sys :=
  {| State := State s; ClusterReset := v; cluster := cluster s;
     api := api s; world := world s |}.

Definition set_cluster (v : option RedisCluster) (s : Sys) : Sys :=
  {| State := State s; ClusterReset := ClusterReset s; cluster := v;
     api := api s; world := world s |}.

Definition set_api (v : option RedisCluster) (s : Sys) : Sys :=
  {| State := State s; ClusterReset := ClusterReset s; cluster := cluster s;
     api := v; world := world s |}.

Definition set_world (v : W) (s : Sys) : Sys :=
  {| State := State s; ClusterReset := ClusterReset s; cluster := cluster s;
     api := api s; world := v |}.

(** A computation returns a value, the next state and the events it
    emitted. *)
Definition M (A : Type) : Type := Sys -> A * Sys * list Event.

Definition ret {A : Type} (a : A) : M A := fun s => (a, s, []).

Definition bind {A B : Type} (m : M A) (k : A -> M B) : M B :=
  fun s =>
    let '(a, s1, t1) := m s in
    let '(b, s2, t2) := k a s1 in
    (b, s2, (t1 ++ t2)%list).

Definition emit (e : Event) : M unit := fun s => (tt, s, [e]).

Definition get {A : Type} (f : Sys -> A) : M A := fun s => (f s, s, []).

Definition modify (f : Sys -> Sys) : M unit := fun s => (tt, f s, []).

(** A call to a routine that returns a value, and to one that returns
    nothing (or whose result the caller drops). *)
Definition call {A : Type} (c : Call) (f : W -> A * W) : M A :=
  fun s => let '(a, w) := f (world s) in (a, set_world w s, [Called c]).

Definition exec (c : Call) (f : W -> W) : M unit :=
  fun s => (tt, set_world (f (world s)) s, [Called c]).

(** [if err != nil { k err }] *)
Definition whenErr (err : option error) (k : error -> M unit) : M unit :=
  match err with
  | Some e => k e
  | None => ret tt
  end.

(** [r.Log.Info(msg)], [r.Log.Error(err, msg)], [println(msg)] *)
Definition Info (msg : string) : M unit := emit (LogInfo msg []).
Definition LogErr (err : error) (msg : string) : M unit := emit (LogError err msg).

(** Projections of a run. *)
Definition value {A : Type} (r : A * Sys * list Event) : A := fst (fst r).
Definition final {A : Type} (r : A * Sys * list Event) : Sys := snd (fst r).
Definition trace {A : Type} (r : A * Sys * list Event) : list Event := snd r.

(** A computation none of whose events satisfies [P]. *)
Definition silent {A : Type} (P : Event -> bool) (m : M A) : Prop :=
  forall s, existsb P (trace (m s)) = false.
End Machine.

Arguments Sys : clear implicits.
Arguments M : clear implicits.

Declare Scope ctrl_scope.
Delimit Scope ctrl_scope with ctrl.

Notation "x <- c1 ;; c2" := (bind c1 (fun x => c2))
  (at level 61, c1 at next level, right associativity) : ctrl_scope.
Notation "' pat <- c1 ;; c2" := (bind c1 (fun x => match x with pat => c2 end))
  (at level 61, pat pattern, c1 at next level, right associativity) : ctrl_scope.
Notation "c1 ;; c2" := (bind c1 (fun _ => c2))
  (at level 61, right associativity) : ctrl_scope.

(** ** The Kubernetes client *)

(** The two client operations of the controller, on the resource that the
    API server holds.  The parameter of each decides whether the request
    itself fails (connection, cache, conflict). *)
Class Client (W : Type) : Type := {
  getFault : NamespacedName -> W -> option error * W;
  updateFault : RedisCluster -> W -> option error * W
}.

Section ClientOps.
Context {W : Type} `{Client W}.
Local Open Scope ctrl_scope.

Definition notFound (key : NamespacedName) : error :=
  StatusError StatusReasonNotFound (Name key ++ " not found").

(** [r.Get(ctx, key, &redisCluster)] *)
Definition Get (key : NamespacedName) : M W (error + RedisCluster) :=
  fault <- call CGet (getFault key) ;;
  match fault with
  | Some e => ret (inl e)
  | None =>
      stored <- get api ;;
      match stored with
      | Some rc => if sameKey (ObjectMeta rc) key then ret (inr rc)
                   else ret (inl (notFound key))
      | None => ret (inl (notFound key))
      end
  end.

(** [r.Status().Update(ctx, redisCluster)]: writes the status of the
    object into the stored resource. *)
Definition StatusUpdate (redisCluster : RedisCluster) : M W (option error) :=
  fault <- call (CStatusUpdate (ClusterState (Status redisCluster)))
                (updateFault redisCluster) ;;
  match fault with
  | Some e => ret (Some e)
  | None =>
      stored <- get api ;;
      match stored with
      | Some rc =>
          if sameKey (ObjectMeta rc) (ObjectMeta redisCluster) then
            modify (set_api (Some {| ObjectMeta := ObjectMeta rc;
                                     Spec := Spec rc;
                                     Status := Status redisCluster |})) ;;
            ret None
          else ret (Some (notFound (ObjectMeta redisCluster)))
      | None => ret (Some (notFound (ObjectMeta redisCluster)))
      end
  end.

(** [updateClusterState], the same in both revisions. *)
Definition updateClusterState (redisCluster : RedisCluster) : M W unit :=
  _ <- StatusUpdate redisCluster ;;
  Info ("Updated state to: [" ++ ClusterState (Status redisCluster) ++ "]").
End ClientOps.

Section Shared.
Context {W : Type} `{Client W}.
Local Open Scope ctrl_scope.

(** [r.State = RedisClusterState(s); if len(s) == 0 { r.State = NotExists }] *)
Definition stateOf (s : string) : RedisClusterState :=
  if Nat.eqb (String.length s) 0 then NotExists else s.

(** [validateStateUpdated], the same in both revisions. *)
Definition validateStateUpdated (redisCluster : RedisCluster)
  : M W (Result * option error) :=
  let clusterState := stateOf (ClusterState (Status redisCluster)) in
  st <- get State ;;
  if negb (clusterState =? st)%string then
    err <- StatusUpdate redisCluster ;;
    match err with
    | Some e =>
        if negb (IsConflict err) then
          Info ("Failed to update state to " ++ clusterState) ;;
          ret ({| Requeue := false; RequeueAfter := 0 |}, err)
        else
          Info ("Conflict when updating state to " ++ clusterState) ;;
          modify (set_State clusterState) ;;
          Info ("Updated state to: [" ++ clusterState ++ "]") ;;
          ret ({| Requeue := false; RequeueAfter := 0 |}, None)
    | None =>
        modify (set_State clusterState) ;;
        Info ("Updated state to: [" ++ clusterState ++ "]") ;;
        ret ({| Requeue := false; RequeueAfter := 0 |}, None)
    end
  else ret ({| Requeue := false; RequeueAfter := 0 |}, None).
End Shared.

Definition newline : string := String (Ascii.ascii_of_nat 10) "".

(** ** The routines of the administrative operations

    The operations that the HTTP server of the operator exposes call, next
    to the routines of the handlers, these routines of the operator and of
    its Redis command line, all defined in other files.  The two that are
    handed the cluster object return it as they leave it; the search for a
    healthy leader reads the view. *)
Class Admin (W View : Type) : Type := {
  findHealthyLeader : View -> W -> string * W;
  (* v.Nodes[name].Ip; None: the entry is nil *)
  nodeIp : View -> string -> option string;
  addLeaders : RedisCluster -> string -> list string -> W
               -> (option error * RedisCluster) * W;
  deleteNodes : RedisCluster -> View -> string -> W
                -> (option error * RedisCluster) * W;
  (* RedisCLI.ClusterRebalance, RedisCLI.ClusterFix: the first result as
     fmt.Sprint prints it, and the error *)
  cliClusterRebalance : string -> bool -> W -> (string * option error) * W;
  cliClusterFix : string -> W -> (string * option error) * W;
  (* reconciler.RedisClusterStateView.ClusterState = st *)
  setStateViewClusterState : view.ClusterState -> W -> W
}.

(** ** The first revision of the controller *)

Module Older.

(** The routines of the operator that the controller calls and that are
    defined in its other files, with the two types they exchange.  A routine
    that acts on the cluster (initialization, scale, recovery, rolling
    update) is handed the cluster object by pointer and returns it as it
    leaves it; the evaluators and the routines of the views read it. *)
Class Routines (W View ScaleType : Type) : Type := {
  getClusterStateView : RedisCluster -> W -> option error * W;
  CreateStateView : Z -> Z -> W -> W;
  updateClusterStateView : RedisCluster -> W -> option error * W;
  createClusterStateView : RedisCluster -> W -> option error * W;
  deleteClusterStateView : RedisCluster -> W -> W;
  deleteAllRedisClusterPods : W -> option error * W;
  createNewRedisCluster : RedisCluster -> W -> (option error * RedisCluster) * W;
  initializeFollowers : RedisCluster -> W -> (option error * RedisCluster) * W;
  NewRedisClusterView : RedisCluster -> W -> (error + View) * W;
  isClusterComplete : RedisCluster -> W -> (bool * option error) * W;
  isClusterUpToDate : RedisCluster -> W -> (bool * option error) * W;
  isScaleRequired : RedisCluster -> W -> (bool * ScaleType) * W;
  ScaleType_String : ScaleType -> string;
  forgetLostNodes : RedisCluster -> W -> W;
  scaleCluster : RedisCluster -> W -> (option error * RedisCluster) * W;
  recoverCluster : RedisCluster -> W -> (option error * RedisCluster) * W;
  updateCluster : RedisCluster -> W -> (option error * RedisCluster) * W;
  MarshalIndent : View -> string;
  SaveRedisClusterView : string -> W -> W;
  SaveRedisClusterState : string -> W -> W;
  (* the cluster state view held by the reconciler, for the diagnostic dump *)
  setStateViewClusterOK : W -> W;
  setStateViewNodeOK : string -> W -> option W;
  formatStateView : W -> string;
  marshalStateView : W -> error + string
}.

Section Controller.
Context {W View ScaleType : Type} `{Client W} `{Routines W View ScaleType}.
Local Open Scope ctrl_scope.

Definition updateClusterView (redisCluster : RedisCluster) : M W unit :=
  v <- call CNewRedisClusterView (NewRedisClusterView redisCluster) ;;
  match v with
  | inl err =>
      emit (LogInfo "[Warn] Could not get view for api view update, Error: %v"
                    [Error err])
  | inr view =>
      let data := MarshalIndent view in
      exec (CSaveRedisClusterView data) (SaveRedisClusterView data) ;;
      exec (CSaveRedisClusterState (ClusterState (Status redisCluster)))
           (SaveRedisClusterState (ClusterState (Status redisCluster))) ;;
      err <- call CupdateClusterStateView (updateClusterStateView redisCluster) ;;
      match err with
      | Some _ =>
          err <- call CcreateClusterStateView (createClusterStateView redisCluster) ;;
          whenErr err (fun e => LogErr e "Could not update cluster state view")
      | None => ret tt
      end
  end.

Definition handleInitializingCluster (redisCluster : RedisCluster)
  : M W (option error * RedisCluster) :=
  updateClusterState redisCluster ;;
  Info "Clear all cluster pods..." ;;
  e <- call CdeleteAllRedisClusterPods deleteAllRedisClusterPods ;;
  match e with
  | Some _ => ret (e, redisCluster)
  | None =>
      Info "Clear cluster state map..." ;;
      exec CdeleteClusterStateView (deleteClusterStateView redisCluster) ;;
      exec (CCreateStateView (LeaderCount (Spec redisCluster))
                             (LeaderFollowersCount (Spec redisCluster)))
           (CreateStateView (LeaderCount (Spec redisCluster))
                            (LeaderFollowersCount (Spec redisCluster))) ;;
      Info "Handling initializing leaders..." ;;
      '(err, redisCluster) <- call CcreateNewRedisCluster (createNewRedisCluster redisCluster) ;;
      match err with
      | Some _ =>
          let redisCluster := setClusterState redisCluster Reset in
          modify (set_ClusterReset true) ;;
          ret (err, redisCluster)
      | None =>
          Info "Handling initializing followers..." ;;
          '(err, redisCluster) <- call CinitializeFollowers (initializeFollowers redisCluster) ;;
          match err with
          | Some _ =>
              let redisCluster := setClusterState redisCluster Reset in
              modify (set_ClusterReset true) ;;
              ret (err, redisCluster)
          | None =>
              let redisCluster := setClusterState redisCluster Ready in
              updateClusterState redisCluster ;;
              ret (None, redisCluster)
          end
      end
  end.

Definition handleReadyState (redisCluster : RedisCluster)
  : M W (option error * RedisCluster) :=
  '(complete, err) <- call CisClusterComplete (isClusterComplete redisCluster) ;;
  match err with
  | Some _ =>
      Info "Could not check if cluster is complete" ;;
      ret (err, redisCluster)
  | None =>
      if negb complete then
        ret (None, setClusterState redisCluster Recovering)
      else
        '(uptodate, err) <- call CisClusterUpToDate (isClusterUpToDate redisCluster) ;;
        match err with
        | Some _ =>
            Info "Could not check if cluster is updated" ;;
            ret (err, setClusterState redisCluster Recovering)
        | None =>
            if negb uptodate then
              ret (None, setClusterState redisCluster Updating)
            else
              Info "Cluster is healthy" ;;
              '(scale, scaleType) <- call CisScaleRequired (isScaleRequired redisCluster) ;;
              redisCluster <-
                (if scale : bool then
                   Info ("Scale is required, scale type: ["
                           ++ ScaleType_String scaleType ++ "]") ;;
                   ret (setClusterState redisCluster Scale)
                 else ret redisCluster) ;;
              (* deferred *)
              exec CforgetLostNodes (forgetLostNodes redisCluster) ;;
              ret (None, redisCluster)
        end
  end.

Definition handleScaleState (redisCluster : RedisCluster)
  : M W (option error * RedisCluster) :=
  '(e, redisCluster) <- call CscaleCluster (scaleCluster redisCluster) ;;
  whenErr e (fun e => LogErr e "Could not perform cluster scale") ;;
  let redisCluster := setClusterState redisCluster Ready in
  (* deferred *)
  exec CforgetLostNodes (forgetLostNodes redisCluster) ;;
  ret (None, redisCluster).

Definition handleRecoveringState (redisCluster : RedisCluster)
  : M W (option error * RedisCluster) :=
  Info "Handling cluster recovery..." ;;
  '(e, redisCluster) <- call CrecoverCluster (recoverCluster redisCluster) ;;
  match e with
  | Some _ => ret (e, redisCluster)
  | None =>
      let redisCluster := setClusterState redisCluster Ready in
      (* deferred *)
      exec CforgetLostNodes (forgetLostNodes redisCluster) ;;
      ret (None, redisCluster)
  end.

Definition handleUpdatingState (redisCluster : RedisCluster)
  : M W (option error * RedisCluster) :=
  Info "Handling rolling update..." ;;
  '(err, redisCluster) <- call CupdateCluster (updateCluster redisCluster) ;;
  whenErr err (fun _ => Info "Rolling update failed") ;;
  ret (err, setClusterState redisCluster Recovering).

(** The [switch r.State] of [Reconcile]; [err] is the error variable as
    it stands before the switch. *)
Definition dispatch (redisCluster : RedisCluster) (err : option error)
  : M W (option error * RedisCluster) :=
  st <- get State ;;
  reset <- get ClusterReset ;;
  if (st =? NotExists)%string then
    handleInitializingCluster redisCluster
  else if (st =? Reset)%string then
    r <- handleInitializingCluster redisCluster ;;
    modify (set_ClusterReset false) ;;
    ret r
  else if (st =? Ready)%string then
    (if negb reset then handleReadyState redisCluster else ret (err, redisCluster))
  else if (st =? Recovering)%string then
    (if negb reset then handleRecoveringState redisCluster else ret (err, redisCluster))
  else if (st =? Updating)%string then
    (if negb reset then handleUpdatingState redisCluster else ret (err, redisCluster))
  else if (st =? Scale)%string then
    (if negb reset then handleScaleState redisCluster else ret (err, redisCluster))
  else ret (err, redisCluster).

(** [Reconcile] after the switch: the object that [cluster] points to is
    the one the handler has written; the handler's error is logged; the
    two deferred calls run last registered first, once the result is
    fixed. *)
Definition endTick (redisCluster : RedisCluster) (err : option error)
  : M W (Result * option error) :=
  modify (set_cluster (Some redisCluster)) ;;
  whenErr err (fun e => LogErr e "Handling error") ;;
  updateClusterState redisCluster ;;
  updateClusterView redisCluster ;;
  ret ({| Requeue := false; RequeueAfter := 15 * Second |}, None).

(** [Reconcile] up to the switch: either the tick ends here with a result,
    or it goes on with the fetched object and the error variable. *)
Definition beginTick (req : Request)
  : M W ((Result * option error) + (RedisCluster * option error)) :=
  emit (Println "Reconcile call") ;;
  (* reconciler = r; r.Status(): no effect on what follows *)
  fetched <- Get (Key req) ;;
  match fetched with
  | inl err =>
      Info "Unable to fetch RedisCluster resource" ;;
      ret (inl ({| Requeue := false; RequeueAfter := 0 |},
                IgnoreNotFound (Some err)))
  | inr redisCluster =>
      modify (set_State (stateOf (ClusterState (Status redisCluster)))) ;;
      modify (set_cluster (Some redisCluster)) ;;
      err <- call CgetClusterStateView (getClusterStateView redisCluster) ;;
      st <- get State ;;
      if (st =? NotExists)%string then
        exec (CCreateStateView (LeaderCount (Spec redisCluster))
                               (LeaderFollowersCount (Spec redisCluster)))
             (CreateStateView (LeaderCount (Spec redisCluster))
                              (LeaderFollowersCount (Spec redisCluster))) ;;
        ret (inr (redisCluster, err))
      else
        match err with
        | Some e =>
            LogErr e "Could not perform reconcile loop" ;;
            ret (inl ({| Requeue := false; RequeueAfter := 20 * Second |}, None))
        | None => ret (inr (redisCluster, err))
        end
  end.

Definition Reconcile (req : Request) : M W (Result * option error) :=
  entered <- beginTick req ;;
  match entered with
  | inl result => ret result
  | inr (redisCluster, err) =>
      '(err, redisCluster) <- dispatch redisCluster err ;;
      endTick redisCluster err
  end.

(** What a tick in state NotExists is to do from the switch on: the full
    initialization, then the end of the tick. *)
Definition initializingTick (redisCluster : RedisCluster)
  : M W (Result * option error) :=
  '(err, redisCluster) <- handleInitializingCluster redisCluster ;;
  endTick redisCluster err.

(** The administrative operations; [None] is a nil-pointer panic. *)
Definition DoResetCluster : M W (option string) :=
  c <- get cluster ;;
  match c with
  | None => ret None
  | Some cl =>
      let cl := setClusterState cl Reset in
      modify (set_cluster (Some cl)) ;;
      modify (set_ClusterReset true) ;;
      updateClusterState cl ;;
      ret (Some "Set cluster state to reset mode")
  end.

Definition printStateView : M W unit :=
  v <- get (fun s => formatStateView (world s)) ;;
  emit (Printf (v ++ newline)).

Definition PrintClusterStateView : M W (option string) :=
  c <- get cluster ;;
  match c with
  | None => ret None
  | Some cl =>
      exec (CCreateStateView (LeaderCount (Spec cl)) (LeaderFollowersCount (Spec cl)))
           (CreateStateView (LeaderCount (Spec cl)) (LeaderFollowersCount (Spec cl))) ;;
      exec CsetStateViewClusterOK setStateViewClusterOK ;;
      node <- get (fun s => setStateViewNodeOK "redis-node-0-1" (world s)) ;;
      match node with
      | None => ret None
      | Some w =>
          exec (CsetStateViewNodeOK "redis-node-0-1") (fun _ => w) ;;
          printStateView ;;
          bytes <- get (fun s => marshalStateView (world s)) ;;
          match bytes with
          | inl err => emit (Printf ("error: " ++ Error err))
          | inr b =>
              emit (Printf (b ++ newline)) ;;
              e <- call CupdateClusterStateView (updateClusterStateView cl) ;;
              match e with
              | Some e1 =>
                  emit (Printf (Error e1 ++ newline)) ;;
                  e <- call CcreateClusterStateView (createClusterStateView cl) ;;
                  whenErr e (fun e2 => emit (Printf (Error e2 ++ newline)))
              | None => ret tt
              end
          end ;;
          _ <- call CgetClusterStateView (getClusterStateView cl) ;;
          printStateView ;;
          bytes <- get (fun s => marshalStateView (world s)) ;;
          match bytes with
          | inl err => emit (Printf ("error: " ++ Error err))
          | inr b => emit (Printf (b ++ newline))
          end ;;
          ret (Some "Cluster state view printed to screen")
      end
  end.

(** The administrative operations that go through routines of other files.
    [cl] is the object that [cluster] points to once a tick has fetched a
    cluster (with a nil [cluster] the routines are handed nil, and what
    they do with it is decided outside this file); the routines are called
    on the reconciler that the tick has assigned.  [None] is a nil-pointer
    panic, on the entry of the healthy leader in the view. *)
Context `{Admin W View}.

Definition DeleteAllPods : M W string :=
  _ <- call CdeleteAllRedisClusterPods deleteAllRedisClusterPods ;;
  ret "All pods deleted".

Definition AddNewLeaders (cl : RedisCluster) : M W (option string) :=
  v <- call CNewRedisClusterView (NewRedisClusterView cl) ;;
  match v with
  | inl _ => ret (Some "Could not retrieve cluster view")
  | inr v =>
      healthyServerName <- call CfindHealthyLeader (findHealthyLeader v) ;;
      if Nat.eqb (String.length healthyServerName) 0 then
        ret (Some "Could not find healthy reachable leader to serve the add leaders request")
      else
        match nodeIp v healthyServerName with
        | None => ret None
        | Some healthyServerIp =>
            '(e, cl) <- call (CaddLeaders healthyServerIp
                                          ["redis-node-8"; "redis-node-9"])
                             (addLeaders cl healthyServerIp
                                         ["redis-node-8"; "redis-node-9"]) ;;
            modify (set_cluster (Some cl)) ;;
            match e with
            | Some _ => ret (Some "Could not add requested leaders properly")
            | None => ret (Some "New leader node added successfully")
            end
        end
  end.

Definition DeleteNewLeaders (cl : RedisCluster) : M W (option string) :=
  v <- call CNewRedisClusterView (NewRedisClusterView cl) ;;
  match v with
  | inl _ => ret (Some "Could not retrieve cluster view")
  | inr v =>
      healthyServerName <- call CfindHealthyLeader (findHealthyLeader v) ;;
      if Nat.eqb (String.length healthyServerName) 0 then
        ret (Some "Could not find healthy server to serve the fix request")
      else
        match nodeIp v healthyServerName with
        | None => ret None
        | Some healthyServerIp =>
            '(e, cl) <- call (CdeleteNodes healthyServerIp)
                             (deleteNodes cl v healthyServerIp) ;;
            modify (set_cluster (Some cl)) ;;
            match e with
            | Some _ => ret (Some "Could not delete requested leaders properly")
            | None => ret (Some "New leader node deleted successfully")
            end
        end
  end.

Definition ClusterRebalance (cl : RedisCluster) : M W (option string) :=
  v <- call CNewRedisClusterView (NewRedisClusterView cl) ;;
  match v with
  | inl _ => ret (Some "Could not retrieve cluster view")
  | inr v =>
      healthyServerName <- call CfindHealthyLeader (findHealthyLeader v) ;;
      if Nat.eqb (String.length healthyServerName) 0 then
        ret (Some "Could not find healthy server to serve the rebalance request")
      else
        match nodeIp v healthyServerName with
        | None => ret None
        | Some healthyServerIp =>
            '(successful, err) <- call (CcliClusterRebalance healthyServerIp true)
                                       (cliClusterRebalance healthyServerIp true) ;;
            emit (Println ("Successful: " ++ successful)) ;;
            whenErr err (fun e => emit (Println (Error e))) ;;
            ret (Some "Cluster rebalance attempt executed")
        end
  end.

Definition ClusterFix (cl : RedisCluster) : M W (option string) :=
  v <- call CNewRedisClusterView (NewRedisClusterView cl) ;;
  match v with
  | inl _ => ret (Some "Could not retrieve cluster view")
  | inr v =>
      healthyServerName <- call CfindHealthyLeader (findHealthyLeader v) ;;
      if Nat.eqb (String.length healthyServerName) 0 then
        ret (Some "Could not find healthy server to serve the fix request")
      else
        match nodeIp v healthyServerName with
        | None => ret None
        | Some healthyServerIp =>
            '(successful, err) <- call (CcliClusterFix healthyServerIp)
                                       (cliClusterFix healthyServerIp) ;;
            emit (Println ("Successful: " ++ successful)) ;;
            whenErr err (fun e => emit (Println (Error e))) ;;
            ret (Some "Cluster fix attempt executed")
        end
  end.
End Controller.

End Older.

(** ** The second revision of the controller *)

Module Newer.

(** The routines of the operator that this revision calls; the evaluators
    now take the view of the cluster that the handler has built. *)
Class Routines (W View ScaleType : Type) : Type := {
  getClusterStateView : RedisCluster -> W -> option error * W;
  CreateStateView : Z -> Z -> W -> W;
  updateClusterStateView : RedisCluster -> W -> option error * W;
  createClusterStateView : RedisCluster -> W -> option error * W;
  deleteClusterStateView : RedisCluster -> W -> W;
  deleteAllRedisClusterPods : W -> option error * W;
  createNewRedisCluster : RedisCluster -> W -> (option error * RedisCluster) * W;
  initializeFollowers : RedisCluster -> W -> (option error * RedisCluster) * W;
  NewRedisClusterView : RedisCluster -> W -> (error + View) * W;
  isClusterComplete : RedisCluster -> View -> W -> (bool * option error) * W;
  isClusterUpToDate : RedisCluster -> View -> W -> (bool * option error) * W;
  isScaleRequired : RedisCluster -> W -> (bool * ScaleType) * W;
  ScaleType_String : ScaleType -> string;
  forgetLostNodes : RedisCluster -> View -> W -> W;
  scaleCluster : RedisCluster -> W -> (option error * RedisCluster) * W;
  recoverCluster : RedisCluster -> W -> (option error * RedisCluster) * W;
  updateCluster : RedisCluster -> W -> (option error * RedisCluster) * W;
  clearPods : View -> View;
  MarshalIndent : View -> string;
  SaveRedisClusterView : string -> W -> W;
  SaveRedisClusterState : string -> W -> W
}.

Section Controller.
Context {W View ScaleType : Type} `{Client W} `{Routines W View ScaleType}.
Local Open Scope ctrl_scope.

Definition updateClusterView (redisCluster : RedisCluster) : M W unit :=
  v <- call CNewRedisClusterView (NewRedisClusterView redisCluster) ;;
  match v with
  | inl err =>
      emit (LogInfo "[Warn] Could not get view for api view update, Error: %v"
                    [Error err])
  | inr v =>
      let data := MarshalIndent (clearPods v) in
      exec (CSaveRedisClusterView data) (SaveRedisClusterView data) ;;
      exec (CSaveRedisClusterState (ClusterState (Status redisCluster)))
           (SaveRedisClusterState (ClusterState (Status redisCluster))) ;;
      (* deferred *)
      updateClusterState redisCluster
  end.

Definition handleInitializingCluster (redisCluster : RedisCluster)
  : M W (option error * RedisCluster) :=
  Info "Clear all cluster pods..." ;;
  e <- call CdeleteAllRedisClusterPods deleteAllRedisClusterPods ;;
  match e with
  | Some _ => ret (e, redisCluster)
  | None =>
      Info "Clear cluster state map..." ;;
      exec CdeleteClusterStateView (deleteClusterStateView redisCluster) ;;
      exec (CCreateStateView (LeaderCount (Spec redisCluster))
                             (LeaderFollowersCount (Spec redisCluster)))
           (CreateStateView (LeaderCount (Spec redisCluster))
                            (LeaderFollowersCount (Spec redisCluster))) ;;
      Info "Handling initializing leaders..." ;;
      '(err, redisCluster) <- call CcreateNewRedisCluster (createNewRedisCluster redisCluster) ;;
      match err with
      | Some _ => ret (err, setClusterState redisCluster Reset)
      | None =>
          Info "Handling initializing followers..." ;;
          '(err, redisCluster) <- call CinitializeFollowers (initializeFollowers redisCluster) ;;
          match err with
          | Some _ => ret (err, setClusterState redisCluster Reset)
          | None =>
              let redisCluster := setClusterState redisCluster Ready in
              updateClusterState redisCluster ;;
              (* deferred *)
              _ <- call CcreateClusterStateView (createClusterStateView redisCluster) ;;
              ret (None, redisCluster)
          end
      end
  end.

Definition handleReadyState (redisCluster : RedisCluster)
  : M W (option error * RedisCluster) :=
  Info "Handling ready state..." ;;
  v <- call CNewRedisClusterView (NewRedisClusterView redisCluster) ;;
  match v with
  | inl err => ret (Some err, redisCluster)
  | inr v =>
      '(complete, err) <- call CisClusterComplete (isClusterComplete redisCluster v) ;;
      match err with
      | Some _ =>
          Info "Could not check if cluster is complete" ;;
          ret (err, redisCluster)
      | None =>
          if negb complete then
            ret (None, setClusterState redisCluster Recovering)
          else
            '(uptodate, err) <- call CisClusterUpToDate (isClusterUpToDate redisCluster v) ;;
            match err with
            | Some _ =>
                Info "Could not check if cluster is updated" ;;
                ret (err, setClusterState redisCluster Recovering)
            | None =>
                if negb uptodate then
                  ret (None, setClusterState redisCluster Updating)
                else
                  Info "Cluster is healthy" ;;
                  '(scale, scaleType) <- call CisScaleRequired (isScaleRequired redisCluster) ;;
                  redisCluster <-
                    (if scale : bool then
                       Info ("Scale is required, scale type: ["
                               ++ ScaleType_String scaleType ++ "]") ;;
                       ret (setClusterState redisCluster Scale)
                     else ret redisCluster) ;;
                  (* deferred, last registered first *)
                  _ <- call CupdateClusterStateView (updateClusterStateView redisCluster) ;;
                  exec CforgetLostNodes (forgetLostNodes redisCluster v) ;;
                  ret (None, redisCluster)
            end
      end
  end.

Definition handleScaleState (redisCluster : RedisCluster)
  : M W (option error * RedisCluster) :=
  Info "Handling cluster scale..." ;;
  '(e, redisCluster) <- call CscaleCluster (scaleCluster redisCluster) ;;
  whenErr e (fun e => LogErr e "Could not perform cluster scale") ;;
  let redisCluster := setClusterState redisCluster Ready in
  (* deferred *)
  _ <- call CupdateClusterStateView (updateClusterStateView redisCluster) ;;
  ret (None, redisCluster).

Definition handleRecoveringState (redisCluster : RedisCluster)
  : M W (option error * RedisCluster) :=
  Info "Handling cluster recovery..." ;;
  '(e, redisCluster) <- call CrecoverCluster (recoverCluster redisCluster) ;;
  match e with
  | Some _ => ret (e, redisCluster)
  | None =>
      (* deferred *)
      _ <- call CupdateClusterStateView (updateClusterStateView redisCluster) ;;
      ret (None, redisCluster)
  end.

Definition handleUpdatingState (redisCluster : RedisCluster)
  : M W (option error * RedisCluster) :=
  Info "Handling rolling update..." ;;
  '(err, redisCluster) <- call CupdateCluster (updateCluster redisCluster) ;;
  whenErr err (fun _ => Info "Rolling update failed") ;;
  let redisCluster := setClusterState redisCluster Recovering in
  (* deferred *)
  _ <- call CupdateClusterStateView (updateClusterStateView redisCluster) ;;
  ret (err, redisCluster).

(** The [switch r.State] of [Reconcile]; [err] is the error variable as
    it stands before the switch. *)
Definition dispatch (redisCluster : RedisCluster) (err : option error)
  : M W (option error * RedisCluster) :=
  st <- get State ;;
  if (st =? NotExists)%string then handleInitializingCluster redisCluster
  else if (st =? Reset)%string then handleInitializingCluster redisCluster
  else if (st =? Ready)%string then handleReadyState redisCluster
  else if (st =? Recovering)%string then handleRecoveringState redisCluster
  else if (st =? Updating)%string then handleUpdatingState redisCluster
  else if (st =? Scale)%string then handleScaleState redisCluster
  else ret (err, redisCluster).

Definition isNil (err : option error) : bool :=
  match err with
  | None => true
  | Some _ => false
  end.

(** [Reconcile] after the switch: the object that [cluster] points to is
    the one the handler has written; the handler's error is logged; the
    two deferred calls run last registered first, once the result is
    fixed. *)
Definition endTick (redisCluster : RedisCluster) (err : option error)
  : M W (Result * option error) :=
  modify (set_cluster (Some redisCluster)) ;;
  whenErr err (fun e => LogErr e "Handling error") ;;
  updateClusterView redisCluster ;;
  _ <- call CupdateClusterStateView (updateClusterStateView redisCluster) ;;
  ret ({| Requeue := isNil err; RequeueAfter := 15 * Second |}, None).

(** [Reconcile] up to the switch: either the tick ends here with a result,
    or it goes on with the fetched object and the error variable. *)
Definition beginTick (req : Request)
  : M W ((Result * option error) + (RedisCluster * option error)) :=
  emit (Println "Reconcile call") ;;
  (* reconciler = r; r.Status(): no effect on what follows *)
  fetched <- Get (Key req) ;;
  match fetched with
  | inl err =>
      Info "Unable to fetch RedisCluster resource" ;;
      ret (inl ({| Requeue := false; RequeueAfter := 15 * Second |},
                IgnoreNotFound (Some err)))
  | inr redisCluster =>
      modify (set_State (stateOf (ClusterState (Status redisCluster)))) ;;
      modify (set_cluster (Some redisCluster)) ;;
      err <- call CgetClusterStateView (getClusterStateView redisCluster) ;;
      st <- get State ;;
      if (st =? NotExists)%string || (st =? Reset)%string then
        exec (CCreateStateView (LeaderCount (Spec redisCluster))
                               (LeaderFollowersCount (Spec redisCluster)))
             (CreateStateView (LeaderCount (Spec redisCluster))
                              (LeaderFollowersCount (Spec redisCluster))) ;;
        ret (inr (redisCluster, err))
      else
        match err with
        | Some e =>
            LogErr e "Could not perform reconcile loop" ;;
            ret (inl ({| Requeue := false; RequeueAfter := 20 * Second |}, None))
        | None => ret (inr (redisCluster, err))
        end
  end.

Definition Reconcile (req : Request) : M W (Result * option error) :=
  entered <- beginTick req ;;
  match entered with
  | inl result => ret result
  | inr (redisCluster, err) =>
      '(err, redisCluster) <- dispatch redisCluster err ;;
      endTick redisCluster err
  end.

(** What a tick in state NotExists is to do from the switch on: the full
    initialization, then the end of the tick. *)
Definition initializingTick (redisCluster : RedisCluster)
  : M W (Result * option error) :=
  '(err, redisCluster) <- handleInitializingCluster redisCluster ;;
  endTick redisCluster err.

(** The administrative operations; [None] is a nil-pointer panic. *)
Definition DoResetCluster : M W (option string) :=
  c <- get cluster ;;
  match c with
  | None => ret None
  | Some cl =>
      let cl := setClusterState cl Reset in
      modify (set_cluster (Some cl)) ;;
      updateClusterState cl ;;
      ret (Some "Set cluster state to reset mode")
  end.

(** [DoReconcile] calls [Reconcile] on the package variable [reconciler],
    which is nil until a tick has assigned it.  The state of the embedding
    does not hold this variable, and the operation takes it as an argument:
    [assigned] is false for nil.  Called on nil, [Reconcile] prints its
    first line and panics at [r.Status()]: [None]. *)
Definition DoReconcile (assigned : bool) : M W (option string) :=
  if assigned then
    '(_, err) <- Reconcile {| Key := {| Namespace := "default"; Name := "dev-rdc" |} |} ;;
    whenErr err (fun e => LogErr e "Could not perform reconcile trigger") ;;
    ret (Some "Reconcile request triggered")
  else
    emit (Println "Reconcile call") ;;
    ret None.

(** The two operations that go through the Redis command line.  [cl] is
    the object that [cluster] points to once a tick has fetched a cluster
    (with a nil [cluster] the routine is handed nil, and what it does with
    it is decided outside this file).  The mutex is taken and released
    around each write of the state of the cluster state view; in a run of
    the operation alone it is free.  [None] is a nil-pointer panic, on the
    entry of the healthy leader in the view. *)
Context `{Admin W View}.

Definition setViewState (st : view.ClusterState) : M W unit :=
  emit (Called CmutexLock) ;;
  exec (CsetStateViewClusterState st) (setStateViewClusterState st) ;;
  emit (Called CmutexUnlock).

Definition ClusterRebalance (cl : RedisCluster) : M W (option string) :=
  v <- call CNewRedisClusterView (NewRedisClusterView cl) ;;
  match v with
  | inl _ => ret (Some "Could not retrieve cluster view")
  | inr v =>
      healthyServerName <- call CfindHealthyLeader (findHealthyLeader v) ;;
      if Nat.eqb (String.length healthyServerName) 0 then
        ret (Some "Could not find healthy server to serve the rebalance request")
      else
        setViewState view.ClusterRebalance ;;
        match nodeIp v healthyServerName with
        | None => ret None
        | Some healthyServerIp =>
            '(_, err) <- call (CcliClusterRebalance healthyServerIp true)
                              (cliClusterRebalance healthyServerIp true) ;;
            whenErr err (fun e => LogErr e "Could not perform cluster rebalance") ;;
            setViewState view.ClusterOK ;;
            ret (Some "Cluster rebalance attempt executed")
        end
  end.

Definition ClusterFix (cl : RedisCluster) : M W (option string) :=
  v <- call CNewRedisClusterView (NewRedisClusterView cl) ;;
  match v with
  | inl _ => ret (Some "Could not retrieve cluster view")
  | inr v =>
      healthyServerName <- call CfindHealthyLeader (findHealthyLeader v) ;;
      if Nat.eqb (String.length healthyServerName) 0 then
        ret (Some "Could not find healthy server to serve the fix request")
      else
        match nodeIp v healthyServerName with
        | None => ret None
        | Some healthyServerIp =>
            setViewState view.ClusterFix ;;
            '(_, err) <- call (CcliClusterFix healthyServerIp)
                              (cliClusterFix healthyServerIp) ;;
            whenErr err (fun e => LogErr e "Could not perform cluster fix") ;;
            setViewState view.ClusterOK ;;
            ret (Some "Cluster fix attempt executed")
        end
  end.
End Controller.

End Newer.

(** ** The transition table of the specification *)

(** The Ready row, as the specification words it: completeness first, then
    up-to-dateness, then the need to scale. *)
Definition readyTransition (complete uptodate scale : bool) : RedisClusterState :=
  if negb complete then Recovering
  else if negb uptodate then Updating
  else if scale then Scale
  else Ready.

(** The evaluations that the Ready handler makes for these answers. *)
Definition readyEvaluations (complete uptodate : bool) : list Call :=
  if negb complete then [CisClusterComplete]
  else if negb uptodate then [CisClusterComplete; CisClusterUpToDate]
  else [CisClusterComplete; CisClusterUpToDate; CisScaleRequired].

(** ** A scripted world

    A closed instance of the parameters, to run the controller on: the
    world is a script that fixes which routine fails and what the
    evaluators answer, and the routines leave it as it is. *)

Module Fixture.

Record Scenario : Type := {
  fault : Call -> option error;
  complete : bool;
  uptodate : bool;
  scale : bool
}.

Definition routine (c : Call) (w : Scenario) : option error * Scenario :=
  (fault w c, w).

Definition engine (c : Call) (rc : RedisCluster) (w : Scenario)
  : (option error * RedisCluster) * Scenario :=
  ((fault w c, rc), w).

Definition builtView (w : Scenario) : (error + unit) * Scenario :=
  match fault w CNewRedisClusterView with
  | Some e => (inl e, w)
  | None => (inr tt, w)
  end.

#[export] Instance client : Client Scenario := {|
  getFault := fun _ => routine CGet;
  updateFault := fun rc => routine (CStatusUpdate (ClusterState (Status rc)))
|}.

#[export] Instance older : Older.Routines Scenario unit unit := {|
  Older.getClusterStateView := fun _ => routine CgetClusterStateView;
  Older.CreateStateView := fun _ _ w => w;
  Older.updateClusterStateView := fun _ => routine CupdateClusterStateView;
  Older.createClusterStateView := fun _ => routine CcreateClusterStateView;
  Older.deleteClusterStateView := fun _ w => w;
  Older.deleteAllRedisClusterPods := routine CdeleteAllRedisClusterPods;
  Older.createNewRedisCluster := engine CcreateNewRedisCluster;
  Older.initializeFollowers := engine CinitializeFollowers;
  Older.NewRedisClusterView := fun _ => builtView;
  Older.isClusterComplete := fun _ w => ((complete w, fault w CisClusterComplete), w);
  Older.isClusterUpToDate := fun _ w => ((uptodate w, fault w CisClusterUpToDate), w);
  Older.isScaleRequired := fun _ w => ((scale w, tt), w);
  Older.ScaleType_String := fun _ => "ScaleUp";
  Older.forgetLostNodes := fun _ w => w;
  Older.scaleCluster := engine CscaleCluster;
  Older.recoverCluster := engine CrecoverCluster;
  Older.updateCluster := engine CupdateCluster;
  Older.MarshalIndent := fun _ => "{}";
  Older.SaveRedisClusterView := fun _ w => w;
  Older.SaveRedisClusterState := fun _ w => w;
  Older.setStateViewClusterOK := fun w => w;
  Older.setStateViewNodeOK := fun _ w => Some w;
  Older.formatStateView := fun _ => "&{}";
  Older.marshalStateView := fun _ => inr "{}"
|}.

#[export] Instance newer : Newer.Routines Scenario unit unit := {|
  Newer.getClusterStateView := fun _ => routine CgetClusterStateView;
  Newer.CreateStateView := fun _ _ w => w;
  Newer.updateClusterStateView := fun _ => routine CupdateClusterStateView;
  Newer.createClusterStateView := fun _ => routine CcreateClusterStateView;
  Newer.deleteClusterStateView := fun _ w => w;
  Newer.deleteAllRedisClusterPods := routine CdeleteAllRedisClusterPods;
  Newer.createNewRedisCluster := engine CcreateNewRedisCluster;
  Newer.initializeFollowers := engine CinitializeFollowers;
  Newer.NewRedisClusterView := fun _ => builtView;
  Newer.isClusterComplete := fun _ _ w => ((complete w, fault w CisClusterComplete), w);
  Newer.isClusterUpToDate := fun _ _ w => ((uptodate w, fault w CisClusterUpToDate), w);
  Newer.isScaleRequired := fun _ w => ((scale w, tt), w);
  Newer.ScaleType_String := fun _ => "ScaleUp";
  Newer.forgetLostNodes := fun _ _ w => w;
  Newer.scaleCluster := engine CscaleCluster;
  Newer.recoverCluster := engine CrecoverCluster;
  Newer.updateCluster := engine CupdateCluster;
  Newer.clearPods := fun v => v;
  Newer.MarshalIndent := fun _ => "{}";
  Newer.SaveRedisClusterView := fun _ w => w;
  Newer.SaveRedisClusterState := fun _ w => w
|}.

(** The healthy leader is the first node, at a fixed address. *)
#[export] Instance admin : Admin Scenario unit := {|
  findHealthyLeader := fun _ w => ("redis-node-0", w);
  nodeIp := fun _ name => if (name =? "redis-node-0")%string
                          then Some "10.0.0.1" else None;
  addLeaders := fun rc ip names => engine (CaddLeaders ip names) rc;
  deleteNodes := fun rc _ ip => engine (CdeleteNodes ip) rc;
  cliClusterRebalance := fun ip e w =>
    (("true", fault w (CcliClusterRebalance ip e)), w);
  cliClusterFix := fun ip w => (("true", fault w (CcliClusterFix ip)), w);
  setStateViewClusterState := fun _ w => w
|}.

(** No routine fails; the cluster is complete, up to date and of the
    declared size. *)
Definition healthy : Scenario :=
  {| fault := fun _ => None; complete := true; uptodate := true; scale := false |}.

Definition boom : error := errorString "boom".

(** The healthy script but for one routine, which fails. *)
Definition failing (c : Call) : Scenario :=
  {| fault := fun c' =>
       match c, c' with
       | CGet, CGet => Some boom
       | CgetClusterStateView, CgetClusterStateView => Some boom
       | CdeleteAllRedisClusterPods, CdeleteAllRedisClusterPods => Some boom
       | CcreateNewRedisCluster, CcreateNewRedisCluster => Some boom
       | CinitializeFollowers, CinitializeFollowers => Some boom
       | CscaleCluster, CscaleCluster => Some boom
       | CrecoverCluster, CrecoverCluster => Some boom
       | CupdateCluster, CupdateCluster => Some boom
       | _, _ => None
       end;
     complete := true; uptodate := true; scale := false |}.

Definition answering (c u sc : bool) : Scenario :=
  {| fault := fun _ => None; complete := c; uptodate := u; scale := sc |}.

Definition key : NamespacedName := {| Namespace := "default"; Name := "dev-rdc" |}.

Definition request : Request := {| Key := key |}.

(** The declared cluster: three leaders with one follower each. *)
Definition declared (st : string) : RedisCluster :=
  {| ObjectMeta := key;
     Spec := {| LeaderCount := 3; LeaderFollowersCount := 1 |};
     Status := {| ClusterState := st |} |}.

(** The operator before its first tick on a stored cluster in state [st]. *)
Definition start (st : string) (w : Scenario) : Sys Scenario :=
  {| State := ""; ClusterReset := false; cluster := None;
     api := Some (declared st); world := w |}.

(** The operator between two ticks on a cluster in state [st]. *)
Definition running (st : string) (w : Scenario) : Sys Scenario :=
  {| State := st; ClusterReset := false; cluster := Some (declared st);
     api := Some (declared st); world := w |}.

(** The stored cluster has been deleted. *)
Definition deleted (w : Scenario) : Sys Scenario :=
  {| State := Ready; ClusterReset := false; cluster := Some (declared Ready);
     api := None; world := w |}.

End Fixture.

(** The lifecycle state of the object that a handler returns, and the one
    that the API server holds. *)
Definition stateAfter {W : Type}
  (r : (option error * RedisCluster) * Sys W * list Event) : string :=
  ClusterState (Status (snd (value r))).

Definition persisted {W : Type} (s : Sys W) : option string :=
  match api s with
  | Some rc => Some (ClusterState (Status rc))
  | None => None
  end.


(** ** Frames and further observations of a run *)

(** A computation that leaves the component [f] of the state as it is. *)
Definition preserves {W A B : Type} (f : Sys W -> B) (m : M W A) : Prop :=
  forall s, f (final (m s)) = f s.

(** A computation that does not clear the pending-reset flag. *)
Definition keepsReset {W A : Type} (m : M W A) : Prop :=
  forall s, ClusterReset s = true -> ClusterReset (final (m s)) = true.

(** The six lifecycle states that the switch of [Reconcile] knows. *)
Definition knownState (st : RedisClusterState) : bool :=
  (st =? NotExists)%string || (st =? Reset)%string || (st =? Ready)%string
  || (st =? Recovering)%string || (st =? Updating)%string || (st =? Scale)%string.

(** The states whose handlers the first revision skips while a reset is
    pending. *)
Definition gatedState (st : RedisClusterState) : bool :=
  (st =? Ready)%string || (st =? Recovering)%string
  || (st =? Updating)%string || (st =? Scale)%string.

(** The stored resource with the status of [redisCluster] written into it. *)
Definition withStatusOf (stored redisCluster : RedisCluster) : RedisCluster :=
  {| ObjectMeta := ObjectMeta stored;
     Spec := Spec stored;
     Status := Status redisCluster |}.

(** The calls that a tick makes only from a state handler. *)
Definition isHandlerCall (e : Event) : bool :=
  match e with
  | Called CdeleteAllRedisClusterPods | Called CdeleteClusterStateView
  | Called CcreateNewRedisCluster | Called CinitializeFollowers
  | Called CisClusterComplete | Called CisClusterUpToDate
  | Called CisScaleRequired | Called CforgetLostNodes
  | Called CscaleCluster | Called CrecoverCluster | Called CupdateCluster => true
  | _ => false
  end.

(** The log line of [DoReconcile]. *)
Definition isTriggerLog (e : Event) : bool :=
  match e with
  | LogError _ msg => (msg =? "Could not perform reconcile trigger")%string
  | _ => false
  end.

(** [n] ticks of the first revision, one after the other. *)
Fixpoint olderTicks {W View ScaleType : Type} `{Client W}
         `{Older.Routines W View ScaleType}
         (n : nat) (req : Request) (s : Sys W) : Sys W :=
  match n with
  | O => s
  | S n' => olderTicks n' req (final (Older.Reconcile req s))
  end.

(** ** More scripts for the scripted world *)

Module Scripts.
Import Fixture.

(** The routines that [p] selects fail; the evaluators answer as given. *)
Definition script (p : Call -> bool) (c u sc : bool) : Scenario :=
  {| fault := fun call => if p call then Some boom else None;
     complete := c; uptodate := u; scale := sc |}.

Definition completenessCheck (c : Call) : bool :=
  match c with CisClusterComplete => true | _ => false end.

Definition upToDateCheck (c : Call) : bool :=
  match c with CisClusterUpToDate => true | _ => false end.

Definition viewOfCluster (c : Call) : bool :=
  match c with CNewRedisClusterView => true | _ => false end.

Definition statusUpdate (c : Call) : bool :=
  match c with CStatusUpdate _ => true | _ => false end.

Definition stateViewStore (c : Call) : bool :=
  match c with CupdateClusterStateView => true | _ => false end.

Definition stateViewStoreAndCreate (c : Call) : bool :=
  match c with
  | CupdateClusterStateView | CcreateClusterStateView => true
  | _ => false
  end.

Definition stateViewRead (c : Call) : bool :=
  match c with CgetClusterStateView => true | _ => false end.

(** A status update that fails with a conflict. *)
Definition conflict : error := StatusError StatusReasonConflict "conflict".

Definition conflicting : Scenario :=
  {| fault := fun call => match call with
                          | CStatusUpdate _ => Some conflict
                          | _ => None
                          end;
     complete := true; uptodate := true; scale := false |}.

End Scripts.

(** ** The generated deep copies of the API types

    [api/v1/zz_generated.deepcopy.go].  A struct is a value; what a struct
    refers to (the cell of a pointer, the array of a slice, the table of a
    map) lives in a heap, one store for each type of cell, and a reference
    is [None] for nil or the address of a cell.  A slice is taken with the
    whole of its array.  [DeepCopyInto] is embedded as the value it writes
    to [out], for an [out] that is not [in] itself.  The Kubernetes types
    are parameters, values with their own deep copies; the fields of the
    structs that the file does not name, all copied by [*out = *in], are
    kept as one field. *)

Module DeepCopy.
Local Open Scope list_scope.

Class Kube : Type := {
  TypeMeta : Type;
  ObjectMeta : Type;
  ListMeta : Type;
  ResourceRequirements : Type;
  EnvVar : Type;
  ObjectReference : Type;
  PodLabelSelector : Type;
  SpecFields : Type;
  StatusFields : Type;
  ObjectMeta_DeepCopy : ObjectMeta -> ObjectMeta;
  ListMeta_DeepCopy : ListMeta -> ListMeta;
  ResourceRequirements_DeepCopy : ResourceRequirements -> ResourceRequirements;
  EnvVar_DeepCopy : EnvVar -> EnvVar;
  (* the order in which [range] visits the entries of a map *)
  rangeOrder : list (string * string) -> list (string * string);
  rangeOrder_visits_all : forall m, Permutation (rangeOrder m) m
}.

Section Types.
Context {k : Kube}.

Record RedisOperatorSpec : Type := {
  SpecRest : SpecFields;
  LeaderFollowersCount : option nat;           (* *int32 *)
  PodResources : ResourceRequirements;
  PodLabelSelectorOf : PodLabelSelector;
  PodAnnotations : option nat;                 (* map[string]string *)
  RedisContainerEnvVariables : option nat      (* []corev1.EnvVar *)
}.

Record RedisOperatorStatus : Type := {
  StatusRest : StatusFields;
  Pods : option nat                            (* []corev1.ObjectReference *)
}.

Record RedisOperator : Type := {
  OperatorTypeMeta : TypeMeta;
  OperatorObjectMeta : ObjectMeta;
  OperatorSpec : RedisOperatorSpec;
  OperatorStatus : RedisOperatorStatus
}.

Record RedisOperatorList : Type := {
  ListTypeMeta : TypeMeta;
  ListListMeta : ListMeta;
  Items : option nat                           (* []RedisOperator *)
}.

Record Heap : Type := {
  int32s : list Z;
  stringMaps : list (list (string * string));
  envVarArrays : list (list EnvVar);
  objectReferenceArrays : list (list ObjectReference);
  operatorArrays : list (list RedisOperator)
}.

(** [new], [make]: the new cell takes the next address of its store. *)
Definition newInt32 (v : Z) (h : Heap) : nat * Heap :=
  (List.length (int32s h),
   {| int32s := int32s h ++ [v]; stringMaps := stringMaps h;
      envVarArrays := envVarArrays h;
      objectReferenceArrays := objectReferenceArrays h;
      operatorArrays := operatorArrays h |}).

Definition newStringMap (m : list (string * string)) (h : Heap) : nat * Heap :=
  (List.length (stringMaps h),
   {| int32s := int32s h; stringMaps := stringMaps h ++ [m];
      envVarArrays := envVarArrays h;
      objectReferenceArrays := objectReferenceArrays h;
      operatorArrays := operatorArrays h |}).

Definition newEnvVarArray (a : list EnvVar) (h : Heap) : nat * Heap :=
  (List.length (envVarArrays h),
   {| int32s := int32s h; stringMaps := stringMaps h;
      envVarArrays := envVarArrays h ++ [a];
      objectReferenceArrays := objectReferenceArrays h;
      operatorArrays := operatorArrays h |}).

Definition newObjectReferenceArray (a : list ObjectReference) (h : Heap)
  : nat * Heap :=
  (List.length (objectReferenceArrays h),
   {| int32s := int32s h; stringMaps := stringMaps h;
      envVarArrays := envVarArrays h;
      objectReferenceArrays := objectReferenceArrays h ++ [a];
      operatorArrays := operatorArrays h |}).

Definition newOperatorArray (a : list RedisOperator) (h : Heap) : nat * Heap :=
  (List.length (operatorArrays h),
   {| int32s := int32s h; stringMaps := stringMaps h;
      envVarArrays := envVarArrays h;
      objectReferenceArrays := objectReferenceArrays h;
      operatorArrays := operatorArrays h ++ [a] |}).

(** Reading a cell; addresses are those of allocated cells. *)
Definition int32At (h : Heap) (a : nat) : Z := nth a (int32s h) 0%Z.
Definition stringMapAt (h : Heap) (a : nat) : list (string * string) :=
  nth a (stringMaps h) [].
Definition envVarsAt (h : Heap) (a : nat) : list EnvVar :=
  nth a (envVarArrays h) [].
Definition objectReferencesAt (h : Heap) (a : nat) : list ObjectReference :=
  nth a (objectReferenceArrays h) [].
Definition operatorsAt (h : Heap) (a : nat) : list RedisOperator :=
  nth a (operatorArrays h) [].

(** [*p = v] on an [int32] cell. *)
Fixpoint setNth {A : Type} (a : nat) (v : A) (l : list A) : list A :=
  match l, a with
  | [], _ => []
  | _ :: l', O => v :: l'
  | x :: l', S a' => x :: setNth a' v l'
  end.

Definition storeInt32 (a : nat) (v : Z) (h : Heap) : Heap :=
  {| int32s := setNth a v (int32s h); stringMaps := stringMaps h;
     envVarArrays := envVarArrays h;
     objectReferenceArrays := objectReferenceArrays h;
     operatorArrays := operatorArrays h |}.

(** A map of Go as the list of its entries: [m[key]] and [m[key] = val]. *)
Fixpoint mapLookup (key : string) (m : list (string * string)) : option string :=
  match m with
  | [] => None
  | (k', v) :: m' => if (k' =? key)%string then Some v else mapLookup key m'
  end.

Fixpoint mapAssign (key val : string) (m : list (string * string))
  : list (string * string) :=
  match m with
  | [] => [(key, val)]
  | (k', v) :: m' =>
      if (k' =? key)%string then (key, val) :: m'
      else (k', v) :: mapAssign key val m'
  end.

(** [for key, val := range in { out[key] = val }] from the empty map. *)
Definition copyStringMap (m : list (string * string)) : list (string * string) :=
  fold_left (fun out kv => mapAssign (fst kv) (snd kv) out) (rangeOrder m) [].

(** [m[key] = val] on the map of a cell. *)
Definition storeMapEntry (a : nat) (key val : string) (h : Heap) : Heap :=
  {| int32s := int32s h;
     stringMaps := setNth a (mapAssign key val (stringMapAt h a)) (stringMaps h);
     envVarArrays := envVarArrays h;
     objectReferenceArrays := objectReferenceArrays h;
     operatorArrays := operatorArrays h |}.

Definition RedisOperatorSpec_DeepCopyInto (inv : RedisOperatorSpec) (h : Heap)
  : RedisOperatorSpec * Heap :=
  (* *out = *in, and then field by field *)
  let '(count, h) :=
    match LeaderFollowersCount inv with
    | Some a => let '(a', h') := newInt32 (int32At h a) h in (Some a', h')
    | None => (None, h)
    end in
  let resources := ResourceRequirements_DeepCopy (PodResources inv) in
  let selector := PodLabelSelectorOf inv in
  let '(annotations, h) :=
    match PodAnnotations inv with
    | Some a =>
        let '(a', h') := newStringMap (copyStringMap (stringMapAt h a)) h in
        (Some a', h')
    | None => (None, h)
    end in
  let '(envs, h) :=
    match RedisContainerEnvVariables inv with
    | Some a =>
        let '(a', h') := newEnvVarArray (map EnvVar_DeepCopy (envVarsAt h a)) h in
        (Some a', h')
    | None => (None, h)
    end in
  ({| SpecRest := SpecRest inv;
      LeaderFollowersCount := count;
      PodResources := resources;
      PodLabelSelectorOf := selector;
      PodAnnotations := annotations;
      RedisContainerEnvVariables := envs |}, h).

Definition RedisOperatorSpec_DeepCopy (inp : option RedisOperatorSpec) (h : Heap)
  : option RedisOperatorSpec * Heap :=
  match inp with
  | None => (None, h)
  | Some inv =>
      let '(out, h') := RedisOperatorSpec_DeepCopyInto inv h in (Some out, h')
  end.

Definition RedisOperatorStatus_DeepCopyInto (inv : RedisOperatorStatus) (h : Heap)
  : RedisOperatorStatus * Heap :=
  match Pods inv with
  | Some a =>
      (* a new array of the length of the one of in, filled by the built-in copy *)
      let '(a', h') := newObjectReferenceArray (objectReferencesAt h a) h in
      ({| StatusRest := StatusRest inv; Pods := Some a' |}, h')
  | None => (inv, h)
  end.

Definition RedisOperator_DeepCopyInto (inv : RedisOperator) (h : Heap)
  : RedisOperator * Heap :=
  let meta := ObjectMeta_DeepCopy (OperatorObjectMeta inv) in
  let '(spec, h) := RedisOperatorSpec_DeepCopyInto (OperatorSpec inv) h in
  let '(status, h) := RedisOperatorStatus_DeepCopyInto (OperatorStatus inv) h in
  ({| OperatorTypeMeta := OperatorTypeMeta inv;
      OperatorObjectMeta := meta;
      OperatorSpec := spec;
      OperatorStatus := status |}, h).

Definition RedisOperator_DeepCopy (inp : option RedisOperator) (h : Heap)
  : option RedisOperator * Heap :=
  match inp with
  | None => (None, h)
  | Some inv =>
      let '(out, h') := RedisOperator_DeepCopyInto inv h in (Some out, h')
  end.

(** The loop over the items: each item of [in] is copied into the item of
    [out] of the same index, in order. *)
Fixpoint copyOperators (items : list RedisOperator) (h : Heap)
  : list RedisOperator * Heap :=
  match items with
  | [] => ([], h)
  | item :: rest =>
      let '(out, h1) := RedisOperator_DeepCopyInto item h in
      let '(outs, h2) := copyOperators rest h1 in
      (out :: outs, h2)
  end.

Definition RedisOperatorList_DeepCopyInto (inv : RedisOperatorList) (h : Heap)
  : RedisOperatorList * Heap :=
  let meta := ListMeta_DeepCopy (ListListMeta inv) in
  match Items inv with
  | Some a =>
      let '(outs, h1) := copyOperators (operatorsAt h a) h in
      let '(a', h2) := newOperatorArray outs h1 in
      ({| ListTypeMeta := ListTypeMeta inv; ListListMeta := meta;
          Items := Some a' |}, h2)
  | None =>
      ({| ListTypeMeta := ListTypeMeta inv; ListListMeta := meta;
          Items := None |}, h)
  end.

Definition RedisOperatorList_DeepCopy (inp : option RedisOperatorList) (h : Heap)
  : option RedisOperatorList * Heap :=
  match inp with
  | None => (None, h)
  | Some inv =>
      let '(out, h') := RedisOperatorList_DeepCopyInto inv h in (Some out, h')
  end.

(** A [runtime.Object]: the nil interface, or an interface that holds a
    pointer, which may itself be nil. *)
Inductive Object : Type :=
| nilObject
| operatorObject (p : option RedisOperator)
| listObject (p : option RedisOperatorList).

Definition isNilObject (o : Object) : bool :=
  match o with
  | nilObject => true
  | _ => false
  end.

Definition RedisOperator_DeepCopyObject (inp : option RedisOperator) (h : Heap)
  : Object * Heap :=
  let '(c, h') := RedisOperator_DeepCopy inp h in
  match c with
  | Some _ => (operatorObject c, h')
  | None => (nilObject, h')
  end.

Definition RedisOperatorList_DeepCopyObject (inp : option RedisOperatorList)
           (h : Heap) : Object * Heap :=
  let '(c, h') := RedisOperatorList_DeepCopy inp h in
  match c with
  | Some _ => (listObject c, h')
  | None => (nilObject, h')
  end.

(** The heap [h'] is [h] with new cells: no cell of [h] has changed. *)
Definition extends (h h' : Heap) : Prop :=
  (exists l, int32s h' = int32s h ++ l) /\
  (exists l, stringMaps h' = stringMaps h ++ l) /\
  (exists l, envVarArrays h' = envVarArrays h ++ l) /\
  (exists l, objectReferenceArrays h' = objectReferenceArrays h ++ l) /\
  (exists l, operatorArrays h' = operatorArrays h ++ l).

(** The references of a struct are addresses of allocated cells. *)
Definition allocated {A : Type} (store : list A) (r : option nat) : Prop :=
  match r with
  | Some a => (a < List.length store)%nat
  | None => True
  end.

Definition fresh {A : Type} (store : list A) (r : option nat) : Prop :=
  match r with
  | Some a => (List.length store <= a)%nat
  | None => True
  end.

Definition specAllocated (h : Heap) (s : RedisOperatorSpec) : Prop :=
  allocated (int32s h) (LeaderFollowersCount s) /\
  allocated (stringMaps h) (PodAnnotations s) /\
  allocated (envVarArrays h) (RedisContainerEnvVariables s).

Definition isNil {A : Type} (r : option A) : bool :=
  match r with
  | None => true
  | Some _ => false
  end.

Definition statusAllocated (h : Heap) (s : RedisOperatorStatus) : Prop :=
  allocated (objectReferenceArrays h) (Pods s).

Definition operatorAllocated (h : Heap) (o : RedisOperator) : Prop :=
  specAllocated h (OperatorSpec o) /\ statusAllocated h (OperatorStatus o).

(** A map of Go holds a key once. *)
Definition uniqueKeys (m : list (string * string)) : Prop := NoDup (map fst m).

Definition specWellFormed (h : Heap) (s : RedisOperatorSpec) : Prop :=
  specAllocated h s /\
  forall a, PodAnnotations s = Some a -> uniqueKeys (stringMapAt h a).

Definition operatorWellFormed (h : Heap) (o : RedisOperator) : Prop :=
  specWellFormed h (OperatorSpec o) /\ statusAllocated h (OperatorStatus o).

Definition listWellFormed (h : Heap) (l : RedisOperatorList) : Prop :=
  allocated (operatorArrays h) (Items l) /\
  forall a, Items l = Some a -> Forall (operatorWellFormed h) (operatorsAt h a).

(** Two references are both nil, or refer to cells whose contents are
    related. *)
Definition sameCell {A : Type} (R : A -> A -> Prop) (d : A)
           (store : list A) (r : option nat)
           (store' : list A) (r' : option nat) : Prop :=
  match r, r' with
  | None, None => True
  | Some a, Some a' => R (nth a store d) (nth a' store' d)
  | _, _ => False
  end.

Definition sameMap (m m' : list (string * string)) : Prop :=
  forall key, mapLookup key m' = mapLookup key m.

(** What a reader of the copy sees, against what a reader of the original
    sees: [s'] in the heap [h'] is a deep copy of [s] in the heap [h]. *)
Definition copiedSpec (h : Heap) (s : RedisOperatorSpec)
           (h' : Heap) (s' : RedisOperatorSpec) : Prop :=
  SpecRest s' = SpecRest s /\
  PodLabelSelectorOf s' = PodLabelSelectorOf s /\
  PodResources s' = ResourceRequirements_DeepCopy (PodResources s) /\
  sameCell eq 0%Z (int32s h) (LeaderFollowersCount s)
           (int32s h') (LeaderFollowersCount s') /\
  sameCell sameMap [] (stringMaps h) (PodAnnotations s)
           (stringMaps h') (PodAnnotations s') /\
  sameCell (fun a a' => a' = map EnvVar_DeepCopy a) []
           (envVarArrays h) (RedisContainerEnvVariables s)
           (envVarArrays h') (RedisContainerEnvVariables s').

Definition copiedStatus (h : Heap) (s : RedisOperatorStatus)
           (h' : Heap) (s' : RedisOperatorStatus) : Prop :=
  StatusRest s' = StatusRest s /\
  sameCell eq [] (objectReferenceArrays h) (Pods s)
           (objectReferenceArrays h') (Pods s').

Definition copiedOperator (h : Heap) (o : RedisOperator)
           (h' : Heap) (o' : RedisOperator) : Prop :=
  OperatorTypeMeta o' = OperatorTypeMeta o /\
  OperatorObjectMeta o' = ObjectMeta_DeepCopy (OperatorObjectMeta o) /\
  copiedSpec h (OperatorSpec o) h' (OperatorSpec o') /\
  copiedStatus h (OperatorStatus o) h' (OperatorStatus o').

Definition copiedList (h : Heap) (l : RedisOperatorList)
           (h' : Heap) (l' : RedisOperatorList) : Prop :=
  ListTypeMeta l' = ListTypeMeta l /\
  ListListMeta l' = ListMeta_DeepCopy (ListListMeta l) /\
  sameCell (Forall2 (fun o o' => copiedOperator h o h' o')) []
           (operatorArrays h) (Items l) (operatorArrays h') (Items l').

(** The copy and the original share no cell: the references of the copy
    are to cells that [h] did not have. *)
Definition specFresh (h : Heap) (s : RedisOperatorSpec) : Prop :=
  fresh (int32s h) (LeaderFollowersCount s) /\
  fresh (stringMaps h) (PodAnnotations s) /\
  fresh (envVarArrays h) (RedisContainerEnvVariables s).

Definition operatorFresh (h : Heap) (o : RedisOperator) : Prop :=
  specFresh h (OperatorSpec o) /\
  fresh (objectReferenceArrays h) (Pods (OperatorStatus o)).

(** Two references are not to the same cell; two resources share no cell. *)
Definition apart (r r' : option nat) : Prop :=
  match r, r' with
  | Some a, Some a' => a <> a'
  | _, _ => True
  end.

Definition operatorsApart (o o' : RedisOperator) : Prop :=
  apart (LeaderFollowersCount (OperatorSpec o))
        (LeaderFollowersCount (OperatorSpec o')) /\
  apart (PodAnnotations (OperatorSpec o)) (PodAnnotations (OperatorSpec o')) /\
  apart (RedisContainerEnvVariables (OperatorSpec o))
        (RedisContainerEnvVariables (OperatorSpec o')) /\
  apart (Pods (OperatorStatus o)) (Pods (OperatorStatus o')).
End Types.

(** A closed instance: the Kubernetes types are strings, copied as they
    are, and [range] visits a map from its last entry to its first. *)
Definition kube : Kube := {|
  TypeMeta := string;
  ObjectMeta := string;
  ListMeta := string;
  ResourceRequirements := string;
  EnvVar := string * string;
  ObjectReference := string;
  PodLabelSelector := string;
  SpecFields := Z;
  StatusFields := string;
  ObjectMeta_DeepCopy := fun m => m;
  ListMeta_DeepCopy := fun m => m;
  ResourceRequirements_DeepCopy := fun r => r;
  EnvVar_DeepCopy := fun e => e;
  rangeOrder := @rev (string * string);
  rangeOrder_visits_all := fun m => Permutation_sym (Permutation_rev m)
|}.

#[local] Existing Instance kube.

(** A resource whose spec and status refer to cells, and one whose
    references are nil but for an empty map of annotations; a heap that
    holds their cells and the array of a list of three items, the first and
    the last of which refer to the same cells. *)
Definition spec0 : RedisOperatorSpec :=
  {| SpecRest := 3%Z;
     LeaderFollowersCount := Some 0%nat;
     PodResources := "small";
     PodLabelSelectorOf := "app=redis";
     PodAnnotations := Some 0%nat;
     RedisContainerEnvVariables := Some 0%nat |}.

Definition status0 : RedisOperatorStatus :=
  {| StatusRest := "Ready"; Pods := Some 0%nat |}.

Definition operator0 : RedisOperator :=
  {| OperatorTypeMeta := "RedisOperator";
     OperatorObjectMeta := "dev-rdc";
     OperatorSpec := spec0;
     OperatorStatus := status0 |}.

Definition spec1 : RedisOperatorSpec :=
  {| SpecRest := 1%Z;
     LeaderFollowersCount := None;
     PodResources := "large";
     PodLabelSelectorOf := "app=redis";
     PodAnnotations := Some 1%nat;
     RedisContainerEnvVariables := None |}.

Definition operator1 : RedisOperator :=
  {| OperatorTypeMeta := "RedisOperator";
     OperatorObjectMeta := "qa-rdc";
     OperatorSpec := spec1;
     OperatorStatus := {| StatusRest := "Recovering"; Pods := None |} |}.

Definition heap0 : Heap :=
  {| int32s := [2%Z];
     stringMaps := [[("team", "db"); ("tier", "cache")]; []];
     envVarArrays := [[("PORT", "6379")]];
     objectReferenceArrays := [["redis-node-0"; "redis-node-1"]];
     operatorArrays := [[operator0; operator1; operator0]] |}.

Definition list0 : RedisOperatorList :=
  {| ListTypeMeta := "RedisOperatorList";
     ListListMeta := "42";
     Items := Some 0%nat |}.

End DeepCopy.

(** * Properties *)

(** ** Running a computation *)

Ltac run :=
  cbv beta iota zeta
      delta [bind ret emit get modify call exec whenErr Info LogErr
             value final trace stateAfter];
  cbn [fst snd app negb set_world set_State set_cluster set_api
       set_ClusterReset State ClusterReset cluster api world].

(** Decides the comparisons of the switch between the state constants. *)
Ltac states :=
  cbv beta iota zeta
      delta [String.eqb Ascii.eqb Bool.eqb orb andb negb
             NotExists Reset Ready Recovering Updating Scale].

Section Runs.
Context {W : Type}.

Lemma bind_run {A B : Type} (m : M W A) (k : A -> M W B) (s : Sys W) :
  bind m k s =
  (value (k (value (m s)) (final (m s))),
   final (k (value (m s)) (final (m s))),
   (trace (m s) ++ trace (k (value (m s)) (final (m s))))%list).
Proof.
  unfold bind, value, final, trace.
  destruct (m s) as [[a s1] t1]; cbn.
  destruct (k a s1) as [[b s2] t2]; reflexivity.
Qed.

Lemma trace_bind {A B : Type} (m : M W A) (k : A -> M W B) (s : Sys W) :
  trace (bind m k s) =
  (trace (m s) ++ trace (k (value (m s)) (final (m s))))%list.
Proof. rewrite bind_run; reflexivity. Qed.

Lemma value_bind {A B : Type} (m : M W A) (k : A -> M W B) (s : Sys W) :
  value (bind m k s) = value (k (value (m s)) (final (m s))).
Proof. rewrite bind_run; reflexivity. Qed.

Lemma final_bind {A B : Type} (m : M W A) (k : A -> M W B) (s : Sys W) :
  final (bind m k s) = final (k (value (m s)) (final (m s))).
Proof. rewrite bind_run; reflexivity. Qed.

Lemma silent_ret {A : Type} (P : Event -> bool) (a : A) :
  silent (W := W) P (ret a).
Proof. intro s; reflexivity. Qed.

Lemma silent_bind {A B : Type} (P : Event -> bool) (m : M W A) (k : A -> M W B) :
  silent P m -> (forall a, silent P (k a)) -> silent P (bind m k).
Proof.
  intros Hm Hk s. rewrite trace_bind, existsb_app, Hm, Hk. reflexivity.
Qed.

Lemma silent_emit (P : Event -> bool) (e : Event) :
  P e = false -> silent (W := W) P (emit e).
Proof. intros He s; cbn. now rewrite He. Qed.

Lemma silent_get {A : Type} (P : Event -> bool) (f : Sys W -> A) :
  silent P (get f).
Proof. intro s; reflexivity. Qed.

Lemma silent_modify (P : Event -> bool) (f : Sys W -> Sys W) :
  silent P (modify f).
Proof. intro s; reflexivity. Qed.

Lemma silent_call {A : Type} (P : Event -> bool) (c : Call) (f : W -> A * W) :
  P (Called c) = false -> silent P (call c f).
Proof.
  intros Hc s. unfold call, trace. destruct (f (world s)); cbn. now rewrite Hc.
Qed.

Lemma silent_exec (P : Event -> bool) (c : Call) (f : W -> W) :
  P (Called c) = false -> silent P (exec c f).
Proof. intros Hc s; cbn. now rewrite Hc. Qed.
End Runs.

Lemma calls_app (a b : list Event) : calls (a ++ b) = (calls a ++ calls b)%list.
Proof. apply flat_map_app. Qed.

(** Proves [silent P m] for a computation made of the combinators above. *)
Ltac silence :=
  repeat first
    [ apply silent_ret
    | apply silent_get
    | apply silent_modify
    | apply silent_emit; reflexivity
    | apply silent_call; reflexivity
    | apply silent_exec; reflexivity
    | apply silent_bind; [ | intro ]
    | match goal with
      | |- silent _ (match ?x with _ => _ end) => destruct x
      | |- silent _ (whenErr ?e _) => destruct e; cbn [whenErr]
      | |- silent _ (Info _) => apply silent_emit; reflexivity
      | |- silent _ (LogErr _ _) => apply silent_emit; reflexivity
      end
    | assumption ].

(** ** The client *)

Section ClientFacts.
Context {W : Type} `{Client W}.

Lemma Get_trace (key : NamespacedName) (s : Sys W) :
  trace (Get key s) = [Called CGet].
Proof.
  unfold Get. run. destruct (getFault key (world s)) as [[e|] w]; cbn; auto.
  destruct (api s) as [rc|]; cbn; auto.
  destruct (sameKey (ObjectMeta rc) key); reflexivity.
Qed.

(** A read changes nothing but the world. *)
Lemma Get_frame (key : NamespacedName) (s : Sys W) :
  final (Get key s) = set_world (world (final (Get key s))) s.
Proof.
  unfold Get. run. destruct (getFault key (world s)) as [[e|] w]; cbn; auto.
  destruct (api s) as [rc|]; cbn; auto.
  destruct (sameKey (ObjectMeta rc) key); reflexivity.
Qed.

Lemma silent_Get (P : Event -> bool) (key : NamespacedName) :
  P (Called CGet) = false -> silent P (Get key).
Proof. intros HP s. rewrite Get_trace; cbn. now rewrite HP. Qed.

Lemma calls_updateClusterState (rc : RedisCluster) (s : Sys W) :
  calls (trace (updateClusterState rc s))
  = [CStatusUpdate (ClusterState (Status rc))].
Proof.
  unfold updateClusterState, StatusUpdate. run.
  destruct (updateFault rc (world s)) as [[e|] w]; cbn; auto.
  destruct (api s) as [stored|]; cbn; auto.
  destruct (sameKey (ObjectMeta stored) (ObjectMeta rc)); reflexivity.
Qed.

Lemma silent_updateClusterState (rc : RedisCluster) :
  silent isCreateStateView (updateClusterState rc).
Proof. unfold updateClusterState, StatusUpdate. silence. Qed.
End ClientFacts.

(** ** The handlers *)

Section OlderHandlers.
Context {W View ScaleType : Type} `{Client W} `{!Older.Routines W View ScaleType}.

Lemma older_ready_outcome (rc : RedisCluster) (s : Sys W)
      (c u sc : bool) (t : ScaleType) (w1 w2 w3 : W) :
  Older.isClusterComplete rc (world s) = ((c, None), w1) ->
  (c = true -> Older.isClusterUpToDate rc w1 = ((u, None), w2)) ->
  (c = true -> u = true -> Older.isScaleRequired rc w2 = ((sc, t), w3)) ->
  ClusterState (Status rc) = Ready ->
  fst (value (Older.handleReadyState rc s)) = None /\
  stateAfter (Older.handleReadyState rc s) = readyTransition c u sc /\
  evaluations (trace (Older.handleReadyState rc s)) = readyEvaluations c u.
Proof.
  intros Hc Hu Hs Hrc.
  unfold Older.handleReadyState. run. rewrite Hc. run.
  destruct c; run; [ | auto ].
  rewrite (Hu eq_refl). run. destruct u; run; [ | auto ].
  rewrite (Hs eq_refl eq_refl). run. destruct sc; run; auto.
Qed.


Lemma older_updating_outcome (rc : RedisCluster) (s : Sys W) :
  stateAfter (Older.handleUpdatingState rc s) = Recovering /\
  fst (value (Older.handleUpdatingState rc s))
  = fst (fst (Older.updateCluster rc (world s))).
Proof.
  unfold Older.handleUpdatingState. run.
  destruct (Older.updateCluster rc (world s)) as [[[e|] rc1] w1]; run; auto.
Qed.

Lemma older_scale_outcome (rc : RedisCluster) (s : Sys W) :
  fst (value (Older.handleScaleState rc s)) = None /\
  stateAfter (Older.handleScaleState rc s) = Ready /\
  (forall e, fst (fst (Older.scaleCluster rc (world s))) = Some e ->
             In (LogError e "Could not perform cluster scale")
                (trace (Older.handleScaleState rc s))).
Proof.
  unfold Older.handleScaleState. run.
  destruct (Older.scaleCluster rc (world s)) as [[[e|] rc1] w1]; run;
    repeat split; intros e' He'; cbn in He'; try discriminate.
  injection He' as <-. cbn. auto.
Qed.
End OlderHandlers.

Section NewerHandlers.
Context {W View ScaleType : Type} `{Client W} `{!Newer.Routines W View ScaleType}.

Lemma newer_ready_outcome (rc : RedisCluster) (s : Sys W) (v : View)
      (c u sc : bool) (t : ScaleType) (w0 w1 w2 w3 : W) :
  Newer.NewRedisClusterView rc (world s) = (inr v, w0) ->
  Newer.isClusterComplete rc v w0 = ((c, None), w1) ->
  (c = true -> Newer.isClusterUpToDate rc v w1 = ((u, None), w2)) ->
  (c = true -> u = true -> Newer.isScaleRequired rc w2 = ((sc, t), w3)) ->
  ClusterState (Status rc) = Ready ->
  fst (value (Newer.handleReadyState rc s)) = None /\
  stateAfter (Newer.handleReadyState rc s) = readyTransition c u sc /\
  evaluations (trace (Newer.handleReadyState rc s)) = readyEvaluations c u.
Proof.
  intros Hv Hc Hu Hs Hrc.
  unfold Newer.handleReadyState. run. rewrite Hv. run. rewrite Hc. run.
  destruct c; run; [ | auto ].
  rewrite (Hu eq_refl). run. destruct u; run; [ | auto ].
  rewrite (Hs eq_refl eq_refl). run.
  destruct sc; run;
    destruct (Newer.updateClusterStateView _ w3) as [e' w4]; run; auto.
Qed.


Lemma newer_updating_outcome (rc : RedisCluster) (s : Sys W) :
  stateAfter (Newer.handleUpdatingState rc s) = Recovering /\
  fst (value (Newer.handleUpdatingState rc s))
  = fst (fst (Newer.updateCluster rc (world s))).
Proof.
  unfold Newer.handleUpdatingState. run.
  destruct (Newer.updateCluster rc (world s)) as [[[e|] rc1] w1]; run;
    destruct (Newer.updateClusterStateView _ w1); run; auto.
Qed.

Lemma newer_scale_outcome (rc : RedisCluster) (s : Sys W) :
  fst (value (Newer.handleScaleState rc s)) = None /\
  stateAfter (Newer.handleScaleState rc s) = Ready /\
  (forall e, fst (fst (Newer.scaleCluster rc (world s))) = Some e ->
             In (LogError e "Could not perform cluster scale")
                (trace (Newer.handleScaleState rc s))).
Proof.
  unfold Newer.handleScaleState. run.
  destruct (Newer.scaleCluster rc (world s)) as [[[e|] rc1] w1]; run;
    destruct (Newer.updateClusterStateView _ w1); run;
    repeat split; intros e' He'; cbn in He'; try discriminate.
  injection He' as <-. cbn. auto.
Qed.
End NewerHandlers.

Section HandlerClaims.
Context {W View ScaleType : Type} {K : Client W}.
Context {RO : Older.Routines W View ScaleType}.
Context {RN : Newer.Routines W View ScaleType}.

(** C1.  The Ready handler, in both revisions: when the evaluators
    answer without error, completeness is evaluated first, up-to-dateness
    only for a complete cluster and the need to scale only for a complete
    and up-to-date one, and the lifecycle state on return is Recovering
    for an incomplete cluster, Updating for a complete but stale one,
    Scale for a complete and up-to-date one that needs scaling, and Ready
    as before otherwise; no error is returned. *)
Theorem ready_handler_transitions :
  (forall (rc : RedisCluster) (s : Sys W) (c u sc : bool) (t : ScaleType)
          (w1 w2 w3 : W),
      Older.isClusterComplete rc (world s) = ((c, None), w1) ->
      (c = true -> Older.isClusterUpToDate rc w1 = ((u, None), w2)) ->
      (c = true -> u = true -> Older.isScaleRequired rc w2 = ((sc, t), w3)) ->
      ClusterState (Status rc) = Ready ->
      fst (value (Older.handleReadyState rc s)) = None /\
      stateAfter (Older.handleReadyState rc s) = readyTransition c u sc /\
      evaluations (trace (Older.handleReadyState rc s)) = readyEvaluations c u)
  /\
  (forall (rc : RedisCluster) (s : Sys W) (v : View) (c u sc : bool)
          (t : ScaleType) (w0 w1 w2 w3 : W),
      Newer.NewRedisClusterView rc (world s) = (inr v, w0) ->
      Newer.isClusterComplete rc v w0 = ((c, None), w1) ->
      (c = true -> Newer.isClusterUpToDate rc v w1 = ((u, None), w2)) ->
      (c = true -> u = true -> Newer.isScaleRequired rc w2 = ((sc, t), w3)) ->
      ClusterState (Status rc) = Ready ->
      fst (value (Newer.handleReadyState rc s)) = None /\
      stateAfter (Newer.handleReadyState rc s) = readyTransition c u sc /\
      evaluations (trace (Newer.handleReadyState rc s)) = readyEvaluations c u).
Proof.
  split; intros.
  - eapply older_ready_outcome; eauto.
  - eapply newer_ready_outcome; eauto.
Qed.

(** C3.  The Updating handler, in both revisions, leaves the lifecycle
    state Recovering in every execution, whatever the rolling update
    returned; the error of the rolling update is the handler's. *)
Theorem updating_handler_always_recovering (rc : RedisCluster) (s : Sys W) :
  (stateAfter (Older.handleUpdatingState rc s) = Recovering /\
   fst (value (Older.handleUpdatingState rc s))
   = fst (fst (Older.updateCluster rc (world s))))
  /\
  (stateAfter (Newer.handleUpdatingState rc s) = Recovering /\
   fst (value (Newer.handleUpdatingState rc s))
   = fst (fst (Newer.updateCluster rc (world s)))).
Proof.
  split; [ apply older_updating_outcome | apply newer_updating_outcome ].
Qed.

(** C4.  The Scale handler, in both revisions, returns no error and leaves
    the lifecycle state Ready in every execution; an error of the scale
    routine is written to the log and goes no further. *)
Theorem scale_handler_best_effort (rc : RedisCluster) (s : Sys W) :
  (fst (value (Older.handleScaleState rc s)) = None /\
   stateAfter (Older.handleScaleState rc s) = Ready /\
   (forall e, fst (fst (Older.scaleCluster rc (world s))) = Some e ->
              In (LogError e "Could not perform cluster scale")
                 (trace (Older.handleScaleState rc s))))
  /\
  (fst (value (Newer.handleScaleState rc s)) = None /\
   stateAfter (Newer.handleScaleState rc s) = Ready /\
   (forall e, fst (fst (Newer.scaleCluster rc (world s))) = Some e ->
              In (LogError e "Could not perform cluster scale")
                 (trace (Newer.handleScaleState rc s)))).
Proof.
  split; [ apply older_scale_outcome | apply newer_scale_outcome ].
Qed.
End HandlerClaims.

Import Fixture.

(** A complete but stale cluster goes to Updating, in both revisions. *)
Lemma ready_handler_transitions_witness :
  stateAfter (Older.handleReadyState (declared Ready)
                (running Ready (answering true false false))) = Updating /\
  evaluations (trace (Newer.handleReadyState (declared Ready)
                        (running Ready (answering true false false))))
  = [CisClusterComplete; CisClusterUpToDate].
Proof.
  split.
  - apply (proj1 (ready_handler_transitions (RO := older) (RN := newer))
             (declared Ready) (running Ready (answering true false false))
             true false false tt
             (answering true false false) (answering true false false)
             (answering true false false));
      try reflexivity; intros; discriminate.
  - apply (proj2 (ready_handler_transitions (RO := older) (RN := newer))
             (declared Ready) (running Ready (answering true false false))
             tt true false false tt
             (answering true false false) (answering true false false)
             (answering true false false) (answering true false false));
      try reflexivity; intros; discriminate.
Defined.

(** A failing scale is logged and the cluster goes back to Ready. *)
Lemma scale_handler_best_effort_witness :
  In (LogError boom "Could not perform cluster scale")
     (trace (Newer.handleScaleState (declared Scale)
               (running Scale (failing CscaleCluster)))) /\
  In (LogError boom "Could not perform cluster scale")
     (trace (Older.handleScaleState (declared Scale)
               (running Scale (failing CscaleCluster)))).
Proof.
  split.
  - apply (proj2 (proj2 (proj2 (scale_handler_best_effort (RO := older) (RN := newer)
             (declared Scale) (running Scale (failing CscaleCluster)))))).
    reflexivity.
  - apply (proj2 (proj2 (proj1 (scale_handler_best_effort (RO := older) (RN := newer)
             (declared Scale) (running Scale (failing CscaleCluster)))))).
    reflexivity.
Defined.

(** ** Full initialization *)

Section OlderInitialization.
Context {W View ScaleType : Type} {K : Client W}.
Context {RO : Older.Routines W View ScaleType}.

Lemma older_init_outcome (rc : RedisCluster) (s : Sys W)
      (e1 e2 e3 : option error) (rc1 rc2 : RedisCluster) (w1 w2 w3 : W) :
  Older.deleteAllRedisClusterPods (world (final (updateClusterState rc s)))
  = (e1, w1) ->
  Older.createNewRedisCluster rc
    (Older.CreateStateView (LeaderCount (Spec rc)) (LeaderFollowersCount (Spec rc))
       (Older.deleteClusterStateView rc w1)) = ((e2, rc1), w2) ->
  Older.initializeFollowers rc1 w2 = ((e3, rc2), w3) ->
  (e1 <> None -> value (Older.handleInitializingCluster rc s) = (e1, rc)) /\
  (e1 = None -> e2 <> None ->
     fst (value (Older.handleInitializingCluster rc s)) = e2 /\
     stateAfter (Older.handleInitializingCluster rc s) = Reset) /\
  (e1 = None -> e2 = None -> e3 <> None ->
     fst (value (Older.handleInitializingCluster rc s)) = e3 /\
     stateAfter (Older.handleInitializingCluster rc s) = Reset) /\
  (e1 = None -> e2 = None -> e3 = None ->
     fst (value (Older.handleInitializingCluster rc s)) = None /\
     stateAfter (Older.handleInitializingCluster rc s) = Ready /\
     calls (trace (Older.handleInitializingCluster rc s)) =
     [CStatusUpdate (ClusterState (Status rc));
      CdeleteAllRedisClusterPods; CdeleteClusterStateView;
      CCreateStateView (LeaderCount (Spec rc)) (LeaderFollowersCount (Spec rc));
      CcreateNewRedisCluster; CinitializeFollowers; CStatusUpdate Ready]).
Proof.
  intros H1 H2 H3.
  unfold Older.handleInitializingCluster.
  rewrite !bind_run.
  pose proof (calls_updateClusterState rc s) as Hc.
  destruct (updateClusterState rc s) as [[[] s0] t0].
  run. cbn [value final trace fst snd] in H1, Hc. rewrite H1.
  destruct e1 as [x1|]; run.
  { repeat split; intros; congruence. }
  rewrite H2. destruct e2 as [x2|]; run.
  { repeat split; intros; try congruence; reflexivity. }
  rewrite H3. destruct e3 as [x3|]; run.
  { repeat split; intros; try congruence; reflexivity. }
  split; [ congruence | ]. split; [ congruence | ]. split; [ congruence | ].
  intros _ _ _.
  match goal with
  | |- context [updateClusterState (setClusterState rc2 Ready) ?s'] =>
      pose proof (calls_updateClusterState (setClusterState rc2 Ready) s') as Hc2;
      destruct (updateClusterState (setClusterState rc2 Ready) s') as [[[] s4] t4]
  end.
  cbn [trace snd] in Hc2. cbn [fst snd].
  split; [ reflexivity | ]. split; [ reflexivity | ].
  rewrite app_nil_r, calls_app, Hc. cbn [calls flat_map app].
  change (flat_map _ t4) with (calls t4). rewrite Hc2. reflexivity.
Qed.
End OlderInitialization.

Section NewerInitialization.
Context {W View ScaleType : Type} {K : Client W}.
Context {RN : Newer.Routines W View ScaleType}.

Lemma newer_init_outcome (rc : RedisCluster) (s : Sys W)
      (e1 e2 e3 : option error) (rc1 rc2 : RedisCluster) (w1 w2 w3 : W) :
  Newer.deleteAllRedisClusterPods (world s) = (e1, w1) ->
  Newer.createNewRedisCluster rc
    (Newer.CreateStateView (LeaderCount (Spec rc)) (LeaderFollowersCount (Spec rc))
       (Newer.deleteClusterStateView rc w1)) = ((e2, rc1), w2) ->
  Newer.initializeFollowers rc1 w2 = ((e3, rc2), w3) ->
  (e1 <> None -> value (Newer.handleInitializingCluster rc s) = (e1, rc)) /\
  (e1 = None -> e2 <> None ->
     fst (value (Newer.handleInitializingCluster rc s)) = e2 /\
     stateAfter (Newer.handleInitializingCluster rc s) = Reset) /\
  (e1 = None -> e2 = None -> e3 <> None ->
     fst (value (Newer.handleInitializingCluster rc s)) = e3 /\
     stateAfter (Newer.handleInitializingCluster rc s) = Reset) /\
  (e1 = None -> e2 = None -> e3 = None ->
     fst (value (Newer.handleInitializingCluster rc s)) = None /\
     stateAfter (Newer.handleInitializingCluster rc s) = Ready /\
     calls (trace (Newer.handleInitializingCluster rc s)) =
     [CdeleteAllRedisClusterPods; CdeleteClusterStateView;
      CCreateStateView (LeaderCount (Spec rc)) (LeaderFollowersCount (Spec rc));
      CcreateNewRedisCluster; CinitializeFollowers; CStatusUpdate Ready;
      CcreateClusterStateView]).
Proof.
  intros H1 H2 H3.
  unfold Newer.handleInitializingCluster. run. rewrite H1.
  destruct e1 as [x1|]; run.
  { repeat split; intros; congruence. }
  rewrite H2. destruct e2 as [x2|]; run.
  { repeat split; intros; try congruence; reflexivity. }
  rewrite H3. destruct e3 as [x3|]; run.
  { repeat split; intros; try congruence; reflexivity. }
  split; [ congruence | ]. split; [ congruence | ]. split; [ congruence | ].
  intros _ _ _.
  match goal with
  | |- context [updateClusterState (setClusterState rc2 Ready) ?s'] =>
      pose proof (calls_updateClusterState (setClusterState rc2 Ready) s') as Hc2;
      destruct (updateClusterState (setClusterState rc2 Ready) s') as [[[] s4] t4]
  end.
  cbn [trace snd] in Hc2. cbn [fst snd world].
  destruct (Newer.createClusterStateView _ (world s4)) as [e5 w5].
  cbn [fst snd].
  split; [ reflexivity | ]. split; [ reflexivity | ].
  cbn [calls flat_map app]. change (flat_map _ ?l) with (calls l).
  rewrite calls_app, Hc2. reflexivity.
Qed.

(** The switch in the two initial states. *)
Lemma newer_dispatch_init (rc : RedisCluster) (err : option error) (s : Sys W) :
  State s = NotExists \/ State s = Reset ->
  Newer.dispatch rc err s = Newer.handleInitializingCluster rc s.
Proof.
  intros Hs. unfold Newer.dispatch. run.
  destruct Hs as [-> | ->]; states;
    destruct (Newer.handleInitializingCluster rc s) as [[a s1] t1]; reflexivity.
Qed.
End NewerInitialization.

Section OlderDispatch.
Context {W View ScaleType : Type} {K : Client W}.
Context {RO : Older.Routines W View ScaleType}.

Lemma older_dispatch_NotExists (rc : RedisCluster) (err : option error) (s : Sys W) :
  State s = NotExists ->
  Older.dispatch rc err s = Older.handleInitializingCluster rc s.
Proof.
  intros Hs. unfold Older.dispatch. run. rewrite Hs; states.
  destruct (Older.handleInitializingCluster rc s) as [[a s1] t1]; reflexivity.
Qed.

Lemma older_dispatch_Reset (rc : RedisCluster) (err : option error) (s : Sys W) :
  State s = Reset ->
  value (Older.dispatch rc err s) = value (Older.handleInitializingCluster rc s) /\
  trace (Older.dispatch rc err s) = trace (Older.handleInitializingCluster rc s) /\
  final (Older.dispatch rc err s)
  = set_ClusterReset false (final (Older.handleInitializingCluster rc s)).
Proof.
  intros Hs. unfold Older.dispatch. run. rewrite Hs; states.
  destruct (Older.handleInitializingCluster rc s) as [[a s1] t1]; run.
  rewrite app_nil_r. auto.
Qed.
End OlderDispatch.

Section InitializationClaim.
Context {W View ScaleType : Type} {K : Client W}.
Context {RO : Older.Routines W View ScaleType}.
Context {RN : Newer.Routines W View ScaleType}.

(** C5, as the code has it.  The initialization handler, in both
    revisions: when the deletion of the pods fails the handler returns the
    error and the cluster object as it was, lifecycle state included; when
    the creation of the leaders or the attachment of the followers fails
    it returns the error with the lifecycle state Reset; when all steps
    succeed it returns no error with the lifecycle state Ready, after
    deleting the pods, rebuilding the state view from the declaration,
    creating the leaders and attaching the followers, in this order.  The
    switch of a tick in state NotExists or Reset runs this handler. *)
Theorem initializing_handler_outcome :
  (forall (rc : RedisCluster) (s : Sys W) (e1 e2 e3 : option error)
          (rc1 rc2 : RedisCluster) (w1 w2 w3 : W),
      Older.deleteAllRedisClusterPods (world (final (updateClusterState rc s)))
      = (e1, w1) ->
      Older.createNewRedisCluster rc
        (Older.CreateStateView (LeaderCount (Spec rc))
           (LeaderFollowersCount (Spec rc))
           (Older.deleteClusterStateView rc w1)) = ((e2, rc1), w2) ->
      Older.initializeFollowers rc1 w2 = ((e3, rc2), w3) ->
      (e1 <> None -> value (Older.handleInitializingCluster rc s) = (e1, rc)) /\
      (e1 = None -> e2 <> None ->
         fst (value (Older.handleInitializingCluster rc s)) = e2 /\
         stateAfter (Older.handleInitializingCluster rc s) = Reset) /\
      (e1 = None -> e2 = None -> e3 <> None ->
         fst (value (Older.handleInitializingCluster rc s)) = e3 /\
         stateAfter (Older.handleInitializingCluster rc s) = Reset) /\
      (e1 = None -> e2 = None -> e3 = None ->
         fst (value (Older.handleInitializingCluster rc s)) = None /\
         stateAfter (Older.handleInitializingCluster rc s) = Ready /\
         calls (trace (Older.handleInitializingCluster rc s)) =
         [CStatusUpdate (ClusterState (Status rc));
          CdeleteAllRedisClusterPods; CdeleteClusterStateView;
          CCreateStateView (LeaderCount (Spec rc))
                           (LeaderFollowersCount (Spec rc));
          CcreateNewRedisCluster; CinitializeFollowers; CStatusUpdate Ready]))
  /\
  (forall (rc : RedisCluster) (s : Sys W) (e1 e2 e3 : option error)
          (rc1 rc2 : RedisCluster) (w1 w2 w3 : W),
      Newer.deleteAllRedisClusterPods (world s) = (e1, w1) ->
      Newer.createNewRedisCluster rc
        (Newer.CreateStateView (LeaderCount (Spec rc))
           (LeaderFollowersCount (Spec rc))
           (Newer.deleteClusterStateView rc w1)) = ((e2, rc1), w2) ->
      Newer.initializeFollowers rc1 w2 = ((e3, rc2), w3) ->
      (e1 <> None -> value (Newer.handleInitializingCluster rc s) = (e1, rc)) /\
      (e1 = None -> e2 <> None ->
         fst (value (Newer.handleInitializingCluster rc s)) = e2 /\
         stateAfter (Newer.handleInitializingCluster rc s) = Reset) /\
      (e1 = None -> e2 = None -> e3 <> None ->
         fst (value (Newer.handleInitializingCluster rc s)) = e3 /\
         stateAfter (Newer.handleInitializingCluster rc s) = Reset) /\
      (e1 = None -> e2 = None -> e3 = None ->
         fst (value (Newer.handleInitializingCluster rc s)) = None /\
         stateAfter (Newer.handleInitializingCluster rc s) = Ready /\
         calls (trace (Newer.handleInitializingCluster rc s)) =
         [CdeleteAllRedisClusterPods; CdeleteClusterStateView;
          CCreateStateView (LeaderCount (Spec rc))
                           (LeaderFollowersCount (Spec rc));
          CcreateNewRedisCluster; CinitializeFollowers; CStatusUpdate Ready;
          CcreateClusterStateView]))
  /\
  (forall (rc : RedisCluster) (err : option error) (s : Sys W),
      State s = NotExists \/ State s = Reset ->
      value (Older.dispatch rc err s)
      = value (Older.handleInitializingCluster rc s) /\
      trace (Older.dispatch rc err s)
      = trace (Older.handleInitializingCluster rc s))
  /\
  (forall (rc : RedisCluster) (err : option error) (s : Sys W),
      State s = NotExists \/ State s = Reset ->
      Newer.dispatch rc err s = Newer.handleInitializingCluster rc s).
Proof.
  split; [ | split; [ | split ] ].
  - intros; eapply older_init_outcome; eauto.
  - intros; eapply newer_init_outcome; eauto.
  - intros rc err s [Hs | Hs].
    + rewrite older_dispatch_NotExists by assumption. auto.
    + destruct (older_dispatch_Reset rc err s Hs) as (Hv & Ht & _). auto.
  - intros; apply newer_dispatch_init; assumption.
Qed.
End InitializationClaim.

(** C5 fails when the deletion of the pods fails: the handler returns the
    error and the cluster is still in state NotExists, not Reset. *)
Lemma initializing_delete_failure_counterexample :
  fst (value (Newer.handleInitializingCluster (declared NotExists)
                (running NotExists (failing CdeleteAllRedisClusterPods))))
  = Some boom /\
  stateAfter (Newer.handleInitializingCluster (declared NotExists)
                (running NotExists (failing CdeleteAllRedisClusterPods)))
  <> Reset /\
  stateAfter (Older.handleInitializingCluster (declared NotExists)
                (running NotExists (failing CdeleteAllRedisClusterPods)))
  <> Reset.
Proof.
  split; [ reflexivity | split ]; vm_compute; discriminate.
Qed.

(** A failed creation of the leaders sends the cluster to Reset, a failed
    deletion of the pods leaves it where it was, and the state it is left
    in runs the handler again. *)
Lemma initializing_handler_outcome_witness :
  stateAfter (Newer.handleInitializingCluster (declared NotExists)
                (running NotExists (failing CcreateNewRedisCluster))) = Reset /\
  value (Older.handleInitializingCluster (declared NotExists)
           (running NotExists (failing CdeleteAllRedisClusterPods)))
  = (Some boom, declared NotExists) /\
  Newer.dispatch (declared NotExists) None
    (running NotExists (failing CdeleteAllRedisClusterPods))
  = Newer.handleInitializingCluster (declared NotExists)
      (running NotExists (failing CdeleteAllRedisClusterPods)) /\
  trace (Older.dispatch (declared Reset) None (running Reset healthy))
  = trace (Older.handleInitializingCluster (declared Reset) (running Reset healthy)).
Proof.
  split; [ | split; [ | split ] ].
  - apply (proj1 (proj2
             (proj1 (proj2 (initializing_handler_outcome (K := client) (RO := older) (RN := newer)))
                (declared NotExists)
                (running NotExists (failing CcreateNewRedisCluster))
                None (Some boom) None (declared NotExists) (declared NotExists)
                (failing CcreateNewRedisCluster) (failing CcreateNewRedisCluster)
                (failing CcreateNewRedisCluster) eq_refl eq_refl eq_refl)));
      [ reflexivity | discriminate ].
  - apply (proj1
             (proj1 (initializing_handler_outcome (K := client) (RO := older) (RN := newer))
                (declared NotExists)
                (running NotExists (failing CdeleteAllRedisClusterPods))
                (Some boom) None None (declared NotExists) (declared NotExists)
                (failing CdeleteAllRedisClusterPods)
                (failing CdeleteAllRedisClusterPods)
                (failing CdeleteAllRedisClusterPods) eq_refl eq_refl eq_refl)).
    discriminate.
  - apply (proj2 (proj2 (proj2
             (initializing_handler_outcome (K := client) (RO := older) (RN := newer))))).
    left; reflexivity.
  - apply (proj1 (proj2 (proj2
             (initializing_handler_outcome (K := client) (RO := older) (RN := newer))))).
    right; reflexivity.
Defined.

(** ** A tick up to the switch *)

Section OlderBeginTick.
Context {W View ScaleType : Type} {K : Client W}.
Context {RO : Older.Routines W View ScaleType}.

Lemma older_beginTick_unfetched (req : Request) (s : Sys W) (e : error) :
  value (Get (Key req) s) = inl e ->
  Older.beginTick req s =
  (inl ({| Requeue := false; RequeueAfter := 0 |}, IgnoreNotFound (Some e)),
   final (Get (Key req) s),
   [Println "Reconcile call"; Called CGet;
    LogInfo "Unable to fetch RedisCluster resource" []]).
Proof.
  intros Hg. unfold Older.beginTick. run.
  pose proof (Get_trace (Key req) s) as Ht.
  destruct (Get (Key req) s) as [[f s1] t1].
  cbn [value final trace fst snd] in *. subst f t1. reflexivity.
Qed.

Lemma older_beginTick_NotExists (req : Request) (s : Sys W)
      (rc : RedisCluster) (err : option error) (w : W) :
  value (Get (Key req) s) = inr rc ->
  Older.getClusterStateView rc (world (final (Get (Key req) s))) = (err, w) ->
  stateOf (ClusterState (Status rc)) = NotExists ->
  Older.beginTick req s =
  (inr (rc, err),
   set_world (Older.CreateStateView (LeaderCount (Spec rc))
                                    (LeaderFollowersCount (Spec rc)) w)
     (set_cluster (Some rc) (set_State NotExists (final (Get (Key req) s)))),
   [Println "Reconcile call"; Called CGet; Called CgetClusterStateView;
    Called (CCreateStateView (LeaderCount (Spec rc))
                             (LeaderFollowersCount (Spec rc)))]).
Proof.
  intros Hg Hv Hst. unfold Older.beginTick. run.
  pose proof (Get_trace (Key req) s) as Ht.
  destruct (Get (Key req) s) as [[f s1] t1].
  cbn [value final trace fst snd] in *. subst f t1. run.
  rewrite Hv. run. rewrite Hst. reflexivity.
Qed.

Lemma older_beginTick_other (req : Request) (s : Sys W)
      (rc : RedisCluster) (err : option error) (w : W) :
  value (Get (Key req) s) = inr rc ->
  Older.getClusterStateView rc (world (final (Get (Key req) s))) = (err, w) ->
  stateOf (ClusterState (Status rc)) <> NotExists ->
  Older.beginTick req s =
  (match err with
   | Some _ => inl ({| Requeue := false; RequeueAfter := 20 * Second |}, None)
   | None => inr (rc, None)
   end,
   set_world w
     (set_cluster (Some rc)
        (set_State (stateOf (ClusterState (Status rc)))
                   (final (Get (Key req) s)))),
   [Println "Reconcile call"; Called CGet; Called CgetClusterStateView]
     ++ match err with
        | Some e => [LogError e "Could not perform reconcile loop"]
        | None => []
        end)%list.
Proof.
  intros Hg Hv Hst. unfold Older.beginTick. run.
  pose proof (Get_trace (Key req) s) as Ht.
  destruct (Get (Key req) s) as [[f s1] t1].
  cbn [value final trace fst snd] in *. subst f t1. run.
  rewrite Hv. run.
  apply String.eqb_neq in Hst. rewrite Hst.
  destruct err; reflexivity.
Qed.
End OlderBeginTick.

Section NewerBeginTick.
Context {W View ScaleType : Type} {K : Client W}.
Context {RN : Newer.Routines W View ScaleType}.

Lemma newer_beginTick_unfetched (req : Request) (s : Sys W) (e : error) :
  value (Get (Key req) s) = inl e ->
  Newer.beginTick req s =
  (inl ({| Requeue := false; RequeueAfter := 15 * Second |},
        IgnoreNotFound (Some e)),
   final (Get (Key req) s),
   [Println "Reconcile call"; Called CGet;
    LogInfo "Unable to fetch RedisCluster resource" []]).
Proof.
  intros Hg. unfold Newer.beginTick. run.
  pose proof (Get_trace (Key req) s) as Ht.
  destruct (Get (Key req) s) as [[f s1] t1].
  cbn [value final trace fst snd] in *. subst f t1. reflexivity.
Qed.

Lemma newer_beginTick_init (req : Request) (s : Sys W)
      (rc : RedisCluster) (err : option error) (w : W) :
  value (Get (Key req) s) = inr rc ->
  Newer.getClusterStateView rc (world (final (Get (Key req) s))) = (err, w) ->
  stateOf (ClusterState (Status rc)) = NotExists \/
  stateOf (ClusterState (Status rc)) = Reset ->
  Newer.beginTick req s =
  (inr (rc, err),
   set_world (Newer.CreateStateView (LeaderCount (Spec rc))
                                    (LeaderFollowersCount (Spec rc)) w)
     (set_cluster (Some rc)
        (set_State (stateOf (ClusterState (Status rc)))
                   (final (Get (Key req) s)))),
   [Println "Reconcile call"; Called CGet; Called CgetClusterStateView;
    Called (CCreateStateView (LeaderCount (Spec rc))
                             (LeaderFollowersCount (Spec rc)))]).
Proof.
  intros Hg Hv Hst. unfold Newer.beginTick. run.
  pose proof (Get_trace (Key req) s) as Ht.
  destruct (Get (Key req) s) as [[f s1] t1].
  cbn [value final trace fst snd] in *. subst f t1. run.
  rewrite Hv. run. destruct Hst as [-> | ->]; reflexivity.
Qed.

Lemma newer_beginTick_other (req : Request) (s : Sys W)
      (rc : RedisCluster) (err : option error) (w : W) :
  value (Get (Key req) s) = inr rc ->
  Newer.getClusterStateView rc (world (final (Get (Key req) s))) = (err, w) ->
  stateOf (ClusterState (Status rc)) <> NotExists ->
  stateOf (ClusterState (Status rc)) <> Reset ->
  Newer.beginTick req s =
  (match err with
   | Some _ => inl ({| Requeue := false; RequeueAfter := 20 * Second |}, None)
   | None => inr (rc, None)
   end,
   set_world w
     (set_cluster (Some rc)
        (set_State (stateOf (ClusterState (Status rc)))
                   (final (Get (Key req) s)))),
   [Println "Reconcile call"; Called CGet; Called CgetClusterStateView]
     ++ match err with
        | Some e => [LogError e "Could not perform reconcile loop"]
        | None => []
        end)%list.
Proof.
  intros Hg Hv Hn Hr. unfold Newer.beginTick. run.
  pose proof (Get_trace (Key req) s) as Ht.
  destruct (Get (Key req) s) as [[f s1] t1].
  cbn [value final trace fst snd] in *. subst f t1. run.
  rewrite Hv. run.
  apply String.eqb_neq in Hn, Hr. rewrite Hn, Hr.
  destruct err; reflexivity.
Qed.
End NewerBeginTick.

(** ** A tick from the switch on *)

Section OlderEndTick.
Context {W View ScaleType : Type} {K : Client W}.
Context {RO : Older.Routines W View ScaleType}.

Lemma older_endTick_value (rc : RedisCluster) (err : option error) (s : Sys W) :
  value (Older.endTick rc err s)
  = ({| Requeue := false; RequeueAfter := 15 * Second |}, None).
Proof. unfold Older.endTick. rewrite !value_bind. reflexivity. Qed.

Lemma older_endTick_logs (rc : RedisCluster) (e : error) (s : Sys W) :
  In (LogError e "Handling error") (trace (Older.endTick rc (Some e) s)).
Proof.
  unfold Older.endTick. rewrite !trace_bind. cbn [whenErr].
  apply in_or_app; right. apply in_or_app; left. left; reflexivity.
Qed.

(** The tick once the cluster has been fetched. *)
Lemma older_Reconcile_fetched (req : Request) (s : Sys W) (rc : RedisCluster) :
  value (Get (Key req) s) = inr rc ->
  snd (value (Older.Reconcile req s)) = None /\
  (RequeueAfter (fst (value (Older.Reconcile req s))) = 15 * Second \/
   RequeueAfter (fst (value (Older.Reconcile req s))) = 20 * Second).
Proof.
  intros Hg. unfold Older.Reconcile. rewrite value_bind.
  destruct (Older.getClusterStateView rc (world (final (Get (Key req) s))))
    as [err w] eqn:Hv.
  destruct (String.eqb_spec (stateOf (ClusterState (Status rc))) NotExists)
    as [Hst | Hst].
  - rewrite (older_beginTick_NotExists req s rc err w Hg Hv Hst).
    cbn [value final fst snd]. rewrite value_bind.
    destruct (value (Older.dispatch _ _ _)) as [err' rc'].
    rewrite older_endTick_value. cbn. auto.
  - rewrite (older_beginTick_other req s rc err w Hg Hv Hst).
    cbn [value final fst snd]. destruct err as [e|].
    + cbn. auto.
    + rewrite value_bind.
      destruct (value (Older.dispatch _ _ _)) as [err' rc'].
      rewrite older_endTick_value. cbn. auto.
Qed.

Lemma older_handler_error_logged (req : Request) (s : Sys W)
      (rc : RedisCluster) (err0 : option error) (e : error) :
  value (Older.beginTick req s) = inr (rc, err0) ->
  fst (value (Older.dispatch rc err0 (final (Older.beginTick req s)))) = Some e ->
  value (Older.Reconcile req s)
  = ({| Requeue := false; RequeueAfter := 15 * Second |}, None) /\
  In (LogError e "Handling error") (trace (Older.Reconcile req s)).
Proof.
  intros Hb Hd. unfold Older.Reconcile.
  rewrite value_bind, trace_bind, Hb.
  rewrite value_bind, trace_bind.
  destruct (value (Older.dispatch _ _ _)) as [err' rc'].
  cbn [fst] in Hd. subst err'.
  split; [ apply older_endTick_value | ].
  apply in_or_app; right. apply in_or_app; right. apply older_endTick_logs.
Qed.
End OlderEndTick.

Section NewerEndTick.
Context {W View ScaleType : Type} {K : Client W}.
Context {RN : Newer.Routines W View ScaleType}.

Lemma newer_endTick_value (rc : RedisCluster) (err : option error) (s : Sys W) :
  value (Newer.endTick rc err s)
  = ({| Requeue := Newer.isNil err; RequeueAfter := 15 * Second |}, None).
Proof. unfold Newer.endTick. rewrite !value_bind. reflexivity. Qed.

Lemma newer_endTick_logs (rc : RedisCluster) (e : error) (s : Sys W) :
  In (LogError e "Handling error") (trace (Newer.endTick rc (Some e) s)).
Proof.
  unfold Newer.endTick. rewrite !trace_bind. cbn [whenErr].
  apply in_or_app; right. apply in_or_app; left. left; reflexivity.
Qed.

Lemma newer_Reconcile_fetched (req : Request) (s : Sys W) (rc : RedisCluster) :
  value (Get (Key req) s) = inr rc ->
  snd (value (Newer.Reconcile req s)) = None /\
  (RequeueAfter (fst (value (Newer.Reconcile req s))) = 15 * Second \/
   RequeueAfter (fst (value (Newer.Reconcile req s))) = 20 * Second).
Proof.
  intros Hg. unfold Newer.Reconcile. rewrite value_bind.
  destruct (Newer.getClusterStateView rc (world (final (Get (Key req) s))))
    as [err w] eqn:Hv.
  destruct (String.eqb_spec (stateOf (ClusterState (Status rc))) NotExists)
    as [Hn | Hn];
  [ | destruct (String.eqb_spec (stateOf (ClusterState (Status rc))) Reset)
        as [Hr | Hr] ].
  - rewrite (newer_beginTick_init req s rc err w Hg Hv (or_introl Hn)).
    cbn [value final fst snd]. rewrite value_bind.
    destruct (value (Newer.dispatch _ _ _)) as [err' rc'].
    rewrite newer_endTick_value. cbn. auto.
  - rewrite (newer_beginTick_init req s rc err w Hg Hv (or_intror Hr)).
    cbn [value final fst snd]. rewrite value_bind.
    destruct (value (Newer.dispatch _ _ _)) as [err' rc'].
    rewrite newer_endTick_value. cbn. auto.
  - rewrite (newer_beginTick_other req s rc err w Hg Hv Hn Hr).
    cbn [value final fst snd]. destruct err as [e|].
    + cbn. auto.
    + rewrite value_bind.
      destruct (value (Newer.dispatch _ _ _)) as [err' rc'].
      rewrite newer_endTick_value. cbn. auto.
Qed.

Lemma newer_handler_error_logged (req : Request) (s : Sys W)
      (rc : RedisCluster) (err0 : option error) (e : error) :
  value (Newer.beginTick req s) = inr (rc, err0) ->
  fst (value (Newer.dispatch rc err0 (final (Newer.beginTick req s)))) = Some e ->
  value (Newer.Reconcile req s)
  = ({| Requeue := false; RequeueAfter := 15 * Second |}, None) /\
  In (LogError e "Handling error") (trace (Newer.Reconcile req s)).
Proof.
  intros Hb Hd. unfold Newer.Reconcile.
  rewrite value_bind, trace_bind, Hb.
  rewrite value_bind, trace_bind.
  destruct (value (Newer.dispatch _ _ _)) as [err' rc'].
  cbn [fst] in Hd. subst err'.
  split; [ apply newer_endTick_value | ].
  apply in_or_app; right. apply in_or_app; right. apply newer_endTick_logs.
Qed.
End NewerEndTick.

(** ** The tick *)

Section TickClaims.
Context {W View ScaleType : Type} {K : Client W}.
Context {RO : Older.Routines W View ScaleType}.
Context {RN : Newer.Routines W View ScaleType}.

(** C6.  In both revisions, a tick that has fetched the cluster returns
    no error and asks to be run again after a fixed delay (15 seconds, or
    20 when it stopped before the switch); when the handler that the
    switch runs returns an error, the tick writes it to the log with
    "Handling error", returns no error and asks for the 15 seconds. *)
Theorem handler_error_never_escapes :
  (forall (req : Request) (s : Sys W) (rc : RedisCluster),
      value (Get (Key req) s) = inr rc ->
      (snd (value (Older.Reconcile req s)) = None /\
       (RequeueAfter (fst (value (Older.Reconcile req s))) = 15 * Second \/
        RequeueAfter (fst (value (Older.Reconcile req s))) = 20 * Second)) /\
      (snd (value (Newer.Reconcile req s)) = None /\
       (RequeueAfter (fst (value (Newer.Reconcile req s))) = 15 * Second \/
        RequeueAfter (fst (value (Newer.Reconcile req s))) = 20 * Second)))
  /\
  (forall (req : Request) (s : Sys W) (rc : RedisCluster)
          (err0 : option error) (e : error),
      value (Older.beginTick req s) = inr (rc, err0) ->
      fst (value (Older.dispatch rc err0 (final (Older.beginTick req s))))
      = Some e ->
      value (Older.Reconcile req s)
      = ({| Requeue := false; RequeueAfter := 15 * Second |}, None) /\
      In (LogError e "Handling error") (trace (Older.Reconcile req s)))
  /\
  (forall (req : Request) (s : Sys W) (rc : RedisCluster)
          (err0 : option error) (e : error),
      value (Newer.beginTick req s) = inr (rc, err0) ->
      fst (value (Newer.dispatch rc err0 (final (Newer.beginTick req s))))
      = Some e ->
      value (Newer.Reconcile req s)
      = ({| Requeue := false; RequeueAfter := 15 * Second |}, None) /\
      In (LogError e "Handling error") (trace (Newer.Reconcile req s))).
Proof.
  split; [ | split ].
  - intros req s rc Hg. split.
    + apply (older_Reconcile_fetched req s rc Hg).
    + apply (newer_Reconcile_fetched req s rc Hg).
  - intros; eapply older_handler_error_logged; eauto.
  - intros; eapply newer_handler_error_logged; eauto.
Qed.

(** C7.  In both revisions, when the fetch of the cluster fails the tick
    ends there: it has made no call but the fetch, it has written neither
    [r.State] nor the stored resource, and it returns no error when the
    failure is "not found" and the error of the fetch otherwise.  A tick
    returns an error in this case only. *)
Theorem fetch_failure_ends_tick :
  (forall (req : Request) (s : Sys W) (e : error),
      value (Get (Key req) s) = inl e ->
      (snd (value (Older.Reconcile req s))
       = (if IsNotFound (Some e) then None else Some e) /\
       trace (Older.Reconcile req s)
       = [Println "Reconcile call"; Called CGet;
          LogInfo "Unable to fetch RedisCluster resource" []] /\
       State (final (Older.Reconcile req s)) = State s /\
       api (final (Older.Reconcile req s)) = api s) /\
      (snd (value (Newer.Reconcile req s))
       = (if IsNotFound (Some e) then None else Some e) /\
       trace (Newer.Reconcile req s)
       = [Println "Reconcile call"; Called CGet;
          LogInfo "Unable to fetch RedisCluster resource" []] /\
       State (final (Newer.Reconcile req s)) = State s /\
       api (final (Newer.Reconcile req s)) = api s))
  /\
  (forall (req : Request) (s : Sys W) (e : error),
      snd (value (Older.Reconcile req s)) = Some e \/
      snd (value (Newer.Reconcile req s)) = Some e ->
      value (Get (Key req) s) = inl e /\ IsNotFound (Some e) = false).
Proof.
  split.
  - intros req s e Hg. split.
    + unfold Older.Reconcile. rewrite bind_run.
      rewrite (older_beginTick_unfetched req s e Hg).
      cbn [value final trace fst snd ret app].
      rewrite (Get_frame (Key req) s). auto.
    + unfold Newer.Reconcile. rewrite bind_run.
      rewrite (newer_beginTick_unfetched req s e Hg).
      cbn [value final trace fst snd ret app].
      rewrite (Get_frame (Key req) s). auto.
  - intros req s e Hr.
    destruct (value (Get (Key req) s)) as [e0 | rc] eqn:Hg.
    + assert (He : (if IsNotFound (Some e0) then None else Some e0) = Some e).
      { destruct Hr as [Hr | Hr]; rewrite <- Hr.
        - unfold Older.Reconcile. rewrite value_bind.
          rewrite (older_beginTick_unfetched req s e0 Hg). reflexivity.
        - unfold Newer.Reconcile. rewrite value_bind.
          rewrite (newer_beginTick_unfetched req s e0 Hg). reflexivity. }
      destruct (IsNotFound (Some e0)) eqn:Hn; [ discriminate | ].
      injection He as <-. auto.
    + destruct Hr as [Hr | Hr].
      * rewrite (proj1 (older_Reconcile_fetched req s rc Hg)) in Hr.
        discriminate.
      * rewrite (proj1 (newer_Reconcile_fetched req s rc Hg)) in Hr.
        discriminate.
Qed.

(** C10.  In both revisions, when the read of the cluster state view
    fails in a tick whose lifecycle state is not NotExists (nor Reset, in
    the second revision), the tick ends before the switch: its only calls
    are the fetch and the read, it logs the error, returns no error and a
    delay of 20 seconds, and the stored resource is as it was. *)
Theorem state_view_failure_skips_handlers :
  (forall (req : Request) (s : Sys W) (rc : RedisCluster) (e : error) (w : W),
      value (Get (Key req) s) = inr rc ->
      Older.getClusterStateView rc (world (final (Get (Key req) s)))
      = (Some e, w) ->
      stateOf (ClusterState (Status rc)) <> NotExists ->
      value (Older.Reconcile req s)
      = ({| Requeue := false; RequeueAfter := 20 * Second |}, None) /\
      trace (Older.Reconcile req s)
      = [Println "Reconcile call"; Called CGet; Called CgetClusterStateView;
         LogError e "Could not perform reconcile loop"] /\
      api (final (Older.Reconcile req s)) = api s)
  /\
  (forall (req : Request) (s : Sys W) (rc : RedisCluster) (e : error) (w : W),
      value (Get (Key req) s) = inr rc ->
      Newer.getClusterStateView rc (world (final (Get (Key req) s)))
      = (Some e, w) ->
      stateOf (ClusterState (Status rc)) <> NotExists ->
      stateOf (ClusterState (Status rc)) <> Reset ->
      value (Newer.Reconcile req s)
      = ({| Requeue := false; RequeueAfter := 20 * Second |}, None) /\
      trace (Newer.Reconcile req s)
      = [Println "Reconcile call"; Called CGet; Called CgetClusterStateView;
         LogError e "Could not perform reconcile loop"] /\
      api (final (Newer.Reconcile req s)) = api s).
Proof.
  split.
  - intros req s rc e w Hg Hv Hn.
    unfold Older.Reconcile. rewrite bind_run.
    rewrite (older_beginTick_other req s rc (Some e) w Hg Hv Hn).
    cbn [value final trace fst snd ret app].
    rewrite (Get_frame (Key req) s). auto.
  - intros req s rc e w Hg Hv Hn Hr.
    unfold Newer.Reconcile. rewrite bind_run.
    rewrite (newer_beginTick_other req s rc (Some e) w Hg Hv Hn Hr).
    cbn [value final trace fst snd ret app].
    rewrite (Get_frame (Key req) s). auto.
Qed.
End TickClaims.

(** A failed recovery is logged by the tick, which returns no error. *)
Lemma handler_error_never_escapes_witness :
  (value (Newer.Reconcile request (running Recovering (failing CrecoverCluster)))
   = ({| Requeue := false; RequeueAfter := 15 * Second |}, None) /\
   In (LogError boom "Handling error")
      (trace (Newer.Reconcile request
                (running Recovering (failing CrecoverCluster))))) /\
  (value (Older.Reconcile request (running Updating (failing CupdateCluster)))
   = ({| Requeue := false; RequeueAfter := 15 * Second |}, None) /\
   In (LogError boom "Handling error")
      (trace (Older.Reconcile request
                (running Updating (failing CupdateCluster))))) /\
  snd (value (Older.Reconcile request
                (running NotExists (failing CdeleteAllRedisClusterPods)))) = None.
Proof.
  split; [ | split ].
  - apply (proj2 (proj2 (handler_error_never_escapes
                           (K := client) (RO := older) (RN := newer)))
             request (running Recovering (failing CrecoverCluster))
             (declared Recovering) None boom);
      reflexivity.
  - apply (proj1 (proj2 (handler_error_never_escapes
                           (K := client) (RO := older) (RN := newer)))
             request (running Updating (failing CupdateCluster))
             (declared Updating) None boom);
      reflexivity.
  - apply (proj1 (handler_error_never_escapes
                    (K := client) (RO := older) (RN := newer))
             request (running NotExists (failing CdeleteAllRedisClusterPods))
             (declared NotExists)).
    reflexivity.
Defined.

(** The stored cluster has been deleted: the tick stops without an error.
    The fetch fails otherwise: the tick returns the error. *)
Lemma fetch_failure_ends_tick_witness :
  (snd (value (Newer.Reconcile request (deleted healthy))) = None /\
   trace (Newer.Reconcile request (deleted healthy))
   = [Println "Reconcile call"; Called CGet;
      LogInfo "Unable to fetch RedisCluster resource" []]) /\
  snd (value (Older.Reconcile request (running Ready (failing CGet)))) = Some boom /\
  value (Get request.(Key) (running Ready (failing CGet))) = inl boom.
Proof.
  split; [ | split ].
  - pose proof (proj1 (fetch_failure_ends_tick
                         (K := client) (RO := older) (RN := newer))
                  request (deleted healthy) (notFound key) eq_refl) as Hw.
    destruct Hw as [_ (Hv & Ht & _)]. split; [ exact Hv | exact Ht ].
  - apply (proj1 (proj1 (proj1 (fetch_failure_ends_tick
                                  (K := client) (RO := older) (RN := newer))
                           request (running Ready (failing CGet)) boom eq_refl))).
  - apply (proj2 (fetch_failure_ends_tick
                    (K := client) (RO := older) (RN := newer))
             request (running Ready (failing CGet)) boom).
    left; reflexivity.
Defined.

(** A Ready cluster whose state view cannot be read: the tick stops, and
    the stored state stays Ready. *)
Lemma state_view_failure_skips_handlers_witness :
  (value (Newer.Reconcile request (running Ready (failing CgetClusterStateView)))
   = ({| Requeue := false; RequeueAfter := 20 * Second |}, None) /\
   persisted (final (Newer.Reconcile request
                       (running Ready (failing CgetClusterStateView))))
   = Some Ready) /\
  trace (Older.Reconcile request (running Reset (failing CgetClusterStateView)))
  = [Println "Reconcile call"; Called CGet; Called CgetClusterStateView;
     LogError boom "Could not perform reconcile loop"].
Proof.
  split.
  - pose proof (proj2 (state_view_failure_skips_handlers
                         (K := client) (RO := older) (RN := newer))
                  request (running Ready (failing CgetClusterStateView))
                  (declared Ready) boom (failing CgetClusterStateView)
                  eq_refl eq_refl) as Hw.
    destruct Hw as (Hv & _ & Ha); [ discriminate | discriminate | ].
    split; [ exact Hv | ]. unfold persisted. rewrite Ha. reflexivity.
  - apply (proj1 (state_view_failure_skips_handlers
                    (K := client) (RO := older) (RN := newer))
             request (running Reset (failing CgetClusterStateView))
             (declared Reset) boom (failing CgetClusterStateView)
             eq_refl eq_refl).
    discriminate.
Defined.

(** ** The empty lifecycle state *)

Section EmptyState.
Context {W View ScaleType : Type} {K : Client W}.
Context {RO : Older.Routines W View ScaleType}.
Context {RN : Newer.Routines W View ScaleType}.

Lemma stateOf_empty_or_NotExists (st : string) :
  st = "" \/ st = NotExists -> stateOf st = NotExists.
Proof. intros [-> | ->]; reflexivity. Qed.

(** C9.  In both revisions, a tick that fetches a cluster whose recorded
    lifecycle state is empty does what a tick in state NotExists does:
    [r.State] is NotExists, the state view is created from the
    declaration, the switch runs the initialization handler, and the tick
    is the fetch followed by the full initialization and the end of the
    tick.  [validateStateUpdated] reads the empty state as NotExists
    too. *)
Theorem empty_state_runs_initialization :
  (forall (req : Request) (s : Sys W) (rc : RedisCluster)
          (err : option error) (w : W),
      value (Get (Key req) s) = inr rc ->
      Older.getClusterStateView rc (world (final (Get (Key req) s)))
      = (err, w) ->
      ClusterState (Status rc) = "" \/ ClusterState (Status rc) = NotExists ->
      State (final (Older.beginTick req s)) = NotExists /\
      trace (Older.beginTick req s)
      = [Println "Reconcile call"; Called CGet; Called CgetClusterStateView;
         Called (CCreateStateView (LeaderCount (Spec rc))
                                  (LeaderFollowersCount (Spec rc)))] /\
      Older.dispatch rc err (final (Older.beginTick req s))
      = Older.handleInitializingCluster rc (final (Older.beginTick req s)) /\
      Older.Reconcile req s
      = (value (Older.initializingTick rc (final (Older.beginTick req s))),
         final (Older.initializingTick rc (final (Older.beginTick req s))),
         (trace (Older.beginTick req s)
            ++ trace (Older.initializingTick rc
                        (final (Older.beginTick req s))))%list))
  /\
  (forall (req : Request) (s : Sys W) (rc : RedisCluster)
          (err : option error) (w : W),
      value (Get (Key req) s) = inr rc ->
      Newer.getClusterStateView rc (world (final (Get (Key req) s)))
      = (err, w) ->
      ClusterState (Status rc) = "" \/ ClusterState (Status rc) = NotExists ->
      State (final (Newer.beginTick req s)) = NotExists /\
      trace (Newer.beginTick req s)
      = [Println "Reconcile call"; Called CGet; Called CgetClusterStateView;
         Called (CCreateStateView (LeaderCount (Spec rc))
                                  (LeaderFollowersCount (Spec rc)))] /\
      Newer.dispatch rc err (final (Newer.beginTick req s))
      = Newer.handleInitializingCluster rc (final (Newer.beginTick req s)) /\
      Newer.Reconcile req s
      = (value (Newer.initializingTick rc (final (Newer.beginTick req s))),
         final (Newer.initializingTick rc (final (Newer.beginTick req s))),
         (trace (Newer.beginTick req s)
            ++ trace (Newer.initializingTick rc
                        (final (Newer.beginTick req s))))%list))
  /\
  (forall (rc : RedisCluster) (s : Sys W),
      ClusterState (Status rc) = "" ->
      State s = NotExists ->
      validateStateUpdated rc s
      = (({| Requeue := false; RequeueAfter := 0 |}, None), s, [])).
Proof.
  split; [ | split ].
  - intros req s rc err w Hg Hv Hst.
    apply stateOf_empty_or_NotExists in Hst.
    pose proof (older_beginTick_NotExists req s rc err w Hg Hv Hst) as Hb.
    assert (Hs1 : State (final (Older.beginTick req s)) = NotExists)
      by (rewrite Hb; reflexivity).
    split; [ exact Hs1 | ]. split; [ rewrite Hb; reflexivity | ].
    split; [ apply older_dispatch_NotExists; exact Hs1 | ].
    unfold Older.Reconcile. rewrite bind_run.
    assert (Hval : value (Older.beginTick req s) = inr (rc, err))
      by (rewrite Hb; reflexivity).
    rewrite Hval. unfold Older.initializingTick.
    rewrite !bind_run.
    rewrite (older_dispatch_NotExists rc err _ Hs1). reflexivity.
  - intros req s rc err w Hg Hv Hst.
    apply stateOf_empty_or_NotExists in Hst.
    pose proof (newer_beginTick_init req s rc err w Hg Hv (or_introl Hst)) as Hb.
    rewrite Hst in Hb.
    assert (Hs1 : State (final (Newer.beginTick req s)) = NotExists)
      by (rewrite Hb; reflexivity).
    split; [ exact Hs1 | ]. split; [ rewrite Hb; reflexivity | ].
    split; [ apply newer_dispatch_init; left; exact Hs1 | ].
    unfold Newer.Reconcile. rewrite bind_run.
    assert (Hval : value (Newer.beginTick req s) = inr (rc, err))
      by (rewrite Hb; reflexivity).
    rewrite Hval. unfold Newer.initializingTick.
    rewrite !bind_run.
    rewrite (newer_dispatch_init rc err _ (or_introl Hs1)). reflexivity.
  - intros rc s Hst Hs. unfold validateStateUpdated. run.
    rewrite Hst, Hs. reflexivity.
Qed.
End EmptyState.

(** The first tick on a cluster without a recorded state initializes it. *)
Lemma empty_state_runs_initialization_witness :
  State (final (Newer.beginTick request (start "" healthy))) = NotExists /\
  Older.dispatch (declared "") None (final (Older.beginTick request (start "" healthy)))
  = Older.handleInitializingCluster (declared "")
      (final (Older.beginTick request (start "" healthy))) /\
  persisted (final (Newer.Reconcile request (start "" healthy))) = Some Ready /\
  validateStateUpdated (declared "") (running NotExists healthy)
  = (({| Requeue := false; RequeueAfter := 0 |}, None), running NotExists healthy, []).
Proof.
  split; [ | split; [ | split ] ].
  - apply (proj1 (proj2 (empty_state_runs_initialization
                           (K := client) (RO := older) (RN := newer)))
             request (start "" healthy) (declared "") None healthy
             eq_refl eq_refl (or_introl eq_refl)).
  - apply (proj1 (empty_state_runs_initialization
                    (K := client) (RO := older) (RN := newer))
             request (start "" healthy) (declared "") None healthy
             eq_refl eq_refl (or_introl eq_refl)).
  - pose proof (proj1 (proj2 (empty_state_runs_initialization
                                (K := client) (RO := older) (RN := newer)))
                  request (start "" healthy) (declared "") None healthy
                  eq_refl eq_refl (or_introl eq_refl)) as (_ & _ & _ & Hr).
    rewrite Hr. reflexivity.
  - apply (proj2 (proj2 (empty_state_runs_initialization
                           (K := client) (RO := older) (RN := newer)))
             (declared "") (running NotExists healthy));
      reflexivity.
Defined.

(** ** The creation of the cluster state view *)

Section OlderStateView.
Context {W View ScaleType : Type} {K : Client W}.
Context {RO : Older.Routines W View ScaleType}.

Lemma older_silent_ready (rc : RedisCluster) :
  silent isCreateStateView (Older.handleReadyState rc).
Proof. unfold Older.handleReadyState. silence. Qed.

Lemma older_silent_scale (rc : RedisCluster) :
  silent isCreateStateView (Older.handleScaleState rc).
Proof. unfold Older.handleScaleState. silence. Qed.

Lemma older_silent_recovering (rc : RedisCluster) :
  silent isCreateStateView (Older.handleRecoveringState rc).
Proof. unfold Older.handleRecoveringState. silence. Qed.

Lemma older_silent_updating (rc : RedisCluster) :
  silent isCreateStateView (Older.handleUpdatingState rc).
Proof. unfold Older.handleUpdatingState. silence. Qed.

Lemma older_silent_endTick (rc : RedisCluster) (err : option error) :
  silent isCreateStateView (Older.endTick rc err).
Proof.
  unfold Older.endTick, Older.updateClusterView, updateClusterState, StatusUpdate.
  silence.
Qed.

Lemma older_dispatch_quiet (rc : RedisCluster) (err : option error) (s : Sys W) :
  State s <> NotExists -> State s <> Reset ->
  existsb isCreateStateView (trace (Older.dispatch rc err s)) = false.
Proof.
  intros Hn Hr. apply String.eqb_neq in Hn, Hr.
  unfold Older.dispatch. rewrite !trace_bind. cbn [get value final trace fst snd app].
  rewrite Hn, Hr.
  destruct (State s =? Ready)%string;
    [ destruct (ClusterReset s); cbn [negb];
      first [ apply older_silent_ready | reflexivity ] | ].
  destruct (State s =? Recovering)%string;
    [ destruct (ClusterReset s); cbn [negb];
      first [ apply older_silent_recovering | reflexivity ] | ].
  destruct (State s =? Updating)%string;
    [ destruct (ClusterReset s); cbn [negb];
      first [ apply older_silent_updating | reflexivity ] | ].
  destruct (State s =? Scale)%string;
    [ destruct (ClusterReset s); cbn [negb];
      first [ apply older_silent_scale | reflexivity ] | ].
  reflexivity.
Qed.
End OlderStateView.

Section NewerStateView.
Context {W View ScaleType : Type} {K : Client W}.
Context {RN : Newer.Routines W View ScaleType}.

Lemma newer_silent_ready (rc : RedisCluster) :
  silent isCreateStateView (Newer.handleReadyState rc).
Proof. unfold Newer.handleReadyState. silence. Qed.

Lemma newer_silent_scale (rc : RedisCluster) :
  silent isCreateStateView (Newer.handleScaleState rc).
Proof. unfold Newer.handleScaleState. silence. Qed.

Lemma newer_silent_recovering (rc : RedisCluster) :
  silent isCreateStateView (Newer.handleRecoveringState rc).
Proof. unfold Newer.handleRecoveringState. silence. Qed.

Lemma newer_silent_updating (rc : RedisCluster) :
  silent isCreateStateView (Newer.handleUpdatingState rc).
Proof. unfold Newer.handleUpdatingState. silence. Qed.

Lemma newer_silent_endTick (rc : RedisCluster) (err : option error) :
  silent isCreateStateView (Newer.endTick rc err).
Proof.
  unfold Newer.endTick, Newer.updateClusterView, updateClusterState, StatusUpdate.
  silence.
Qed.

Lemma newer_dispatch_quiet (rc : RedisCluster) (err : option error) (s : Sys W) :
  State s <> NotExists -> State s <> Reset ->
  existsb isCreateStateView (trace (Newer.dispatch rc err s)) = false.
Proof.
  intros Hn Hr. apply String.eqb_neq in Hn, Hr.
  unfold Newer.dispatch. rewrite !trace_bind. cbn [get value final trace fst snd app].
  rewrite Hn, Hr.
  destruct (State s =? Ready)%string; [ apply newer_silent_ready | ].
  destruct (State s =? Recovering)%string; [ apply newer_silent_recovering | ].
  destruct (State s =? Updating)%string; [ apply newer_silent_updating | ].
  destruct (State s =? Scale)%string; [ apply newer_silent_scale | ].
  reflexivity.
Qed.
End NewerStateView.

Section StateViewClaim.
Context {W View ScaleType : Type} {K : Client W}.
Context {RO : Older.Routines W View ScaleType}.
Context {RN : Newer.Routines W View ScaleType}.
Context {AD : Admin W View}.

(** The administrative operations other than the diagnostic dump create no
    state view. *)
Lemma older_silent_DoResetCluster :
  silent isCreateStateView (Older.DoResetCluster (W := W)).
Proof. unfold Older.DoResetCluster, updateClusterState, StatusUpdate. silence. Qed.

Lemma newer_silent_DoResetCluster :
  silent isCreateStateView (Newer.DoResetCluster (W := W)).
Proof. unfold Newer.DoResetCluster, updateClusterState, StatusUpdate. silence. Qed.

Lemma silent_validateStateUpdated (rc : RedisCluster) :
  silent isCreateStateView (validateStateUpdated (W := W) rc).
Proof. unfold validateStateUpdated, StatusUpdate. cbv zeta. silence. Qed.

Lemma older_silent_DeleteAllPods :
  silent isCreateStateView Older.DeleteAllPods.
Proof. unfold Older.DeleteAllPods. silence. Qed.

Lemma older_silent_AddNewLeaders (cl : RedisCluster) :
  silent isCreateStateView (Older.AddNewLeaders cl).
Proof.
  unfold Older.AddNewLeaders. silence.
Qed.

Lemma older_silent_DeleteNewLeaders (cl : RedisCluster) :
  silent isCreateStateView (Older.DeleteNewLeaders cl).
Proof.
  unfold Older.DeleteNewLeaders. silence.
Qed.

Lemma older_silent_ClusterRebalance (cl : RedisCluster) :
  silent isCreateStateView (Older.ClusterRebalance cl).
Proof.
  unfold Older.ClusterRebalance. silence.
Qed.

Lemma older_silent_ClusterFix (cl : RedisCluster) :
  silent isCreateStateView (Older.ClusterFix cl).
Proof.
  unfold Older.ClusterFix. silence.
Qed.

Lemma newer_silent_ClusterRebalance (cl : RedisCluster) :
  silent isCreateStateView (Newer.ClusterRebalance cl).
Proof.
  unfold Newer.ClusterRebalance, Newer.setViewState. silence.
Qed.

Lemma newer_silent_ClusterFix (cl : RedisCluster) :
  silent isCreateStateView (Newer.ClusterFix cl).
Proof.
  unfold Newer.ClusterFix, Newer.setViewState. silence.
Qed.

Lemma older_creation_only_on_init (req : Request) (s : Sys W) :
  existsb isCreateStateView (trace (Older.Reconcile req s)) = true ->
  exists rc, value (Get (Key req) s) = inr rc /\
             (stateOf (ClusterState (Status rc)) = NotExists \/
              stateOf (ClusterState (Status rc)) = Reset).
Proof.
  intros Hex. destruct (value (Get (Key req) s)) as [e | rc] eqn:Hg.
  - exfalso. unfold Older.Reconcile in Hex. rewrite trace_bind in Hex.
    rewrite (older_beginTick_unfetched req s e Hg) in Hex.
    cbn in Hex. discriminate.
  - exists rc. split; [ reflexivity | ].
    destruct (String.eqb_spec (stateOf (ClusterState (Status rc))) NotExists)
      as [Hn | Hn]; [ auto | ].
    destruct (String.eqb_spec (stateOf (ClusterState (Status rc))) Reset)
      as [Hr | Hr]; [ auto | ].
    exfalso.
    destruct (Older.getClusterStateView rc (world (final (Get (Key req) s))))
      as [err w] eqn:Hv.
    unfold Older.Reconcile in Hex. rewrite trace_bind in Hex.
    rewrite (older_beginTick_other req s rc err w Hg Hv Hn) in Hex.
    cbn [value final trace fst snd] in Hex.
    destruct err as [e|]; [ cbn in Hex; discriminate | ].
    rewrite trace_bind, !existsb_app in Hex.
    rewrite older_dispatch_quiet in Hex by (cbn; assumption).
    destruct (value (Older.dispatch _ _ _)) as [e' rc'].
    rewrite older_silent_endTick in Hex. cbn in Hex. discriminate.
Qed.

Lemma newer_creation_only_on_init (req : Request) (s : Sys W) :
  existsb isCreateStateView (trace (Newer.Reconcile req s)) = true ->
  exists rc, value (Get (Key req) s) = inr rc /\
             (stateOf (ClusterState (Status rc)) = NotExists \/
              stateOf (ClusterState (Status rc)) = Reset).
Proof.
  intros Hex. destruct (value (Get (Key req) s)) as [e | rc] eqn:Hg.
  - exfalso. unfold Newer.Reconcile in Hex. rewrite trace_bind in Hex.
    rewrite (newer_beginTick_unfetched req s e Hg) in Hex.
    cbn in Hex. discriminate.
  - exists rc. split; [ reflexivity | ].
    destruct (String.eqb_spec (stateOf (ClusterState (Status rc))) NotExists)
      as [Hn | Hn]; [ auto | ].
    destruct (String.eqb_spec (stateOf (ClusterState (Status rc))) Reset)
      as [Hr | Hr]; [ auto | ].
    exfalso.
    destruct (Newer.getClusterStateView rc (world (final (Get (Key req) s))))
      as [err w] eqn:Hv.
    unfold Newer.Reconcile in Hex. rewrite trace_bind in Hex.
    rewrite (newer_beginTick_other req s rc err w Hg Hv Hn Hr) in Hex.
    cbn [value final trace fst snd] in Hex.
    destruct err as [e|]; [ cbn in Hex; discriminate | ].
    rewrite trace_bind, !existsb_app in Hex.
    rewrite newer_dispatch_quiet in Hex by (cbn; assumption).
    destruct (value (Newer.dispatch _ _ _)) as [e' rc'].
    rewrite newer_silent_endTick in Hex. cbn in Hex. discriminate.
Qed.

(** C8, as the code has it.  In both revisions, a tick creates the
    cluster state view from the declaration only when the lifecycle state
    it has fetched is NotExists (or empty) or Reset, and a tick that
    fetches a cluster in state Ready does not create it; the same holds of
    a tick that [DoReconcile] runs.  The diagnostic operation
    [PrintClusterStateView] of the first revision creates it whatever the
    lifecycle state.  No other operation of the controller creates it, in
    any state: not [DoResetCluster], [DeleteAllPods], [AddNewLeaders],
    [DeleteNewLeaders], [ClusterRebalance], [ClusterFix] or
    [validateStateUpdated]. *)
Theorem state_view_created_only_on_init :
  (forall (req : Request) (s : Sys W),
      existsb isCreateStateView (trace (Older.Reconcile req s)) = true \/
      existsb isCreateStateView (trace (Newer.Reconcile req s)) = true ->
      exists rc, value (Get (Key req) s) = inr rc /\
                 (stateOf (ClusterState (Status rc)) = NotExists \/
                  stateOf (ClusterState (Status rc)) = Reset))
  /\
  (forall (req : Request) (s : Sys W) (rc : RedisCluster),
      value (Get (Key req) s) = inr rc ->
      ClusterState (Status rc) = Ready ->
      existsb isCreateStateView (trace (Older.Reconcile req s)) = false /\
      existsb isCreateStateView (trace (Newer.Reconcile req s)) = false)
  /\
  (forall (s : Sys W) (cl : RedisCluster),
      cluster s = Some cl ->
      In (Called (CCreateStateView (LeaderCount (Spec cl))
                                   (LeaderFollowersCount (Spec cl))))
         (trace (Older.PrintClusterStateView s)))
  /\
  (forall (assigned : bool) (s : Sys W),
      existsb isCreateStateView (trace (Newer.DoReconcile assigned s)) = true ->
      exists rc,
        value (Get {| Namespace := "default"; Name := "dev-rdc" |} s) = inr rc /\
        (stateOf (ClusterState (Status rc)) = NotExists \/
         stateOf (ClusterState (Status rc)) = Reset))
  /\
  (silent isCreateStateView (Older.DoResetCluster (W := W)) /\
   silent isCreateStateView (Newer.DoResetCluster (W := W)) /\
   silent isCreateStateView Older.DeleteAllPods)
  /\
  (forall cl : RedisCluster,
      silent isCreateStateView (validateStateUpdated (W := W) cl) /\
      silent isCreateStateView (Older.AddNewLeaders cl) /\
      silent isCreateStateView (Older.DeleteNewLeaders cl) /\
      silent isCreateStateView (Older.ClusterRebalance cl) /\
      silent isCreateStateView (Older.ClusterFix cl) /\
      silent isCreateStateView (Newer.ClusterRebalance cl) /\
      silent isCreateStateView (Newer.ClusterFix cl)).
Proof.
  assert (Hinit : forall (req : Request) (s : Sys W),
      existsb isCreateStateView (trace (Older.Reconcile req s)) = true \/
      existsb isCreateStateView (trace (Newer.Reconcile req s)) = true ->
      exists rc, value (Get (Key req) s) = inr rc /\
                 (stateOf (ClusterState (Status rc)) = NotExists \/
                  stateOf (ClusterState (Status rc)) = Reset)).
  { intros req s [Hex | Hex].
    - apply older_creation_only_on_init; assumption.
    - apply newer_creation_only_on_init; assumption. }
  split; [ exact Hinit | split; [ | split; [ | split; [ | split ] ] ] ].
  - intros req s rc Hg Hready.
    assert (Hno : forall b, b = true ->
               (b = true -> exists rc', value (Get (Key req) s) = inr rc' /\
                  (stateOf (ClusterState (Status rc')) = NotExists \/
                   stateOf (ClusterState (Status rc')) = Reset)) -> False).
    { intros b Hb Himp. destruct (Himp Hb) as (rc' & Hg' & Hst).
      rewrite Hg in Hg'. injection Hg' as <-.
      rewrite Hready in Hst. destruct Hst as [Hst | Hst]; discriminate Hst. }
    split.
    + destruct (existsb isCreateStateView (trace (Older.Reconcile req s))) eqn:E;
        [ | reflexivity ].
      exfalso. apply (Hno true eq_refl). intros _.
      apply (Hinit req s). left; exact E.
    + destruct (existsb isCreateStateView (trace (Newer.Reconcile req s))) eqn:E;
        [ | reflexivity ].
      exfalso. apply (Hno true eq_refl). intros _.
      apply (Hinit req s). right; exact E.
  - intros s cl Hc. unfold Older.PrintClusterStateView.
    rewrite trace_bind. cbn [get value final trace fst snd app].
    rewrite Hc. rewrite trace_bind. cbn [exec value final trace fst snd app].
    left; reflexivity.
  - intros [|] s Hex; [ | cbn in Hex; discriminate Hex ].
    unfold Newer.DoReconcile in Hex.
    rewrite trace_bind, existsb_app in Hex.
    set (req := {| Key := {| Namespace := "default"; Name := "dev-rdc" |} |}) in *.
    destruct (value (Newer.Reconcile req s)) as [res err].
    assert (Hlog : existsb isCreateStateView
                     (trace ((whenErr err
                                (fun e => LogErr e "Could not perform reconcile trigger") ;;
                              ret (Some "Reconcile request triggered"))%ctrl
                               (final (Newer.Reconcile req s)))) = false).
    { destruct err; reflexivity. }
    rewrite Hlog, orb_false_r in Hex.
    exact (newer_creation_only_on_init req s Hex).
  - split; [ | split ].
    + apply older_silent_DoResetCluster.
    + apply newer_silent_DoResetCluster.
    + apply older_silent_DeleteAllPods.
  - intros cl. split; [ | split; [ | split; [ | split; [ | split; [ | split ] ] ] ] ].
    + apply silent_validateStateUpdated.
    + apply older_silent_AddNewLeaders.
    + apply older_silent_DeleteNewLeaders.
    + apply older_silent_ClusterRebalance.
    + apply older_silent_ClusterFix.
    + apply newer_silent_ClusterRebalance.
    + apply newer_silent_ClusterFix.
Qed.
End StateViewClaim.

(** C8 fails on the first revision: with the cluster in state Ready, in
    the operator and in the API server, the diagnostic operation creates the
    cluster state view anew and stores it. *)
Lemma state_view_dump_counterexample :
  State (running Ready healthy) = Ready /\
  persisted (running Ready healthy) = Some Ready /\
  existsb isCreateStateView
    (trace (Older.PrintClusterStateView (running Ready healthy))) = true /\
  calls (trace (Older.PrintClusterStateView (running Ready healthy)))
  = [CCreateStateView 3 1; CsetStateViewClusterOK;
     CsetStateViewNodeOK "redis-node-0-1"; CupdateClusterStateView;
     CgetClusterStateView].
Proof. repeat split. Qed.

(** A Ready tick creates no state view; the dump does; a tick that
    creates it has fetched an initial state; a rebalance of the Ready
    cluster creates none. *)
Lemma state_view_created_only_on_init_witness :
  existsb isCreateStateView
    (trace (Newer.Reconcile request (running Ready healthy))) = false /\
  In (Called (CCreateStateView 3 1))
     (trace (Older.PrintClusterStateView (running Ready healthy))) /\
  (exists rc, value (Get (Key request) (running Reset healthy)) = inr rc /\
              (stateOf (ClusterState (Status rc)) = NotExists \/
               stateOf (ClusterState (Status rc)) = Reset)) /\
  existsb isCreateStateView
    (trace (Newer.ClusterRebalance (declared Ready) (running Ready healthy)))
  = false.
Proof.
  split; [ | split; [ | split ] ].
  - apply (proj1 (proj2 (state_view_created_only_on_init
                           (K := client) (RO := older) (RN := newer)
                           (AD := admin)))
             request (running Ready healthy) (declared Ready));
      reflexivity.
  - apply (proj1 (proj2 (proj2 (state_view_created_only_on_init
                                  (K := client) (RO := older) (RN := newer)
                                  (AD := admin))))
             (running Ready healthy) (declared Ready)).
    reflexivity.
  - apply (proj1 (state_view_created_only_on_init
                    (K := client) (RO := older) (RN := newer) (AD := admin))
             request (running Reset healthy)).
    right; reflexivity.
  - destruct (state_view_created_only_on_init
                (K := client) (RO := older) (RN := newer) (AD := admin))
      as (_ & _ & _ & _ & _ & Hops).
    destruct (Hops (declared Ready)) as (_ & _ & _ & _ & _ & Hrebalance & _).
    exact (Hrebalance (running Ready healthy)).
Defined.

(** ** Runs of the scripted world *)

(** The first tick on a cluster without a recorded state leaves it Ready. *)
Example first_tick_initializes :
  persisted (final (Newer.Reconcile request (start "" healthy))) = Some Ready /\
  persisted (final (Older.Reconcile request (start "" healthy))) = Some Ready.
Proof. split; reflexivity. Qed.

(** A stale cluster goes to Updating, and from there to Recovering. *)
Example stale_cluster_is_updated :
  let w := answering true false false in
  let s1 := final (Newer.Reconcile request (running Ready w)) in
  persisted s1 = Some Updating /\
  persisted (final (Newer.Reconcile request s1)) = Some Recovering.
Proof. split; reflexivity. Qed.

(** A tick of the first revision brings a recovered cluster back to Ready. *)
Example older_recovery_returns_to_ready :
  persisted (final (Older.Reconcile request (running Recovering healthy)))
  = Some Ready.
Proof. reflexivity. Qed.

(** A cluster that needs scaling goes to Scale and back to Ready, also when
    the scaling fails. *)
Example scale_round_trip :
  persisted (final (Newer.Reconcile request
                      (running Ready (answering true true true)))) = Some Scale /\
  persisted (final (Newer.Reconcile request
                      (running Scale (failing CscaleCluster)))) = Some Ready.
Proof. split; reflexivity. Qed.

(** First revision: while a reset is pending the switch runs no handler. *)
Example older_pending_reset_skips_handler :
  calls (trace (Older.dispatch (declared Ready) None
                  (set_ClusterReset true (running Ready healthy)))) = [].
Proof. reflexivity. Qed.

(** A reset requested by the operator makes the next tick initialize. *)
Example reset_then_initialize :
  let s1 := final (Newer.DoResetCluster (running Ready healthy)) in
  persisted s1 = Some Reset /\
  persisted (final (Newer.Reconcile request s1)) = Some Ready /\
  existsb isCreateStateView (trace (Newer.Reconcile request s1)) = true.
Proof. repeat split. Qed.

(** * Further properties of the controller *)

(** ** Frames *)

Section Frames.
Context {W : Type}.

Lemma preserves_ret {A B : Type} (f : Sys W -> B) (a : A) :
  preserves f (ret a).
Proof. intro s; reflexivity. Qed.

Lemma preserves_bind {A B C : Type} (f : Sys W -> C)
      (m : M W A) (k : A -> M W B) :
  preserves f m -> (forall a, preserves f (k a)) -> preserves f (bind m k).
Proof.
  intros Hm Hk s. rewrite final_bind, Hk, Hm. reflexivity.
Qed.

Lemma preserves_emit {B : Type} (f : Sys W -> B) (e : Event) :
  preserves f (emit e).
Proof. intro s; reflexivity. Qed.

Lemma preserves_get {A B : Type} (f : Sys W -> B) (g : Sys W -> A) :
  preserves f (get g).
Proof. intro s; reflexivity. Qed.

Lemma preserves_modify {B : Type} (f : Sys W -> B) (g : Sys W -> Sys W) :
  (forall s, f (g s) = f s) -> preserves f (modify g).
Proof. intros Hg s; apply Hg. Qed.

Lemma preserves_call {A B : Type} (f : Sys W -> B) (c : Call) (g : W -> A * W) :
  (forall w s, f (set_world w s) = f s) -> preserves f (call c g).
Proof.
  intros Hf s. unfold call, final. destruct (g (world s)) as [a w]; cbn. apply Hf.
Qed.

Lemma preserves_exec {B : Type} (f : Sys W -> B) (c : Call) (g : W -> W) :
  (forall w s, f (set_world w s) = f s) -> preserves f (exec c g).
Proof. intros Hf s; apply Hf. Qed.

Lemma preserves_keepsReset {A : Type} (m : M W A) :
  preserves ClusterReset m -> keepsReset m.
Proof. intros Hm s Hs. rewrite Hm. exact Hs. Qed.

Lemma keepsReset_bind {A B : Type} (m : M W A) (k : A -> M W B) :
  keepsReset m -> (forall a, keepsReset (k a)) -> keepsReset (bind m k).
Proof.
  intros Hm Hk s Hs. rewrite final_bind. apply Hk, Hm, Hs.
Qed.
End Frames.

(** Proves [preserves f m] for a computation made of the combinators, when
    [f] is a projection other than the one the computation writes. *)
Ltac frame :=
  repeat first
    [ apply preserves_ret
    | apply preserves_get
    | apply preserves_emit
    | apply preserves_modify; intro; reflexivity
    | apply preserves_call; intros; reflexivity
    | apply preserves_exec; intros; reflexivity
    | apply preserves_bind; [ | intro ]
    | match goal with
      | |- preserves _ (match ?x with _ => _ end) => destruct x
      | |- preserves _ (whenErr ?e _) => destruct e; cbn [whenErr]
      | |- preserves _ (Info _) => apply preserves_emit
      | |- preserves _ (LogErr _ _) => apply preserves_emit
      end
    | assumption ].

Section ClientFrames.
Context {W : Type} {K : Client W}.

Lemma StatusUpdate_keeps_State (rc : RedisCluster) :
  preserves State (StatusUpdate rc).
Proof. unfold StatusUpdate. frame. Qed.

Lemma StatusUpdate_keeps_ClusterReset (rc : RedisCluster) :
  preserves ClusterReset (StatusUpdate rc).
Proof. unfold StatusUpdate. frame. Qed.

Lemma StatusUpdate_keeps_cluster (rc : RedisCluster) :
  preserves cluster (StatusUpdate rc).
Proof. unfold StatusUpdate. frame. Qed.

Lemma updateClusterState_keeps_State (rc : RedisCluster) :
  preserves State (updateClusterState rc).
Proof. unfold updateClusterState, StatusUpdate. frame. Qed.

Lemma updateClusterState_keeps_ClusterReset (rc : RedisCluster) :
  preserves ClusterReset (updateClusterState rc).
Proof. unfold updateClusterState, StatusUpdate. frame. Qed.

Lemma updateClusterState_keeps_cluster (rc : RedisCluster) :
  preserves cluster (updateClusterState rc).
Proof. unfold updateClusterState, StatusUpdate. frame. Qed.

(** What a status update stores. *)
Lemma StatusUpdate_stored (rc stored : RedisCluster) (s : Sys W) (w : W) :
  api s = Some stored ->
  sameKey (ObjectMeta stored) (ObjectMeta rc) = true ->
  updateFault rc (world s) = (None, w) ->
  StatusUpdate rc s
  = (None, set_api (Some (withStatusOf stored rc)) (set_world w s),
     [Called (CStatusUpdate (ClusterState (Status rc)))]).
Proof.
  intros Ha Hk Hu. unfold StatusUpdate. run. rewrite Hu. run.
  rewrite Ha, Hk. reflexivity.
Qed.

Lemma StatusUpdate_failed (rc : RedisCluster) (s : Sys W) (e : error) (w : W) :
  updateFault rc (world s) = (Some e, w) ->
  StatusUpdate rc s
  = (Some e, set_world w s, [Called (CStatusUpdate (ClusterState (Status rc)))]).
Proof. intros Hu. unfold StatusUpdate. run. rewrite Hu. reflexivity. Qed.
End ClientFrames.

(** ** The Ready handler: errors and deferred calls *)

Section ReadyHandlerMore.
Context {W View ScaleType : Type} {K : Client W}.
Context {RO : Older.Routines W View ScaleType}.
Context {RN : Newer.Routines W View ScaleType}.

(** X1.  Errors of the Ready handler, in both revisions.  When the
    completeness check returns an error the handler returns it and leaves
    the cluster object as it is, lifecycle state included; when the
    up-to-date check of a complete cluster returns an error the handler
    returns it with the lifecycle state Recovering; no later evaluation
    runs in either case.  In the second revision an error in building the
    view of the cluster is returned before any evaluation. *)
Theorem ready_handler_errors :
  (forall (rc : RedisCluster) (s : Sys W) (c : bool) (e : error) (w1 : W),
      Older.isClusterComplete rc (world s) = ((c, Some e), w1) ->
      value (Older.handleReadyState rc s) = (Some e, rc) /\
      calls (trace (Older.handleReadyState rc s)) = [CisClusterComplete])
  /\
  (forall (rc : RedisCluster) (s : Sys W) (u : bool) (e : error) (w1 w2 : W),
      Older.isClusterComplete rc (world s) = ((true, None), w1) ->
      Older.isClusterUpToDate rc w1 = ((u, Some e), w2) ->
      value (Older.handleReadyState rc s)
      = (Some e, setClusterState rc Recovering) /\
      calls (trace (Older.handleReadyState rc s))
      = [CisClusterComplete; CisClusterUpToDate])
  /\
  (forall (rc : RedisCluster) (s : Sys W) (e : error) (w0 : W),
      Newer.NewRedisClusterView rc (world s) = (inl e, w0) ->
      value (Newer.handleReadyState rc s) = (Some e, rc) /\
      calls (trace (Newer.handleReadyState rc s)) = [CNewRedisClusterView])
  /\
  (forall (rc : RedisCluster) (s : Sys W) (v : View) (c : bool) (e : error)
          (w0 w1 : W),
      Newer.NewRedisClusterView rc (world s) = (inr v, w0) ->
      Newer.isClusterComplete rc v w0 = ((c, Some e), w1) ->
      value (Newer.handleReadyState rc s) = (Some e, rc) /\
      calls (trace (Newer.handleReadyState rc s))
      = [CNewRedisClusterView; CisClusterComplete])
  /\
  (forall (rc : RedisCluster) (s : Sys W) (v : View) (u : bool) (e : error)
          (w0 w1 w2 : W),
      Newer.NewRedisClusterView rc (world s) = (inr v, w0) ->
      Newer.isClusterComplete rc v w0 = ((true, None), w1) ->
      Newer.isClusterUpToDate rc v w1 = ((u, Some e), w2) ->
      value (Newer.handleReadyState rc s)
      = (Some e, setClusterState rc Recovering) /\
      calls (trace (Newer.handleReadyState rc s))
      = [CNewRedisClusterView; CisClusterComplete; CisClusterUpToDate]).
Proof.
  repeat apply conj.
  - intros rc s c e w1 Hc. unfold Older.handleReadyState. run.
    rewrite Hc. run. auto.
  - intros rc s u e w1 w2 Hc Hu. unfold Older.handleReadyState. run.
    rewrite Hc. run. rewrite Hu. run. auto.
  - intros rc s e w0 Hv. unfold Newer.handleReadyState. run.
    rewrite Hv. run. auto.
  - intros rc s v c e w0 w1 Hv Hc. unfold Newer.handleReadyState. run.
    rewrite Hv. run. rewrite Hc. run. auto.
  - intros rc s v u e w0 w1 w2 Hv Hc Hu. unfold Newer.handleReadyState. run.
    rewrite Hv. run. rewrite Hc. run. rewrite Hu. run. auto.
Qed.

(** X2.  The calls of the Ready handler when the evaluators answer without
    error, in both revisions: the evaluations, and then, only for a
    complete and up-to-date cluster, the deferred calls: in the first
    revision the lost nodes are forgotten; in the second the cluster state
    view is stored and then the lost nodes are forgotten. *)
Theorem ready_handler_deferred_calls :
  (forall (rc : RedisCluster) (s : Sys W) (c u sc : bool) (t : ScaleType)
          (w1 w2 w3 : W),
      Older.isClusterComplete rc (world s) = ((c, None), w1) ->
      (c = true -> Older.isClusterUpToDate rc w1 = ((u, None), w2)) ->
      (c = true -> u = true -> Older.isScaleRequired rc w2 = ((sc, t), w3)) ->
      calls (trace (Older.handleReadyState rc s))
      = (readyEvaluations c u
           ++ if c && u then [CforgetLostNodes] else [])%list)
  /\
  (forall (rc : RedisCluster) (s : Sys W) (v : View) (c u sc : bool)
          (t : ScaleType) (w0 w1 w2 w3 : W),
      Newer.NewRedisClusterView rc (world s) = (inr v, w0) ->
      Newer.isClusterComplete rc v w0 = ((c, None), w1) ->
      (c = true -> Newer.isClusterUpToDate rc v w1 = ((u, None), w2)) ->
      (c = true -> u = true -> Newer.isScaleRequired rc w2 = ((sc, t), w3)) ->
      calls (trace (Newer.handleReadyState rc s))
      = (CNewRedisClusterView :: readyEvaluations c u
           ++ if c && u then [CupdateClusterStateView; CforgetLostNodes]
              else [])%list).
Proof.
  split.
  - intros rc s c u sc t w1 w2 w3 Hc Hu Hs.
    unfold Older.handleReadyState. run. rewrite Hc. run.
    destruct c; run; [ | reflexivity ].
    rewrite (Hu eq_refl). run. destruct u; run; [ | reflexivity ].
    rewrite (Hs eq_refl eq_refl). run. destruct sc; reflexivity.
  - intros rc s v c u sc t w0 w1 w2 w3 Hv Hc Hu Hs.
    unfold Newer.handleReadyState. run. rewrite Hv. run. rewrite Hc. run.
    destruct c; run; [ | reflexivity ].
    rewrite (Hu eq_refl). run. destruct u; run; [ | reflexivity ].
    rewrite (Hs eq_refl eq_refl). run.
    destruct sc; run;
      destruct (Newer.updateClusterStateView _ w3) as [e' w4]; reflexivity.
Qed.
End ReadyHandlerMore.

(** The completeness check fails: the cluster stays Ready and the error is
    returned; the up-to-date check fails: the cluster goes to Recovering. *)
Lemma ready_handler_errors_witness :
  value (Older.handleReadyState (declared Ready)
           (running Ready (Scripts.script Scripts.completenessCheck true true false)))
  = (Some boom, declared Ready) /\
  value (Newer.handleReadyState (declared Ready)
           (running Ready (Scripts.script Scripts.upToDateCheck true true false)))
  = (Some boom, declared Recovering).
Proof.
  split.
  - apply (proj1 (ready_handler_errors (RO := older) (RN := newer))
             (declared Ready)
             (running Ready (Scripts.script Scripts.completenessCheck true true false))
             true boom
             (Scripts.script Scripts.completenessCheck true true false) eq_refl).
  - apply (proj2 (proj2 (proj2 (proj2
             (ready_handler_errors (RO := older) (RN := newer)))))
             (declared Ready)
             (running Ready (Scripts.script Scripts.upToDateCheck true true false))
             tt true boom
             (Scripts.script Scripts.upToDateCheck true true false)
             (Scripts.script Scripts.upToDateCheck true true false)
             (Scripts.script Scripts.upToDateCheck true true false)
             eq_refl eq_refl eq_refl).
Defined.

Lemma ready_handler_deferred_calls_witness :
  calls (trace (Older.handleReadyState (declared Ready) (running Ready healthy)))
  = [CisClusterComplete; CisClusterUpToDate; CisScaleRequired; CforgetLostNodes] /\
  calls (trace (Newer.handleReadyState (declared Ready)
                  (running Ready (answering false true false))))
  = [CNewRedisClusterView; CisClusterComplete].
Proof.
  split.
  - apply (proj1 (ready_handler_deferred_calls (RO := older) (RN := newer))
             (declared Ready) (running Ready healthy) true true false tt
             healthy healthy healthy eq_refl (fun _ => eq_refl)
             (fun _ _ => eq_refl)).
  - apply (proj2 (ready_handler_deferred_calls (RO := older) (RN := newer))
             (declared Ready) (running Ready (answering false true false))
             tt false true false tt
             (answering false true false) (answering false true false)
             (answering false true false) (answering false true false)
             eq_refl eq_refl).
    + intros; discriminate.
    + intros; discriminate.
Defined.

(** ** What the handlers leave alone *)

(** Proves [keepsReset m]: every step either leaves the flag or raises it. *)
Ltac raise :=
  repeat first
    [ apply keepsReset_bind; [ | intro ]
    | match goal with
      | |- keepsReset (match ?x with _ => _ end) => destruct x
      | |- keepsReset (modify (set_ClusterReset true)) => intros ? ?; reflexivity
      end
    | apply preserves_keepsReset; solve [ frame ] ].

Section OlderFrames.
Context {W View ScaleType : Type} {K : Client W}.
Context {RO : Older.Routines W View ScaleType}.

Lemma older_handlers_keep_State (rc : RedisCluster) :
  preserves State (Older.handleInitializingCluster rc) /\
  preserves State (Older.handleReadyState rc) /\
  preserves State (Older.handleScaleState rc) /\
  preserves State (Older.handleRecoveringState rc) /\
  preserves State (Older.handleUpdatingState rc).
Proof.
  repeat apply conj;
    unfold Older.handleInitializingCluster, Older.handleReadyState,
      Older.handleScaleState, Older.handleRecoveringState,
      Older.handleUpdatingState, updateClusterState, StatusUpdate;
    cbv zeta; frame.
Qed.

Lemma older_dispatch_keeps_State (rc : RedisCluster) (err : option error) :
  preserves State (Older.dispatch rc err).
Proof.
  destruct (older_handlers_keep_State rc) as (Hi & Hr & Hs & Hc & Hu).
  unfold Older.dispatch. frame.
Qed.

Lemma older_updateClusterView_keeps {B : Type} (f : Sys W -> B)
      (rc : RedisCluster) :
  (forall w s, f (set_world w s) = f s) ->
  preserves f (Older.updateClusterView rc).
Proof.
  intros Hf. unfold Older.updateClusterView.
  repeat first
    [ apply preserves_ret | apply preserves_emit
    | apply preserves_call; exact Hf | apply preserves_exec; exact Hf
    | apply preserves_bind; [ | intro ]
    | match goal with
      | |- preserves _ (match ?x with _ => _ end) => destruct x
      | |- preserves _ (whenErr ?e _) => destruct e; cbn [whenErr]
      | |- preserves _ (LogErr _ _) => apply preserves_emit
      end ].
Qed.

Lemma older_endTick_keeps_State (rc : RedisCluster) (err : option error) :
  preserves State (Older.endTick rc err).
Proof.
  pose proof (older_updateClusterView_keeps State rc (fun _ _ => eq_refl)).
  unfold Older.endTick, updateClusterState, StatusUpdate. frame.
Qed.

Lemma older_endTick_keeps_ClusterReset (rc : RedisCluster) (err : option error) :
  preserves ClusterReset (Older.endTick rc err).
Proof.
  pose proof (older_updateClusterView_keeps ClusterReset rc (fun _ _ => eq_refl)).
  unfold Older.endTick, updateClusterState, StatusUpdate. frame.
Qed.

Lemma older_init_keepsReset (rc : RedisCluster) :
  keepsReset (Older.handleInitializingCluster rc).
Proof.
  unfold Older.handleInitializingCluster, updateClusterState, StatusUpdate.
  cbv zeta. raise.
Qed.

Lemma older_dispatch_keepsReset (rc : RedisCluster) (err : option error)
      (s : Sys W) :
  State s <> Reset ->
  ClusterReset s = true ->
  ClusterReset (final (Older.dispatch rc err s)) = true.
Proof.
  intros Hr Hs. apply String.eqb_neq in Hr.
  unfold Older.dispatch. rewrite !final_bind.
  cbn [get value final fst snd]. rewrite Hr, Hs. cbn [negb].
  destruct (State s =? NotExists)%string.
  - apply older_init_keepsReset; exact Hs.
  - destruct (State s =? Ready)%string; [ exact Hs | ].
    destruct (State s =? Recovering)%string; [ exact Hs | ].
    destruct (State s =? Updating)%string; [ exact Hs | ].
    destruct (State s =? Scale)%string; exact Hs.
Qed.
End OlderFrames.

Section NewerFrames.
Context {W View ScaleType : Type} {K : Client W}.
Context {RN : Newer.Routines W View ScaleType}.

Lemma newer_handlers_keep_State (rc : RedisCluster) :
  preserves State (Newer.handleInitializingCluster rc) /\
  preserves State (Newer.handleReadyState rc) /\
  preserves State (Newer.handleScaleState rc) /\
  preserves State (Newer.handleRecoveringState rc) /\
  preserves State (Newer.handleUpdatingState rc).
Proof.
  repeat apply conj;
    unfold Newer.handleInitializingCluster, Newer.handleReadyState,
      Newer.handleScaleState, Newer.handleRecoveringState,
      Newer.handleUpdatingState, updateClusterState, StatusUpdate;
    cbv zeta; frame.
Qed.

Lemma newer_dispatch_keeps_State (rc : RedisCluster) (err : option error) :
  preserves State (Newer.dispatch rc err).
Proof.
  destruct (newer_handlers_keep_State rc) as (Hi & Hr & Hs & Hc & Hu).
  unfold Newer.dispatch. frame.
Qed.

Lemma newer_endTick_keeps_State (rc : RedisCluster) (err : option error) :
  preserves State (Newer.endTick rc err).
Proof.
  unfold Newer.endTick, Newer.updateClusterView, updateClusterState, StatusUpdate.
  frame.
Qed.
End NewerFrames.

(** ** The switch outside its six states, and the pending reset *)

Section SwitchMore.
Context {W View ScaleType : Type} {K : Client W}.
Context {RO : Older.Routines W View ScaleType}.
Context {RN : Newer.Routines W View ScaleType}.

Lemma knownState_false (st : RedisClusterState) :
  knownState st = false ->
  (st =? NotExists)%string = false /\ (st =? Reset)%string = false /\
  (st =? Ready)%string = false /\ (st =? Recovering)%string = false /\
  (st =? Updating)%string = false /\ (st =? Scale)%string = false.
Proof.
  unfold knownState. intros H.
  repeat (apply orb_false_elim in H; destruct H as [H ?]). auto 10.
Qed.

Lemma older_dispatch_unknown (rc : RedisCluster) (err : option error) (s : Sys W) :
  knownState (State s) = false ->
  Older.dispatch rc err s = ((err, rc), s, []).
Proof.
  intros Hk. apply knownState_false in Hk.
  destruct Hk as (H1 & H2 & H3 & H4 & H5 & H6).
  unfold Older.dispatch. run. rewrite H1, H2, H3, H4, H5, H6. reflexivity.
Qed.

Lemma newer_dispatch_unknown (rc : RedisCluster) (err : option error) (s : Sys W) :
  knownState (State s) = false ->
  Newer.dispatch rc err s = ((err, rc), s, []).
Proof.
  intros Hk. apply knownState_false in Hk.
  destruct Hk as (H1 & H2 & H3 & H4 & H5 & H6).
  unfold Newer.dispatch. run. rewrite H1, H2, H3, H4, H5, H6. reflexivity.
Qed.

(** X3.  A lifecycle state that is none of the six known ones runs no
    handler, in both revisions: the switch returns the cluster object as it
    is without any call, and a tick that has fetched such a state and read
    the state view is the start of the tick followed by its end, so that it
    still returns no error and the 15 seconds. *)
Theorem unknown_state_runs_no_handler :
  (forall (rc : RedisCluster) (err : option error) (s : Sys W),
      knownState (State s) = false ->
      Older.dispatch rc err s = ((err, rc), s, []) /\
      Newer.dispatch rc err s = ((err, rc), s, []))
  /\
  (forall (req : Request) (s : Sys W) (rc : RedisCluster) (w : W),
      value (Get (Key req) s) = inr rc ->
      knownState (stateOf (ClusterState (Status rc))) = false ->
      Older.getClusterStateView rc (world (final (Get (Key req) s))) = (None, w) ->
      Older.Reconcile req s
      = (({| Requeue := false; RequeueAfter := 15 * Second |}, None),
         final (Older.endTick rc None (final (Older.beginTick req s))),
         ([Println "Reconcile call"; Called CGet; Called CgetClusterStateView]
            ++ trace (Older.endTick rc None (final (Older.beginTick req s))))%list))
  /\
  (forall (req : Request) (s : Sys W) (rc : RedisCluster) (w : W),
      value (Get (Key req) s) = inr rc ->
      knownState (stateOf (ClusterState (Status rc))) = false ->
      Newer.getClusterStateView rc (world (final (Get (Key req) s))) = (None, w) ->
      Newer.Reconcile req s
      = (({| Requeue := true; RequeueAfter := 15 * Second |}, None),
         final (Newer.endTick rc None (final (Newer.beginTick req s))),
         ([Println "Reconcile call"; Called CGet; Called CgetClusterStateView]
            ++ trace (Newer.endTick rc None (final (Newer.beginTick req s))))%list)).
Proof.
  split; [ | split ].
  - intros rc err s Hk. split.
    + apply older_dispatch_unknown; exact Hk.
    + apply newer_dispatch_unknown; exact Hk.
  - intros req s rc w Hg Hk Hv.
    pose proof (knownState_false _ Hk) as (H1 & _).
    apply String.eqb_neq in H1.
    pose proof (older_beginTick_other req s rc None w Hg Hv H1) as Hb.
    unfold Older.Reconcile. rewrite bind_run.
    assert (Hs1 : knownState (State (final (Older.beginTick req s))) = false)
      by (rewrite Hb; exact Hk).
    assert (Hval : value (Older.beginTick req s) = inr (rc, None))
      by (rewrite Hb; reflexivity).
    assert (Htr : trace (Older.beginTick req s)
                  = [Println "Reconcile call"; Called CGet;
                     Called CgetClusterStateView])
      by (rewrite Hb; reflexivity).
    rewrite Hval, Htr. rewrite bind_run.
    rewrite (older_dispatch_unknown rc None _ Hs1).
    cbn [value final trace fst snd app].
    rewrite older_endTick_value. reflexivity.
  - intros req s rc w Hg Hk Hv.
    pose proof (knownState_false _ Hk) as (H1 & H2 & _).
    apply String.eqb_neq in H1, H2.
    pose proof (newer_beginTick_other req s rc None w Hg Hv H1 H2) as Hb.
    unfold Newer.Reconcile. rewrite bind_run.
    assert (Hs1 : knownState (State (final (Newer.beginTick req s))) = false)
      by (rewrite Hb; exact Hk).
    assert (Hval : value (Newer.beginTick req s) = inr (rc, None))
      by (rewrite Hb; reflexivity).
    assert (Htr : trace (Newer.beginTick req s)
                  = [Println "Reconcile call"; Called CGet;
                     Called CgetClusterStateView])
      by (rewrite Hb; reflexivity).
    rewrite Hval, Htr. rewrite bind_run.
    rewrite (newer_dispatch_unknown rc None _ Hs1).
    cbn [value final trace fst snd app].
    rewrite newer_endTick_value. reflexivity.
Qed.

Lemma gatedState_cases (st : RedisClusterState) :
  gatedState st = true ->
  st = Ready \/ st = Recovering \/ st = Updating \/ st = Scale.
Proof.
  unfold gatedState. intros H.
  repeat (apply orb_true_iff in H; destruct H as [H | H]);
    apply String.eqb_eq in H; auto.
Qed.

Lemma older_dispatch_gated (rc : RedisCluster) (err : option error) (s : Sys W) :
  ClusterReset s = true ->
  gatedState (State s) = true ->
  Older.dispatch rc err s = ((err, rc), s, []).
Proof.
  intros Hr Hg. apply gatedState_cases in Hg.
  unfold Older.dispatch. run. rewrite Hr.
  destruct Hg as [-> | [-> | [-> | ->]]]; reflexivity.
Qed.

(** X4.  First revision: while a reset is pending ([ClusterReset] is true),
    the switch runs no handler in the states Ready, Recovering, Updating
    and Scale: it makes no call and returns the cluster object and the
    error variable as they are.  With no reset pending, the same states run
    their handlers. *)
Theorem pending_reset_gates_handlers :
  forall (rc : RedisCluster) (err : option error) (s : Sys W),
    gatedState (State s) = true ->
    (ClusterReset s = true ->
     Older.dispatch rc err s = ((err, rc), s, [])) /\
    (ClusterReset s = false ->
     (State s = Ready -> Older.dispatch rc err s = Older.handleReadyState rc s) /\
     (State s = Recovering ->
      Older.dispatch rc err s = Older.handleRecoveringState rc s) /\
     (State s = Updating ->
      Older.dispatch rc err s = Older.handleUpdatingState rc s) /\
     (State s = Scale -> Older.dispatch rc err s = Older.handleScaleState rc s)).
Proof.
  intros rc err s Hg. split.
  - intros Hr. apply older_dispatch_gated; assumption.
  - intros Hr. unfold Older.dispatch. run. rewrite Hr.
    repeat apply conj; intros ->; states.
    + destruct (Older.handleReadyState rc s) as [[a s1] t1]; reflexivity.
    + destruct (Older.handleRecoveringState rc s) as [[a s1] t1]; reflexivity.
    + destruct (Older.handleUpdatingState rc s) as [[a s1] t1]; reflexivity.
    + destruct (Older.handleScaleState rc s) as [[a s1] t1]; reflexivity.
Qed.

(** X5.  First revision: a tick clears a pending reset only in state Reset.
    If [ClusterReset] is true before a tick and false after it, the tick
    has fetched a cluster whose lifecycle state is Reset. *)
Theorem pending_reset_cleared_only_by_reset_tick :
  forall (req : Request) (s : Sys W),
    ClusterReset s = true ->
    ClusterReset (final (Older.Reconcile req s)) = false ->
    exists rc, value (Get (Key req) s) = inr rc /\
               stateOf (ClusterState (Status rc)) = Reset.
Proof.
  intros req s Hs Hf.
  destruct (value (Get (Key req) s)) as [e | rc] eqn:Hg.
  - exfalso. unfold Older.Reconcile in Hf. rewrite final_bind in Hf.
    rewrite (older_beginTick_unfetched req s e Hg) in Hf.
    cbn [value final fst snd ret] in Hf.
    rewrite (Get_frame (Key req) s) in Hf. cbn in Hf. congruence.
  - exists rc. split; [ reflexivity | ].
    destruct (String.eqb_spec (stateOf (ClusterState (Status rc))) Reset)
      as [Hr | Hr]; [ exact Hr | exfalso ].
    destruct (Older.getClusterStateView rc (world (final (Get (Key req) s))))
      as [err w] eqn:Hv.
    assert (Hb : ClusterReset (final (Older.beginTick req s)) = true /\
                 State (final (Older.beginTick req s))
                 = stateOf (ClusterState (Status rc)) /\
                 (value (Older.beginTick req s) = inr (rc, err) \/
                  exists r, value (Older.beginTick req s) = inl r)).
    { destruct (String.eqb_spec (stateOf (ClusterState (Status rc))) NotExists)
        as [Hn | Hn].
      - rewrite (older_beginTick_NotExists req s rc err w Hg Hv Hn).
        cbn [value final fst snd]. rewrite (Get_frame (Key req) s). cbn.
        rewrite Hn. auto.
      - rewrite (older_beginTick_other req s rc err w Hg Hv Hn).
        cbn [value final fst snd]. rewrite (Get_frame (Key req) s). cbn.
        destruct err; eauto. }
    destruct Hb as (Hb1 & Hb2 & Hb3).
    unfold Older.Reconcile in Hf. rewrite final_bind in Hf.
    destruct Hb3 as [Hval | [r Hval]]; rewrite Hval in Hf.
    + rewrite final_bind in Hf.
      destruct (value (Older.dispatch rc err (final (Older.beginTick req s))))
        as [err' rc'].
      rewrite older_endTick_keeps_ClusterReset in Hf.
      rewrite older_dispatch_keepsReset in Hf; [ discriminate | | exact Hb1 ].
      rewrite Hb2. exact Hr.
    + change (ClusterReset (final (Older.beginTick req s)) = false) in Hf.
      congruence.
Qed.

(** X6.  First revision: a tick in state Reset that reaches the switch
    leaves no reset pending, whatever the initialization returned, also
    when the handler itself has raised the flag on a failure. *)
Theorem reset_tick_clears_pending_reset :
  forall (req : Request) (s : Sys W) (rc : RedisCluster) (w : W),
    value (Get (Key req) s) = inr rc ->
    stateOf (ClusterState (Status rc)) = Reset ->
    Older.getClusterStateView rc (world (final (Get (Key req) s))) = (None, w) ->
    ClusterReset (final (Older.Reconcile req s)) = false.
Proof.
  intros req s rc w Hg Hr Hv.
  assert (Hn : stateOf (ClusterState (Status rc)) <> NotExists)
    by (rewrite Hr; discriminate).
  pose proof (older_beginTick_other req s rc None w Hg Hv Hn) as Hb.
  unfold Older.Reconcile. rewrite final_bind.
  assert (Hval : value (Older.beginTick req s) = inr (rc, None))
    by (rewrite Hb; reflexivity).
  assert (Hst : State (final (Older.beginTick req s)) = Reset)
    by (rewrite Hb; exact Hr).
  rewrite Hval. rewrite final_bind.
  destruct (older_dispatch_Reset rc None _ Hst) as (_ & _ & Hfin).
  destruct (value (Older.dispatch rc None (final (Older.beginTick req s))))
    as [err' rc'].
  rewrite older_endTick_keeps_ClusterReset, Hfin. reflexivity.
Qed.

Lemma older_tick_State_from_fetch (req : Request) (s : Sys W) (rc : RedisCluster) :
  value (Get (Key req) s) = inr rc ->
  State (final (Older.Reconcile req s)) = stateOf (ClusterState (Status rc)).
Proof.
  intros Hg.
  destruct (Older.getClusterStateView rc (world (final (Get (Key req) s))))
    as [err w] eqn:Hv.
  unfold Older.Reconcile. rewrite final_bind.
  destruct (String.eqb_spec (stateOf (ClusterState (Status rc))) NotExists)
    as [Hn | Hn].
  - rewrite (older_beginTick_NotExists req s rc err w Hg Hv Hn).
    cbn [value final fst snd]. rewrite final_bind.
    destruct (value (Older.dispatch _ _ _)) as [err' rc'].
    rewrite older_endTick_keeps_State, older_dispatch_keeps_State.
    cbn. symmetry; exact Hn.
  - rewrite (older_beginTick_other req s rc err w Hg Hv Hn).
    cbn [value final fst snd]. destruct err as [e|]; [ reflexivity | ].
    rewrite final_bind.
    destruct (value (Older.dispatch _ _ _)) as [err' rc'].
    rewrite older_endTick_keeps_State, older_dispatch_keeps_State.
    reflexivity.
Qed.

Lemma newer_tick_State_from_fetch (req : Request) (s : Sys W) (rc : RedisCluster) :
  value (Get (Key req) s) = inr rc ->
  State (final (Newer.Reconcile req s)) = stateOf (ClusterState (Status rc)).
Proof.
  intros Hg.
  destruct (Newer.getClusterStateView rc (world (final (Get (Key req) s))))
    as [err w] eqn:Hv.
  unfold Newer.Reconcile. rewrite final_bind.
  destruct (String.eqb_spec (stateOf (ClusterState (Status rc))) NotExists)
    as [Hn | Hn];
  [ | destruct (String.eqb_spec (stateOf (ClusterState (Status rc))) Reset)
        as [Hr | Hr] ].
  - rewrite (newer_beginTick_init req s rc err w Hg Hv (or_introl Hn)).
    cbn [value final fst snd]. rewrite final_bind.
    destruct (value (Newer.dispatch _ _ _)) as [err' rc'].
    rewrite newer_endTick_keeps_State, newer_dispatch_keeps_State.
    reflexivity.
  - rewrite (newer_beginTick_init req s rc err w Hg Hv (or_intror Hr)).
    cbn [value final fst snd]. rewrite final_bind.
    destruct (value (Newer.dispatch _ _ _)) as [err' rc'].
    rewrite newer_endTick_keeps_State, newer_dispatch_keeps_State.
    reflexivity.
  - rewrite (newer_beginTick_other req s rc err w Hg Hv Hn Hr).
    cbn [value final fst snd]. destruct err as [e|]; [ reflexivity | ].
    rewrite final_bind.
    destruct (value (Newer.dispatch _ _ _)) as [err' rc'].
    rewrite newer_endTick_keeps_State, newer_dispatch_keeps_State.
    reflexivity.
Qed.

(** X7.  In both revisions the handlers and the end of the tick never
    write [r.State]: after a tick that has fetched the cluster, [r.State] is
    the lifecycle state read at the fetch (NotExists for the empty one),
    also when the handler has moved the cluster to another state. *)
Theorem tick_sets_State_from_fetch :
  forall (req : Request) (s : Sys W) (rc : RedisCluster),
    value (Get (Key req) s) = inr rc ->
    State (final (Older.Reconcile req s)) = stateOf (ClusterState (Status rc)) /\
    State (final (Newer.Reconcile req s)) = stateOf (ClusterState (Status rc)).
Proof.
  intros req s rc Hg. split.
  - apply older_tick_State_from_fetch; exact Hg.
  - apply newer_tick_State_from_fetch; exact Hg.
Qed.
End SwitchMore.

(** A cluster in the unknown state "Paused": no handler, the tick goes on. *)
Lemma unknown_state_runs_no_handler_witness :
  Older.dispatch (declared "Paused") None (running "Paused" healthy)
  = ((None, declared "Paused"), running "Paused" healthy, []) /\
  value (Newer.Reconcile request (running "Paused" healthy))
  = ({| Requeue := true; RequeueAfter := 15 * Second |}, None).
Proof.
  split.
  - apply (proj1 (unknown_state_runs_no_handler
                    (K := client) (RO := older) (RN := newer))
             (declared "Paused") None (running "Paused" healthy)).
    reflexivity.
  - rewrite (proj2 (proj2 (unknown_state_runs_no_handler
                             (K := client) (RO := older) (RN := newer)))
               request (running "Paused" healthy) (declared "Paused") healthy
               eq_refl eq_refl eq_refl).
    reflexivity.
Defined.

(** With a reset pending a Ready cluster is not evaluated. *)
Lemma pending_reset_gates_handlers_witness :
  Older.dispatch (declared Ready) None
    (set_ClusterReset true (running Ready healthy))
  = ((None, declared Ready), set_ClusterReset true (running Ready healthy), []) /\
  Older.dispatch (declared Scale) None (running Scale healthy)
  = Older.handleScaleState (declared Scale) (running Scale healthy).
Proof.
  split.
  - apply (proj1 (pending_reset_gates_handlers (K := client) (RO := older)
                    (declared Ready) None
                    (set_ClusterReset true (running Ready healthy)) eq_refl)).
    reflexivity.
  - apply (proj2 (pending_reset_gates_handlers (K := client) (RO := older)
                    (declared Scale) None (running Scale healthy) eq_refl));
      reflexivity.
Defined.

(** The pending reset of a cluster in state Reset is cleared by its tick. *)
Lemma pending_reset_cleared_only_by_reset_tick_witness :
  exists rc,
    value (Get (Key request) (set_ClusterReset true (running Reset healthy)))
    = inr rc /\
    stateOf (ClusterState (Status rc)) = Reset.
Proof.
  apply (pending_reset_cleared_only_by_reset_tick (K := client) (RO := older)
           request (set_ClusterReset true (running Reset healthy)));
    reflexivity.
Defined.

(** The initialization fails in state Reset: the flag is cleared all the
    same. *)
Lemma reset_tick_clears_pending_reset_witness :
  ClusterReset (final (Older.Reconcile request
                         (set_ClusterReset true
                            (running Reset (failing CcreateNewRedisCluster)))))
  = false.
Proof.
  apply (reset_tick_clears_pending_reset (K := client) (RO := older)
           request
           (set_ClusterReset true (running Reset (failing CcreateNewRedisCluster)))
           (declared Reset) (failing CcreateNewRedisCluster));
    reflexivity.
Defined.

(** A stale cluster: the object goes to Updating, [r.State] stays Ready. *)
Lemma tick_sets_State_from_fetch_witness :
  State (final (Newer.Reconcile request
                  (running Ready (answering true false false)))) = Ready /\
  cluster (final (Newer.Reconcile request
                    (running Ready (answering true false false))))
  = Some (declared Updating).
Proof.
  split.
  - apply (proj2 (tick_sets_State_from_fetch
                    (K := client) (RO := older) (RN := newer)
                    request (running Ready (answering true false false))
                    (declared Ready) eq_refl)).
  - reflexivity.
Defined.

(** ** [validateStateUpdated] *)

Section ValidateState.
Context {W : Type} {K : Client W}.

Lemma StatusUpdate_error_keeps_api (rc : RedisCluster) (s : Sys W) (e : error) :
  value (StatusUpdate rc s) = Some e ->
  api (final (StatusUpdate rc s)) = api s.
Proof.
  unfold StatusUpdate. run.
  destruct (updateFault rc (world s)) as [[e0|] w]; cbn; [ reflexivity | ].
  destruct (api s) as [stored|] eqn:Ha; cbn; [ | auto ].
  destruct (sameKey (ObjectMeta stored) (ObjectMeta rc)); cbn; [ discriminate | auto ].
Qed.

Lemma validateStateUpdated_ok_State (rc : RedisCluster) (s : Sys W) :
  snd (value (validateStateUpdated rc s)) = None ->
  State (final (validateStateUpdated rc s)) = stateOf (ClusterState (Status rc)).
Proof.
  unfold validateStateUpdated. run.
  destruct (String.eqb_spec (stateOf (ClusterState (Status rc))) (State s))
    as [Heq | Hne]; cbn [negb].
  - intros _; symmetry; exact Heq.
  - destruct (StatusUpdate rc s) as [[[e0|] s1] t1]; run;
      [ destruct (IsConflict (Some e0)); run | ];
      first [ reflexivity | discriminate ].
Qed.

(** X8.  What [validateStateUpdated] returns, in both revisions.  When it
    returns no error, [r.State] is the lifecycle state of the object
    (NotExists for the empty one).  It returns an error only when the two
    differed and the status update failed with an error other than a
    conflict; [r.State] and the stored resource are then as before. *)
Theorem validateStateUpdated_outcome :
  forall (rc : RedisCluster) (s : Sys W),
    (snd (value (validateStateUpdated rc s)) = None ->
     State (final (validateStateUpdated rc s))
     = stateOf (ClusterState (Status rc))) /\
    (forall e, snd (value (validateStateUpdated rc s)) = Some e ->
       value (StatusUpdate rc s) = Some e /\
       IsConflict (Some e) = false /\
       stateOf (ClusterState (Status rc)) <> State s /\
       State (final (validateStateUpdated rc s)) = State s /\
       api (final (validateStateUpdated rc s)) = api s).
Proof.
  intros rc s. unfold validateStateUpdated. run.
  destruct (String.eqb_spec (stateOf (ClusterState (Status rc))) (State s))
    as [Heq | Hne]; cbn [negb].
  - split; [ intros _; symmetry; exact Heq | intros e He; discriminate He ].
  - pose proof (StatusUpdate_keeps_State rc s) as HS.
    pose proof (StatusUpdate_error_keeps_api rc s) as HA.
    destruct (StatusUpdate rc s) as [[[e0|] s1] t1];
      cbn [value final fst snd] in *.
    + destruct (IsConflict (Some e0)) eqn:Hc; run.
      * split; [ reflexivity | intros e He; discriminate He ].
      * split; [ intros He; discriminate He | ].
        intros e He. injection He as <-.
        repeat apply conj; auto. apply (HA e0); reflexivity.
    + split; [ reflexivity | intros e He; discriminate He ].
Qed.

(** X9.  A conflict is not an error for [validateStateUpdated]: when the
    status update is refused with a conflict, the function logs the
    conflict, sets [r.State] to the state of the object and returns no
    error, although the stored resource is as before. *)
Theorem validateStateUpdated_swallows_conflict :
  forall (rc : RedisCluster) (s : Sys W) (e : error) (w : W),
    stateOf (ClusterState (Status rc)) <> State s ->
    updateFault rc (world s) = (Some e, w) ->
    IsConflict (Some e) = true ->
    value (validateStateUpdated rc s)
    = ({| Requeue := false; RequeueAfter := 0 |}, None) /\
    State (final (validateStateUpdated rc s))
    = stateOf (ClusterState (Status rc)) /\
    api (final (validateStateUpdated rc s)) = api s /\
    In (LogInfo ("Conflict when updating state to "
                   ++ stateOf (ClusterState (Status rc))) [])
       (trace (validateStateUpdated rc s)).
Proof.
  intros rc s e w Hne Hu Hc. apply String.eqb_neq in Hne.
  unfold validateStateUpdated. run. rewrite Hne. cbn [negb].
  rewrite (StatusUpdate_failed rc s e w Hu). run. rewrite Hc. run.
  repeat split. right; left; reflexivity.
Qed.

(** X10.  [validateStateUpdated] is idempotent: after a call that returned
    no error, a second call on the same object makes no call, writes no
    log and changes nothing. *)
Theorem validateStateUpdated_idempotent :
  forall (rc : RedisCluster) (s : Sys W),
    snd (value (validateStateUpdated rc s)) = None ->
    validateStateUpdated rc (final (validateStateUpdated rc s))
    = (({| Requeue := false; RequeueAfter := 0 |}, None),
       final (validateStateUpdated rc s), []).
Proof.
  intros rc s Hok.
  pose proof (validateStateUpdated_ok_State rc s Hok) as Hst.
  generalize dependent (final (validateStateUpdated rc s)). intros s1 Hst.
  unfold validateStateUpdated. run. rewrite Hst, String.eqb_refl. reflexivity.
Qed.
End ValidateState.

(** The object is Ready and [r.State] Recovering: the status is stored and
    [r.State] follows; with a failing update the error comes back. *)
Lemma validateStateUpdated_outcome_witness :
  State (final (validateStateUpdated (declared Ready) (running Recovering healthy)))
  = Ready /\
  State (final (validateStateUpdated (declared Ready)
                  (running Recovering
                     (Scripts.script Scripts.statusUpdate true true false))))
  = Recovering.
Proof.
  split.
  - apply (proj1 (validateStateUpdated_outcome (K := client)
                    (declared Ready) (running Recovering healthy))).
    reflexivity.
  - apply (proj2 (validateStateUpdated_outcome (K := client)
                    (declared Ready)
                    (running Recovering
                       (Scripts.script Scripts.statusUpdate true true false)))
             boom).
    reflexivity.
Defined.

Lemma validateStateUpdated_swallows_conflict_witness :
  State (final (validateStateUpdated (declared Ready)
                  (running Recovering Scripts.conflicting))) = Ready /\
  persisted (final (validateStateUpdated (declared Ready)
                      (running Recovering Scripts.conflicting)))
  = Some Recovering.
Proof.
  pose proof (validateStateUpdated_swallows_conflict (K := client)
                (declared Ready) (running Recovering Scripts.conflicting)
                Scripts.conflict Scripts.conflicting) as Hw.
  destruct Hw as (_ & Hs & Ha & _);
    [ discriminate | reflexivity | reflexivity | ].
  split; [ exact Hs | ]. unfold persisted. rewrite Ha. reflexivity.
Defined.

Lemma validateStateUpdated_idempotent_witness :
  trace (validateStateUpdated (declared Ready)
           (final (validateStateUpdated (declared Ready)
                     (running Recovering healthy)))) = [].
Proof.
  rewrite (validateStateUpdated_idempotent (K := client)
             (declared Ready) (running Recovering healthy) eq_refl).
  reflexivity.
Defined.

(** ** The end of a tick: what is stored *)

Section Runs2.
Context {W : Type}.

Lemma final_ret {A : Type} (a : A) (s : Sys W) : final (ret a s) = s.
Proof. reflexivity. Qed.

Lemma final_modify (f : Sys W -> Sys W) (s : Sys W) : final (modify f s) = f s.
Proof. reflexivity. Qed.

Lemma final_whenErr_log (err : option error) (msg : string) (s : Sys W) :
  final (whenErr err (fun e => LogErr e msg) s) = s.
Proof. destruct err; reflexivity. Qed.
End Runs2.

Section EndOfTick.
Context {W View ScaleType : Type} {K : Client W}.
Context {RO : Older.Routines W View ScaleType}.
Context {RN : Newer.Routines W View ScaleType}.

Lemma updateClusterState_api (rc : RedisCluster) (s : Sys W) :
  api (final (updateClusterState rc s)) = api (final (StatusUpdate rc s)).
Proof. unfold updateClusterState. rewrite final_bind. reflexivity. Qed.

Lemma older_updateClusterView_keeps_api (rc : RedisCluster) :
  preserves api (Older.updateClusterView rc).
Proof. apply older_updateClusterView_keeps. reflexivity. Qed.

Lemma older_endTick_api (rc : RedisCluster) (err : option error) (s : Sys W) :
  api (final (Older.endTick rc err s))
  = api (final (StatusUpdate rc (set_cluster (Some rc) s))).
Proof.
  unfold Older.endTick. rewrite !final_bind, final_ret.
  rewrite older_updateClusterView_keeps_api, updateClusterState_api.
  rewrite final_whenErr_log, final_modify. reflexivity.
Qed.

(** X11.  First revision: the end of a tick stores the lifecycle state that
    the handler left in the object.  When the stored resource is the
    object's and the status update is accepted, the stored resource
    afterwards has the status of the object and its own specification;
    when the update is refused the stored resource is as before, and the
    tick returns its usual result all the same. *)
Theorem older_endTick_stores_state :
  forall (rc : RedisCluster) (err : option error) (s : Sys W),
    (forall stored w,
        api s = Some stored ->
        sameKey (ObjectMeta stored) (ObjectMeta rc) = true ->
        updateFault rc (world s) = (None, w) ->
        api (final (Older.endTick rc err s)) = Some (withStatusOf stored rc)) /\
    (forall e w,
        updateFault rc (world s) = (Some e, w) ->
        api (final (Older.endTick rc err s)) = api s /\
        value (Older.endTick rc err s)
        = ({| Requeue := false; RequeueAfter := 15 * Second |}, None)).
Proof.
  intros rc err s. split.
  - intros stored w Ha Hk Hu. rewrite older_endTick_api.
    rewrite (StatusUpdate_stored rc stored (set_cluster (Some rc) s) w Ha Hk Hu).
    reflexivity.
  - intros e w Hu. split; [ | apply older_endTick_value ].
    rewrite older_endTick_api.
    rewrite (StatusUpdate_failed rc (set_cluster (Some rc) s) e w Hu).
    reflexivity.
Qed.

Lemma newer_updateClusterView_unbuilt (rc : RedisCluster) (s : Sys W)
      (e : error) (w0 : W) :
  Newer.NewRedisClusterView rc (world s) = (inl e, w0) ->
  Newer.updateClusterView rc s
  = (tt, set_world w0 s,
     [Called CNewRedisClusterView;
      LogInfo "[Warn] Could not get view for api view update, Error: %v"
              [Error e]]).
Proof.
  intros Hv. unfold Newer.updateClusterView. run. rewrite Hv. reflexivity.
Qed.

Lemma newer_updateClusterView_built (rc : RedisCluster) (s : Sys W)
      (v : View) (w0 : W) :
  Newer.NewRedisClusterView rc (world s) = (inr v, w0) ->
  let data := Newer.MarshalIndent (Newer.clearPods v) in
  let s1 := set_world (Newer.SaveRedisClusterState (ClusterState (Status rc))
                         (Newer.SaveRedisClusterView data w0)) s in
  Newer.updateClusterView rc s
  = (tt, final (updateClusterState rc s1),
     ([Called CNewRedisClusterView; Called (CSaveRedisClusterView data);
       Called (CSaveRedisClusterState (ClusterState (Status rc)))]
        ++ trace (updateClusterState rc s1))%list).
Proof.
  intros Hv data s1. subst data s1. unfold Newer.updateClusterView. run.
  rewrite Hv. run. unfold set_world. cbn [State ClusterReset cluster api world].
  match goal with
  | |- context [updateClusterState rc ?s0] =>
      destruct (updateClusterState rc s0) as [[[] s2] t2]
  end.
  reflexivity.
Qed.

Lemma newer_endTick_api (rc : RedisCluster) (err : option error) (s : Sys W) :
  api (final (Newer.endTick rc err s))
  = api (final (Newer.updateClusterView rc (set_cluster (Some rc) s))).
Proof.
  unfold Newer.endTick. rewrite !final_bind, final_ret.
  rewrite final_whenErr_log, final_modify.
  match goal with
  | |- api (final (call ?c ?f ?s0)) = _ =>
      rewrite (preserves_call api c f (fun _ _ => eq_refl) s0)
  end.
  reflexivity.
Qed.

(** X12.  Second revision: the end of a tick stores the lifecycle state only
    when the view of the cluster can be built.  When building the view
    fails, the end of the tick makes no status update and the stored
    resource is as before, so the state that the handler chose is not
    stored by this tick.  When the view is built, the stored resource is
    the object's and the update is accepted, the stored resource has the
    status of the object afterwards. *)
Theorem newer_endTick_stores_state_if_view :
  forall (rc : RedisCluster) (err : option error) (s : Sys W),
    (forall e w0,
        Newer.NewRedisClusterView rc (world s) = (inl e, w0) ->
        api (final (Newer.endTick rc err s)) = api s /\
        existsb isStatusUpdate (trace (Newer.endTick rc err s)) = false) /\
    (forall v w0 stored w,
        Newer.NewRedisClusterView rc (world s) = (inr v, w0) ->
        api s = Some stored ->
        sameKey (ObjectMeta stored) (ObjectMeta rc) = true ->
        updateFault rc
          (Newer.SaveRedisClusterState (ClusterState (Status rc))
             (Newer.SaveRedisClusterView
                (Newer.MarshalIndent (Newer.clearPods v)) w0)) = (None, w) ->
        api (final (Newer.endTick rc err s)) = Some (withStatusOf stored rc)).
Proof.
  intros rc err s. split.
  - intros e w0 Hv.
    pose proof (newer_updateClusterView_unbuilt rc (set_cluster (Some rc) s) e w0 Hv)
      as Hb.
    unfold Newer.endTick. destruct err; run; rewrite Hb; run;
      match goal with
      | |- context [Newer.updateClusterStateView rc ?w1] =>
          destruct (Newer.updateClusterStateView rc w1)
      end; split; reflexivity.
  - intros v w0 stored w Hv Ha Hk Hu.
    rewrite newer_endTick_api.
    pose proof (newer_updateClusterView_built rc (set_cluster (Some rc) s) v w0 Hv)
      as Hb.
    cbv zeta in Hb. rewrite Hb. cbn [final fst snd].
    rewrite updateClusterState_api.
    erewrite StatusUpdate_stored; [ reflexivity | exact Ha | exact Hk | exact Hu ].
Qed.

(** X13.  First revision, [updateClusterView]: when the view of the cluster
    cannot be built nothing is saved; otherwise the view and the lifecycle
    state are saved and the cluster state view is stored, created anew when
    storing it fails, and an error is logged only when both fail.  The
    stored resource is never written. *)
Theorem older_updateClusterView_fallback :
  forall (rc : RedisCluster) (s : Sys W),
    api (final (Older.updateClusterView rc s)) = api s /\
    (forall e w0,
        Older.NewRedisClusterView rc (world s) = (inl e, w0) ->
        calls (trace (Older.updateClusterView rc s)) = [CNewRedisClusterView]) /\
    (forall v w0 e1 w1 e2 w2,
        Older.NewRedisClusterView rc (world s) = (inr v, w0) ->
        Older.updateClusterStateView rc
          (Older.SaveRedisClusterState (ClusterState (Status rc))
             (Older.SaveRedisClusterView (Older.MarshalIndent v) w0)) = (e1, w1) ->
        Older.createClusterStateView rc w1 = (e2, w2) ->
        trace (Older.updateClusterView rc s)
        = ([Called CNewRedisClusterView;
            Called (CSaveRedisClusterView (Older.MarshalIndent v));
            Called (CSaveRedisClusterState (ClusterState (Status rc)));
            Called CupdateClusterStateView]
             ++ match e1, e2 with
                | None, _ => []
                | Some _, None => [Called CcreateClusterStateView]
                | Some _, Some e =>
                    [Called CcreateClusterStateView;
                     LogError e "Could not update cluster state view"]
                end)%list).
Proof.
  intros rc s. split; [ apply older_updateClusterView_keeps_api | split ].
  - intros e w0 Hv. unfold Older.updateClusterView. run. rewrite Hv. reflexivity.
  - intros v w0 e1 w1 e2 w2 Hv H1 H2.
    unfold Older.updateClusterView. run. rewrite Hv. run. rewrite H1.
    destruct e1; run; [ | reflexivity ].
    rewrite H2. destruct e2; reflexivity.
Qed.
End EndOfTick.

(** The handler has moved a Ready cluster to Recovering: the end of the
    tick stores Recovering; with a refused update Ready stays stored. *)
Lemma older_endTick_stores_state_witness :
  persisted (final (Older.endTick (declared Recovering) None
                      (running Ready healthy))) = Some Recovering /\
  persisted (final (Older.endTick (declared Recovering) None
                      (running Ready
                         (Scripts.script Scripts.statusUpdate true true false))))
  = Some Ready.
Proof.
  split.
  - unfold persisted.
    rewrite (proj1 (older_endTick_stores_state (K := client) (RO := older)
                      (declared Recovering) None (running Ready healthy))
               (declared Ready) healthy eq_refl eq_refl eq_refl).
    reflexivity.
  - unfold persisted.
    rewrite (proj1 (proj2 (older_endTick_stores_state (K := client) (RO := older)
                      (declared Recovering) None
                      (running Ready
                         (Scripts.script Scripts.statusUpdate true true false)))
               boom (Scripts.script Scripts.statusUpdate true true false) eq_refl)).
    reflexivity.
Defined.

(** Second revision: the view cannot be built at the end of the tick and
    the state Recovering that the handler chose is not stored. *)
Lemma newer_endTick_stores_state_if_view_witness :
  persisted (final (Newer.endTick (declared Recovering) None
                      (running Updating
                         (Scripts.script Scripts.viewOfCluster true true false))))
  = Some Updating /\
  persisted (final (Newer.endTick (declared Recovering) None
                      (running Updating healthy))) = Some Recovering.
Proof.
  split.
  - unfold persisted.
    rewrite (proj1 (proj1 (newer_endTick_stores_state_if_view
                             (K := client) (RN := newer)
                             (declared Recovering) None
                             (running Updating
                                (Scripts.script Scripts.viewOfCluster true true false)))
                      boom (Scripts.script Scripts.viewOfCluster true true false)
                      eq_refl)).
    reflexivity.
  - unfold persisted.
    rewrite (proj2 (newer_endTick_stores_state_if_view
                      (K := client) (RN := newer)
                      (declared Recovering) None (running Updating healthy))
               tt healthy (declared Updating) healthy
               eq_refl eq_refl eq_refl eq_refl).
    reflexivity.
Defined.

(** Storing and creating the cluster state view both fail: one error is
    logged. *)
Lemma older_updateClusterView_fallback_witness :
  trace (Older.updateClusterView (declared Ready)
           (running Ready
              (Scripts.script Scripts.stateViewStoreAndCreate true true false)))
  = [Called CNewRedisClusterView; Called (CSaveRedisClusterView "{}");
     Called (CSaveRedisClusterState Ready); Called CupdateClusterStateView;
     Called CcreateClusterStateView;
     LogError boom "Could not update cluster state view"] /\
  calls (trace (Older.updateClusterView (declared Ready)
                  (running Ready
                     (Scripts.script Scripts.viewOfCluster true true false))))
  = [CNewRedisClusterView].
Proof.
  split.
  - apply (proj2 (proj2 (older_updateClusterView_fallback
                           (RO := older) (declared Ready)
                           (running Ready
                              (Scripts.script Scripts.stateViewStoreAndCreate
                                 true true false))))
             tt (Scripts.script Scripts.stateViewStoreAndCreate true true false)
             (Some boom)
             (Scripts.script Scripts.stateViewStoreAndCreate true true false)
             (Some boom)
             (Scripts.script Scripts.stateViewStoreAndCreate true true false)
             eq_refl eq_refl eq_refl).
  - apply (proj1 (proj2 (older_updateClusterView_fallback
                           (RO := older) (declared Ready)
                           (running Ready
                              (Scripts.script Scripts.viewOfCluster true true false))))
             boom (Scripts.script Scripts.viewOfCluster true true false) eq_refl).
Defined.

(** ** The reset request *)

Section ResetRequest.
Context {W View ScaleType : Type} {K : Client W}.
Context {RO : Older.Routines W View ScaleType}.
Context {RN : Newer.Routines W View ScaleType}.

Lemma older_init_deletes_pods (rc : RedisCluster) (s : Sys W) :
  In (Called CdeleteAllRedisClusterPods)
     (trace (Older.handleInitializingCluster rc s)).
Proof.
  unfold Older.handleInitializingCluster. rewrite !trace_bind.
  apply in_or_app; right. apply in_or_app; right. apply in_or_app; left.
  unfold call, trace.
  destruct (Older.deleteAllRedisClusterPods _); cbn. auto.
Qed.

Lemma newer_init_deletes_pods (rc : RedisCluster) (s : Sys W) :
  In (Called CdeleteAllRedisClusterPods)
     (trace (Newer.handleInitializingCluster rc s)).
Proof.
  unfold Newer.handleInitializingCluster. rewrite !trace_bind.
  apply in_or_app; right. apply in_or_app; left.
  unfold call, trace.
  destruct (Newer.deleteAllRedisClusterPods _); cbn. auto.
Qed.

Lemma Get_stored (key : NamespacedName) (s : Sys W) (stored : RedisCluster) (w : W) :
  api s = Some stored ->
  sameKey (ObjectMeta stored) key = true ->
  getFault key (world s) = (None, w) ->
  Get key s = (inr stored, set_world w s, [Called CGet]).
Proof.
  intros Ha Hk Hg. unfold Get. run. rewrite Hg. run. rewrite Ha, Hk. reflexivity.
Qed.

Lemma older_DoResetCluster_run (s : Sys W) (cl : RedisCluster) :
  cluster s = Some cl ->
  Older.DoResetCluster s
  = (Some "Set cluster state to reset mode",
     final (updateClusterState (setClusterState cl Reset)
              (set_ClusterReset true
                 (set_cluster (Some (setClusterState cl Reset)) s))),
     trace (updateClusterState (setClusterState cl Reset)
              (set_ClusterReset true
                 (set_cluster (Some (setClusterState cl Reset)) s)))).
Proof.
  intros Hc. unfold Older.DoResetCluster. run. rewrite Hc. run.
  match goal with
  | |- context [updateClusterState ?r ?s0] =>
      destruct (updateClusterState r s0) as [[[] s1] t1]
  end.
  run. rewrite app_nil_r. reflexivity.
Qed.

Lemma newer_DoResetCluster_run (s : Sys W) (cl : RedisCluster) :
  cluster s = Some cl ->
  Newer.DoResetCluster s
  = (Some "Set cluster state to reset mode",
     final (updateClusterState (setClusterState cl Reset)
              (set_cluster (Some (setClusterState cl Reset)) s)),
     trace (updateClusterState (setClusterState cl Reset)
              (set_cluster (Some (setClusterState cl Reset)) s))).
Proof.
  intros Hc. unfold Newer.DoResetCluster. run. rewrite Hc. run.
  match goal with
  | |- context [updateClusterState ?r ?s0] =>
      destruct (updateClusterState r s0) as [[[] s1] t1]
  end.
  run. rewrite app_nil_r. reflexivity.
Qed.

(** X14.  [DoResetCluster], in both revisions.  With no cluster fetched yet
    it dereferences a nil pointer: nothing is written.  Otherwise it sets
    the lifecycle state of the object that [cluster] points to to Reset,
    makes one status update and answers, whether the update is accepted or
    not; [r.State] is left as it is, and the first revision also raises
    the pending-reset flag. *)
Theorem DoResetCluster_effect :
  (forall (s : Sys W),
      cluster s = None ->
      Older.DoResetCluster s = (None, s, []) /\
      Newer.DoResetCluster s = (None, s, []))
  /\
  (forall (s : Sys W) (cl : RedisCluster),
      cluster s = Some cl ->
      (value (Older.DoResetCluster s) = Some "Set cluster state to reset mode" /\
       cluster (final (Older.DoResetCluster s))
       = Some (setClusterState cl Reset) /\
       ClusterReset (final (Older.DoResetCluster s)) = true /\
       State (final (Older.DoResetCluster s)) = State s /\
       calls (trace (Older.DoResetCluster s)) = [CStatusUpdate Reset]) /\
      (value (Newer.DoResetCluster s) = Some "Set cluster state to reset mode" /\
       cluster (final (Newer.DoResetCluster s))
       = Some (setClusterState cl Reset) /\
       ClusterReset (final (Newer.DoResetCluster s)) = ClusterReset s /\
       State (final (Newer.DoResetCluster s)) = State s /\
       calls (trace (Newer.DoResetCluster s)) = [CStatusUpdate Reset])).
Proof.
  split.
  - intros s Hc. unfold Older.DoResetCluster, Newer.DoResetCluster. run.
    rewrite Hc. auto.
  - intros s cl Hc. split.
    + rewrite (older_DoResetCluster_run s cl Hc). cbn [value final trace fst snd].
      rewrite updateClusterState_keeps_cluster,
        updateClusterState_keeps_ClusterReset, updateClusterState_keeps_State,
        calls_updateClusterState.
      repeat apply conj; reflexivity.
    + rewrite (newer_DoResetCluster_run s cl Hc). cbn [value final trace fst snd].
      rewrite updateClusterState_keeps_cluster,
        updateClusterState_keeps_ClusterReset, updateClusterState_keeps_State,
        calls_updateClusterState.
      repeat apply conj; reflexivity.
Qed.

Lemma older_DoResetCluster_stored_state (s : Sys W) (cl stored : RedisCluster)
      (w1 : W) :
  cluster s = Some cl ->
  api s = Some stored ->
  sameKey (ObjectMeta stored) (ObjectMeta cl) = true ->
  updateFault (setClusterState cl Reset) (world s) = (None, w1) ->
  api (final (Older.DoResetCluster s))
  = Some (withStatusOf stored (setClusterState cl Reset)) /\
  world (final (Older.DoResetCluster s)) = w1 /\
  ClusterReset (final (Older.DoResetCluster s)) = true.
Proof.
  intros Hc Ha Hk Hu.
  rewrite (older_DoResetCluster_run s cl Hc). cbn [final fst snd].
  unfold updateClusterState. rewrite final_bind.
  erewrite StatusUpdate_stored; [ | exact Ha | exact Hk | exact Hu ].
  repeat apply conj; reflexivity.
Qed.

Lemma newer_DoResetCluster_stored_state (s : Sys W) (cl stored : RedisCluster)
      (w1 : W) :
  cluster s = Some cl ->
  api s = Some stored ->
  sameKey (ObjectMeta stored) (ObjectMeta cl) = true ->
  updateFault (setClusterState cl Reset) (world s) = (None, w1) ->
  api (final (Newer.DoResetCluster s))
  = Some (withStatusOf stored (setClusterState cl Reset)) /\
  world (final (Newer.DoResetCluster s)) = w1.
Proof.
  intros Hc Ha Hk Hu.
  rewrite (newer_DoResetCluster_run s cl Hc). cbn [final fst snd].
  unfold updateClusterState. rewrite final_bind.
  erewrite StatusUpdate_stored; [ | exact Ha | exact Hk | exact Hu ].
  repeat apply conj; reflexivity.
Qed.

(** X15.  A reset request followed by a tick, second revision: when the
    status update of [DoResetCluster] is accepted and the next tick fetches
    the cluster, that tick is in state Reset, creates the cluster state
    view from the declaration and runs the full initialization, whatever
    the read of the state view returned. *)
Theorem newer_reset_then_tick_initializes :
  forall (req : Request) (s : Sys W) (cl stored : RedisCluster) (w1 w2 : W),
    cluster s = Some cl ->
    api s = Some stored ->
    sameKey (ObjectMeta stored) (ObjectMeta cl) = true ->
    sameKey (ObjectMeta stored) (Key req) = true ->
    updateFault (setClusterState cl Reset) (world s) = (None, w1) ->
    getFault (Key req) w1 = (None, w2) ->
    State (final (Newer.Reconcile req (final (Newer.DoResetCluster s)))) = Reset /\
    existsb isCreateStateView
      (trace (Newer.Reconcile req (final (Newer.DoResetCluster s)))) = true /\
    In (Called CdeleteAllRedisClusterPods)
       (trace (Newer.Reconcile req (final (Newer.DoResetCluster s)))).
Proof.
  intros req s cl stored w1 w2 Hc Ha Hk Hkr Hu Hg.
  destruct (newer_DoResetCluster_stored_state s cl stored w1 Hc Ha Hk Hu)
    as (Ha1 & Hw1).
  set (s1 := final (Newer.DoResetCluster s)) in *.
  set (rc := withStatusOf stored (setClusterState cl Reset)) in *.
  assert (Hget : Get (Key req) s1 = (inr rc, set_world w2 s1, [Called CGet])).
  { apply Get_stored; [ exact Ha1 | exact Hkr | rewrite Hw1; exact Hg ]. }
  assert (Hfetch : value (Get (Key req) s1) = inr rc) by (rewrite Hget; reflexivity).
  assert (Hst : stateOf (ClusterState (Status rc)) = Reset) by reflexivity.
  destruct (Newer.getClusterStateView rc (world (final (Get (Key req) s1))))
    as [err w3] eqn:Hv.
  pose proof (newer_beginTick_init req s1 rc err w3 Hfetch Hv (or_intror Hst)) as Hb.
  assert (Hval : value (Newer.beginTick req s1) = inr (rc, err))
    by (rewrite Hb; reflexivity).
  assert (Hs1 : State (final (Newer.beginTick req s1)) = Reset)
    by (rewrite Hb; reflexivity).
  split; [ | split ].
  - rewrite (newer_tick_State_from_fetch req s1 rc Hfetch). exact Hst.
  - unfold Newer.Reconcile. rewrite trace_bind, existsb_app, Hb.
    reflexivity.
  - unfold Newer.Reconcile. rewrite trace_bind, Hval, trace_bind.
    apply in_or_app; right. apply in_or_app; left.
    rewrite (newer_dispatch_init rc err _ (or_intror Hs1)).
    apply newer_init_deletes_pods.
Qed.
End ResetRequest.

Section OlderResetRequest.
Context {W View ScaleType : Type} {K : Client W}.
Context {RO : Older.Routines W View ScaleType}.

(** X16.  A reset request followed by a tick, first revision: when the
    status update of [DoResetCluster] is accepted and the next tick fetches
    the cluster and reads the cluster state view, that tick is in state
    Reset, runs the full initialization and leaves no reset pending.  When
    the read of the state view fails instead, the tick stops before the
    switch and the reset stays pending. *)
Theorem older_reset_then_tick_initializes :
  forall (req : Request) (s : Sys W) (cl stored : RedisCluster)
         (w1 w2 w3 : W) (err : option error),
    cluster s = Some cl ->
    api s = Some stored ->
    sameKey (ObjectMeta stored) (ObjectMeta cl) = true ->
    sameKey (ObjectMeta stored) (Key req) = true ->
    updateFault (setClusterState cl Reset) (world s) = (None, w1) ->
    getFault (Key req) w1 = (None, w2) ->
    Older.getClusterStateView
      (withStatusOf stored (setClusterState cl Reset)) w2 = (err, w3) ->
    (err = None ->
     In (Called CdeleteAllRedisClusterPods)
        (trace (Older.Reconcile req (final (Older.DoResetCluster s)))) /\
     ClusterReset (final (Older.Reconcile req (final (Older.DoResetCluster s))))
     = false) /\
    (err <> None ->
     existsb isHandlerCall
       (trace (Older.Reconcile req (final (Older.DoResetCluster s)))) = false /\
     ClusterReset (final (Older.Reconcile req (final (Older.DoResetCluster s))))
     = true).
Proof.
  intros req s cl stored w1 w2 w3 err Hc Ha Hk Hkr Hu Hg Hv.
  destruct (older_DoResetCluster_stored_state s cl stored w1 Hc Ha Hk Hu)
    as (Ha1 & Hw1 & Hr1).
  set (s1 := final (Older.DoResetCluster s)) in *.
  set (rc := withStatusOf stored (setClusterState cl Reset)) in *.
  assert (Hget : Get (Key req) s1 = (inr rc, set_world w2 s1, [Called CGet])).
  { apply Get_stored; [ exact Ha1 | exact Hkr | rewrite Hw1; exact Hg ]. }
  assert (Hfetch : value (Get (Key req) s1) = inr rc) by (rewrite Hget; reflexivity).
  assert (Hst : stateOf (ClusterState (Status rc)) = Reset) by reflexivity.
  assert (Hn : stateOf (ClusterState (Status rc)) <> NotExists)
    by (rewrite Hst; discriminate).
  assert (Hv' : Older.getClusterStateView rc (world (final (Get (Key req) s1)))
                = (err, w3)) by (rewrite Hget; exact Hv).
  pose proof (older_beginTick_other req s1 rc err w3 Hfetch Hv' Hn) as Hb.
  split.
  - intros ->. split.
    + assert (Hval : value (Older.beginTick req s1) = inr (rc, None))
        by (rewrite Hb; reflexivity).
      assert (Hs1 : State (final (Older.beginTick req s1)) = Reset)
        by (rewrite Hb; reflexivity).
      unfold Older.Reconcile. rewrite trace_bind, Hval, trace_bind.
      apply in_or_app; right. apply in_or_app; left.
      destruct (older_dispatch_Reset rc None _ Hs1) as (_ & -> & _).
      apply older_init_deletes_pods.
    + assert (Hval : value (Older.beginTick req s1) = inr (rc, None))
        by (rewrite Hb; reflexivity).
      assert (Hs1 : State (final (Older.beginTick req s1)) = Reset)
        by (rewrite Hb; reflexivity).
      unfold Older.Reconcile. rewrite final_bind, Hval, final_bind.
      destruct (older_dispatch_Reset rc None _ Hs1) as (_ & _ & Hfin).
      destruct (value (Older.dispatch rc None (final (Older.beginTick req s1))))
        as [err' rc'].
      rewrite older_endTick_keeps_ClusterReset, Hfin. reflexivity.
  - intros Herr. destruct err as [e|]; [ | congruence ].
    unfold Older.Reconcile. rewrite bind_run, Hb.
    cbn [value final trace fst snd ret app existsb isHandlerCall orb].
    rewrite Hget. cbn. split; [ reflexivity | exact Hr1 ].
Qed.
End OlderResetRequest.

(** A reset of a Ready cluster; and before any fetch, the nil pointer. *)
Lemma DoResetCluster_effect_witness :
  Newer.DoResetCluster (start Ready healthy) = (None, start Ready healthy, []) /\
  cluster (final (Older.DoResetCluster (running Ready healthy)))
  = Some (declared Reset) /\
  ClusterReset (final (Older.DoResetCluster
                         (running Ready
                            (Scripts.script Scripts.statusUpdate true true false))))
  = true.
Proof.
  split; [ | split ].
  - apply (proj1 (DoResetCluster_effect (K := client))
             (start Ready healthy)).
    reflexivity.
  - apply (proj1 (proj2 (DoResetCluster_effect (K := client))
                    (running Ready healthy) (declared Ready) eq_refl)).
  - apply (proj1 (proj2 (DoResetCluster_effect (K := client))
                    (running Ready
                       (Scripts.script Scripts.statusUpdate true true false))
                    (declared Ready) eq_refl)).
Defined.

Lemma newer_reset_then_tick_initializes_witness :
  In (Called CdeleteAllRedisClusterPods)
     (trace (Newer.Reconcile request
               (final (Newer.DoResetCluster
                         (running Ready
                            (Scripts.script Scripts.stateViewRead true true false)))))).
Proof.
  apply (newer_reset_then_tick_initializes (K := client) (RN := newer)
           request
           (running Ready (Scripts.script Scripts.stateViewRead true true false))
           (declared Ready) (declared Ready)
           (Scripts.script Scripts.stateViewRead true true false)
           (Scripts.script Scripts.stateViewRead true true false));
    reflexivity.
Defined.

(** First revision: the reset is carried out when the state view is read,
    and stays pending when it is not. *)
Lemma older_reset_then_tick_initializes_witness :
  ClusterReset (final (Older.Reconcile request
                         (final (Older.DoResetCluster (running Ready healthy)))))
  = false /\
  ClusterReset (final (Older.Reconcile request
                         (final (Older.DoResetCluster
                                   (running Ready
                                      (Scripts.script Scripts.stateViewRead
                                         true true false))))))
  = true.
Proof.
  split.
  - apply (proj1 (older_reset_then_tick_initializes (K := client) (RO := older)
                    request (running Ready healthy)
                    (declared Ready) (declared Ready) healthy healthy healthy None
                    eq_refl eq_refl eq_refl eq_refl eq_refl eq_refl eq_refl)).
    reflexivity.
  - apply (proj2 (older_reset_then_tick_initializes (K := client) (RO := older)
                    request
                    (running Ready
                       (Scripts.script Scripts.stateViewRead true true false))
                    (declared Ready) (declared Ready)
                    (Scripts.script Scripts.stateViewRead true true false)
                    (Scripts.script Scripts.stateViewRead true true false)
                    (Scripts.script Scripts.stateViewRead true true false)
                    (Some boom)
                    eq_refl eq_refl eq_refl eq_refl eq_refl eq_refl eq_refl)).
    discriminate.
Defined.

(** ** A pending reset that is never carried out *)

Section Wedge.
Context {W View ScaleType : Type} {K : Client W}.
Context {RO : Older.Routines W View ScaleType}.

Lemma older_endTick_no_handler_call (rc : RedisCluster) (err : option error) :
  silent isHandlerCall (Older.endTick rc err).
Proof.
  unfold Older.endTick, Older.updateClusterView, updateClusterState, StatusUpdate.
  silence.
Qed.

Lemma withStatusOf_self (stored : RedisCluster) :
  withStatusOf stored stored = stored.
Proof. destruct stored; reflexivity. Qed.

Lemma StatusUpdate_same_keeps_api (stored : RedisCluster) (s : Sys W) :
  api s = Some stored ->
  api (final (StatusUpdate stored s)) = Some stored.
Proof.
  intros Ha. unfold StatusUpdate. run.
  destruct (updateFault stored (world s)) as [[e|] w]; cbn; [ exact Ha | ].
  rewrite Ha. cbn.
  destruct (sameKey (ObjectMeta stored) (ObjectMeta stored)); cbn; [ | exact Ha ].
  fold (withStatusOf stored stored). rewrite withStatusOf_self. reflexivity.
Qed.

Lemma Get_value_stored (key : NamespacedName) (s : Sys W) (rc stored : RedisCluster) :
  api s = Some stored ->
  value (Get key s) = inr rc ->
  rc = stored.
Proof.
  intros Ha. unfold Get. run.
  destruct (getFault key (world s)) as [[e|] w]; cbn; [ discriminate | ].
  rewrite Ha. cbn. destruct (sameKey (ObjectMeta stored) key); cbn; congruence.
Qed.

(** One tick with a reset pending and a gated state stored. *)
Lemma older_wedged_tick (req : Request) (s : Sys W) (stored : RedisCluster) :
  ClusterReset s = true ->
  api s = Some stored ->
  gatedState (ClusterState (Status stored)) = true ->
  ClusterReset (final (Older.Reconcile req s)) = true /\
  api (final (Older.Reconcile req s)) = Some stored /\
  existsb isHandlerCall (trace (Older.Reconcile req s)) = false.
Proof.
  intros Hr Ha Hg.
  destruct (value (Get (Key req) s)) as [e | rc] eqn:Hf.
  - unfold Older.Reconcile. rewrite bind_run.
    rewrite (older_beginTick_unfetched req s e Hf).
    cbn [value final trace fst snd ret app].
    rewrite (Get_frame (Key req) s). cbn. auto.
  - pose proof (Get_value_stored (Key req) s rc stored Ha Hf) as ->.
    assert (Hst : stateOf (ClusterState (Status stored))
                  = ClusterState (Status stored)).
    { destruct (gatedState_cases _ Hg) as [-> | [-> | [-> | ->]]]; reflexivity. }
    assert (Hn : stateOf (ClusterState (Status stored)) <> NotExists).
    { rewrite Hst.
      destruct (gatedState_cases _ Hg) as [-> | [-> | [-> | ->]]]; discriminate. }
    destruct (Older.getClusterStateView stored (world (final (Get (Key req) s))))
      as [err w] eqn:Hv.
    pose proof (older_beginTick_other req s stored err w Hf Hv Hn) as Hb.
    unfold Older.Reconcile. rewrite bind_run, Hb.
    cbn [value final trace fst snd].
    rewrite (Get_frame (Key req) s).
    destruct err as [e|].
    + cbn. auto.
    + rewrite bind_run.
      match goal with
      | |- context [Older.dispatch stored None ?s0] =>
          rewrite (older_dispatch_gated stored None s0)
            by (cbn; first [ exact Hr | rewrite Hst; exact Hg ])
      end.
      cbn [value final trace fst snd app].
      rewrite older_endTick_keeps_ClusterReset, older_endTick_api.
      cbn [existsb isHandlerCall orb].
      rewrite older_endTick_no_handler_call.
      rewrite StatusUpdate_same_keeps_api by exact Ha.
      cbn. auto.
Qed.

(** X17.  First revision: a pending reset with a stored lifecycle state of
    Ready, Recovering, Updating or Scale is a fixed point of the tick.  A
    tick in this situation runs no handler and leaves the flag and the
    stored resource as they are, so that after any number of ticks the
    reset is still pending and the stored resource unchanged.  (This is
    the situation after a reset request whose status update was refused.) *)
Theorem older_pending_reset_is_stuck :
  forall (n : nat) (req : Request) (s : Sys W) (stored : RedisCluster),
    ClusterReset s = true ->
    api s = Some stored ->
    gatedState (ClusterState (Status stored)) = true ->
    ClusterReset (olderTicks n req s) = true /\
    api (olderTicks n req s) = Some stored /\
    existsb isHandlerCall (trace (Older.Reconcile req (olderTicks n req s))) = false.
Proof.
  induction n as [| n IH]; intros req s stored Hr Ha Hg.
  - cbn [olderTicks]. split; [ exact Hr | split; [ exact Ha | ] ].
    apply (older_wedged_tick req s stored Hr Ha Hg).
  - cbn [olderTicks].
    destruct (older_wedged_tick req s stored Hr Ha Hg) as (Hr' & Ha' & _).
    apply IH; assumption.
Qed.
End Wedge.

(** A reset request whose status update is refused, then three ticks: the
    cluster is still stored as Ready, the reset still pending. *)
Lemma older_pending_reset_is_stuck_witness :
  let s := final (Older.DoResetCluster
                    (running Ready
                       (Scripts.script Scripts.statusUpdate true true false))) in
  ClusterReset (olderTicks 3 request s) = true /\
  api (olderTicks 3 request s) = Some (declared Ready).
Proof.
  cbv zeta.
  pose proof (older_pending_reset_is_stuck (K := client) (RO := older)
                3 request
                (final (Older.DoResetCluster
                          (running Ready
                             (Scripts.script Scripts.statusUpdate true true false))))
                (declared Ready) eq_refl eq_refl eq_refl) as (Hr & Ha & _).
  split; [ exact Hr | exact Ha ].
Defined.

(** ** The requeue flag and the reconcile trigger *)

Section Requeue.
Context {W View ScaleType : Type} {K : Client W}.
Context {RO : Older.Routines W View ScaleType}.
Context {RN : Newer.Routines W View ScaleType}.

Lemma older_beginTick_stops (req : Request) (s : Sys W) (r : Result * option error) :
  value (Older.beginTick req s) = inl r -> Requeue (fst r) = false.
Proof.
  destruct (value (Get (Key req) s)) as [e | rc] eqn:Hg.
  - rewrite (older_beginTick_unfetched req s e Hg). cbn. intros [= <-]. reflexivity.
  - destruct (Older.getClusterStateView rc (world (final (Get (Key req) s))))
      as [err w] eqn:Hv.
    destruct (String.eqb_spec (stateOf (ClusterState (Status rc))) NotExists)
      as [Hn | Hn].
    + rewrite (older_beginTick_NotExists req s rc err w Hg Hv Hn). discriminate.
    + rewrite (older_beginTick_other req s rc err w Hg Hv Hn). cbn.
      destruct err; [ intros [= <-]; reflexivity | discriminate ].
Qed.

Lemma newer_beginTick_stops (req : Request) (s : Sys W) (r : Result * option error) :
  value (Newer.beginTick req s) = inl r -> Requeue (fst r) = false.
Proof.
  destruct (value (Get (Key req) s)) as [e | rc] eqn:Hg.
  - rewrite (newer_beginTick_unfetched req s e Hg). cbn. intros [= <-]. reflexivity.
  - destruct (Newer.getClusterStateView rc (world (final (Get (Key req) s))))
      as [err w] eqn:Hv.
    destruct (String.eqb_spec (stateOf (ClusterState (Status rc))) NotExists)
      as [Hn | Hn];
    [ | destruct (String.eqb_spec (stateOf (ClusterState (Status rc))) Reset)
          as [Hr | Hr] ].
    + rewrite (newer_beginTick_init req s rc err w Hg Hv (or_introl Hn)).
      discriminate.
    + rewrite (newer_beginTick_init req s rc err w Hg Hv (or_intror Hr)).
      discriminate.
    + rewrite (newer_beginTick_other req s rc err w Hg Hv Hn Hr). cbn.
      destruct err; [ intros [= <-]; reflexivity | discriminate ].
Qed.

(** X18.  The requeue flag of the result.  The first revision never sets
    it.  The second revision sets it exactly when the tick reached the
    switch and the handler returned no error: a tick that stopped before
    the switch, or whose handler failed, leaves it unset. *)
Theorem requeue_flag :
  (forall (req : Request) (s : Sys W),
      Requeue (fst (value (Older.Reconcile req s))) = false)
  /\
  (forall (req : Request) (s : Sys W) (r : Result * option error),
      value (Newer.beginTick req s) = inl r ->
      Requeue (fst (value (Newer.Reconcile req s))) = false)
  /\
  (forall (req : Request) (s : Sys W) (rc : RedisCluster) (err0 : option error),
      value (Newer.beginTick req s) = inr (rc, err0) ->
      Requeue (fst (value (Newer.Reconcile req s)))
      = Newer.isNil
          (fst (value (Newer.dispatch rc err0 (final (Newer.beginTick req s)))))).
Proof.
  split; [ | split ].
  - intros req s. unfold Older.Reconcile. rewrite value_bind.
    destruct (value (Older.beginTick req s)) as [r | [rc err0]] eqn:Hb.
    + cbn. apply (older_beginTick_stops req s r Hb).
    + rewrite value_bind.
      destruct (value (Older.dispatch _ _ _)) as [err' rc'].
      rewrite older_endTick_value. reflexivity.
  - intros req s r Hb. unfold Newer.Reconcile. rewrite value_bind, Hb.
    cbn. apply (newer_beginTick_stops req s r Hb).
  - intros req s rc err0 Hb. unfold Newer.Reconcile. rewrite value_bind, Hb.
    rewrite value_bind.
    destruct (value (Newer.dispatch _ _ _)) as [err' rc'].
    rewrite newer_endTick_value. reflexivity.
Qed.
End Requeue.

Section Trigger.
Context {W View ScaleType : Type} {K : Client W}.
Context {RN : Newer.Routines W View ScaleType}.

Lemma newer_Reconcile_no_trigger_log (req : Request) :
  silent isTriggerLog (Newer.Reconcile req).
Proof.
  unfold Newer.Reconcile, Newer.beginTick, Newer.dispatch, Newer.endTick,
    Newer.handleInitializingCluster, Newer.handleReadyState,
    Newer.handleScaleState, Newer.handleRecoveringState,
    Newer.handleUpdatingState, Newer.updateClusterView,
    updateClusterState, Get, StatusUpdate.
  cbv zeta. silence.
Qed.

(** X19.  [DoReconcile] (second revision).  Once a tick has assigned the
    reconciler, the operation runs one tick on the cluster named dev-rdc in
    the namespace default and always answers that the reconcile request
    was triggered; it logs that the trigger could not be performed exactly
    when the fetch of that cluster failed with an error other than not
    found, which is the only error a tick returns.  Before any tick the
    reconciler is nil: the operation prints the first line of the tick and
    panics, with no answer, no call and the state as it was. *)
Theorem DoReconcile_reply :
  forall (s : Sys W),
    (value (Newer.DoReconcile true s) = Some "Reconcile request triggered" /\
     final (Newer.DoReconcile true s)
     = final (Newer.Reconcile
                {| Key := {| Namespace := "default"; Name := "dev-rdc" |} |} s) /\
     existsb isTriggerLog (trace (Newer.DoReconcile true s))
     = match value (Get {| Namespace := "default"; Name := "dev-rdc" |} s) with
       | inl e => negb (IsNotFound (Some e))
       | inr _ => false
       end) /\
    Newer.DoReconcile false s = (None, s, [Println "Reconcile call"]).
Proof.
  intros s. split; [ | reflexivity ].
  unfold Newer.DoReconcile.
  rewrite value_bind, final_bind, trace_bind, existsb_app.
  rewrite newer_Reconcile_no_trigger_log. cbn [orb].
  set (req := {| Key := {| Namespace := "default"; Name := "dev-rdc" |} |}).
  change {| Namespace := "default"; Name := "dev-rdc" |} with (Key req).
  destruct (value (Get (Key req) s)) as [e | rc] eqn:Hg.
  - assert (Hv : snd (value (Newer.Reconcile req s)) = IgnoreNotFound (Some e)).
    { unfold Newer.Reconcile. rewrite value_bind.
      rewrite (newer_beginTick_unfetched req s e Hg). reflexivity. }
    destruct (value (Newer.Reconcile req s)) as [res err]. cbn [snd] in Hv.
    subst err. unfold IgnoreNotFound.
    destruct (IsNotFound (Some e)); cbn; auto.
  - pose proof (proj1 (newer_Reconcile_fetched req s rc Hg)) as Hv.
    destruct (value (Newer.Reconcile req s)) as [res err]. cbn [snd] in Hv.
    subst err. cbn. auto.
Qed.
End Trigger.

(** The handler fails: no immediate requeue; it succeeds: requeue. *)
Lemma requeue_flag_witness :
  Requeue (fst (value (Newer.Reconcile request
                         (running Recovering (failing CrecoverCluster))))) = false /\
  Requeue (fst (value (Newer.Reconcile request (running Ready healthy)))) = true /\
  Requeue (fst (value (Newer.Reconcile request (deleted healthy)))) = false.
Proof.
  split; [ | split ].
  - rewrite (proj2 (proj2 (requeue_flag (K := client) (RO := older) (RN := newer)))
               request (running Recovering (failing CrecoverCluster))
               (declared Recovering) None eq_refl).
    reflexivity.
  - rewrite (proj2 (proj2 (requeue_flag (K := client) (RO := older) (RN := newer)))
               request (running Ready healthy) (declared Ready) None eq_refl).
    reflexivity.
  - apply (proj1 (proj2 (requeue_flag (K := client) (RO := older) (RN := newer)))
             request (deleted healthy)
             ({| Requeue := false; RequeueAfter := 15 * Second |}, None)).
    reflexivity.
Defined.

(** ** The Recovering state over a tick *)

Section RecoveringState.
Context {W View ScaleType : Type} {K : Client W}.
Context {RO : Older.Routines W View ScaleType}.
Context {RN : Newer.Routines W View ScaleType}.




End RecoveringState.


(** * The deep copies of the API types *)

Import DeepCopy.
Local Open Scope list_scope.

Section Cells.
Context {A : Type}.

Lemma nth_new (l : list A) (v d : A) : nth (List.length l) (l ++ [v]) d = v.
Proof. rewrite app_nth2 by lia. rewrite Nat.sub_diag. reflexivity. Qed.

Lemma prefix_trans (x y z : list A) :
  (exists l, y = x ++ l) -> (exists l, z = y ++ l) -> exists l, z = x ++ l.
Proof.
  intros [l E] [l' E']. exists (l ++ l'). rewrite E', E, app_assoc. reflexivity.
Qed.

Lemma allocated_mono (store store' : list A) (r : option nat) :
  (exists l, store' = store ++ l) -> allocated store r -> allocated store' r.
Proof.
  intros [l E] H. destruct r as [a|]; cbn in *; [ | exact I ].
  rewrite E, length_app. lia.
Qed.

Lemma fresh_mono (store store' : list A) (r : option nat) :
  (exists l, store' = store ++ l) -> fresh store' r -> fresh store r.
Proof.
  intros [l E] H. destruct r as [a|]; cbn in *; [ | exact I ].
  rewrite E, length_app in H. lia.
Qed.

Lemma nth_prefix (store store' : list A) (a : nat) (d : A) :
  (exists l, store' = store ++ l) -> (a < List.length store)%nat ->
  nth a store' d = nth a store d.
Proof. intros [l E] H. rewrite E. apply app_nth1. exact H. Qed.

(** A relation between cells still holds when the two heaps have grown. *)
Lemma sameCell_mono (R : A -> A -> Prop) (d : A)
      (store store1 store2 store3 : list A) (r r' : option nat) :
  allocated store r -> (exists l, store1 = store ++ l) ->
  allocated store2 r' -> (exists l, store3 = store2 ++ l) ->
  sameCell R d store1 r store2 r' -> sameCell R d store r store3 r'.
Proof.
  intros Ha He Ha' He' H.
  destruct r as [a|], r' as [a'|]; cbn in *; try exact H.
  rewrite (nth_prefix _ _ _ _ He Ha) in H.
  rewrite (nth_prefix _ _ _ _ He' Ha'). exact H.
Qed.

Lemma nth_setNth_same (l : list A) (a : nat) (v d : A) :
  (a < List.length l)%nat -> nth a (setNth a v l) d = v.
Proof.
  revert a. induction l as [|x l IH]; intros [|a] H; cbn in *; try lia.
  - reflexivity.
  - apply IH. lia.
Qed.

Lemma nth_setNth_other (l : list A) (a b : nat) (v d : A) :
  a <> b -> nth b (setNth a v l) d = nth b l d.
Proof.
  revert a b. induction l as [|x l IH]; intros [|a] [|b] H; cbn;
    try reflexivity; try congruence.
  apply IH. congruence.
Qed.

Lemma Forall2_weaken {B : Type} (P : A -> Prop) (Q : B -> Prop)
      (R1 R2 : A -> B -> Prop) (l : list A) (l' : list B) :
  (forall x y, P x -> Q y -> R1 x y -> R2 x y) ->
  Forall P l -> Forall Q l' -> Forall2 R1 l l' -> Forall2 R2 l l'.
Proof.
  intros Himp HP HQ H. induction H as [|x y l l' Hxy H IH]; constructor.
  - apply Himp; [ exact (Forall_inv HP) | exact (Forall_inv HQ) | exact Hxy ].
  - apply IH; [ exact (Forall_inv_tail HP) | exact (Forall_inv_tail HQ) ].
Qed.
End Cells.

Section StringMaps.

Lemma mapAssign_new (key val : string) (m : list (string * string)) :
  ~ In key (map fst m) -> mapAssign key val m = m ++ [(key, val)].
Proof.
  induction m as [|[k' v] m IH]; cbn; intro H; [ reflexivity | ].
  destruct (String.eqb_spec k' key) as [E|E].
  - exfalso. apply H. left. exact E.
  - rewrite IH; [ reflexivity | ]. intro Hin. apply H. right. exact Hin.
Qed.

Lemma fold_mapAssign_unique (l : list (string * string)) :
  forall acc, uniqueKeys (acc ++ l) ->
  fold_left (fun out kv => mapAssign (fst kv) (snd kv) out) l acc = acc ++ l.
Proof.
  unfold uniqueKeys.
  induction l as [|[key val] l IH]; intros acc H; cbn.
  - rewrite app_nil_r. reflexivity.
  - assert (Hacc : ~ In key (map fst acc)).
    { rewrite map_app in H. cbn in H. apply NoDup_remove_2 in H.
      intro Hin. apply H. apply in_or_app. left. exact Hin. }
    rewrite (mapAssign_new key val acc Hacc).
    rewrite IH; rewrite <- app_assoc; [ reflexivity | exact H ].
Qed.

Lemma mapLookup_In (key v : string) (m : list (string * string)) :
  uniqueKeys m -> (mapLookup key m = Some v <-> In (key, v) m).
Proof.
  unfold uniqueKeys.
  induction m as [|[k' v'] m IH]; cbn; intro H.
  - split; [ discriminate | tauto ].
  - inversion H as [|? ? Hnotin Hrest]; subst.
    destruct (String.eqb_spec k' key) as [E|E].
    + subst k'. split.
      * intro Hv. injection Hv as ->. left. reflexivity.
      * intros [Heq|Hin]; [ injection Heq as ->; reflexivity | ].
        exfalso. apply Hnotin. apply (in_map fst) in Hin. exact Hin.
    + rewrite (IH Hrest). split.
      * intro Hin. right. exact Hin.
      * intros [Heq|Hin]; [ injection Heq as -> ->; congruence | exact Hin ].
Qed.

(** The entries of a map in another order: the same map. *)
Lemma mapLookup_Permutation (m m' : list (string * string)) :
  uniqueKeys m -> Permutation m' m -> sameMap m m'.
Proof.
  intros Hu Hp key.
  assert (Hu' : uniqueKeys m').
  { unfold uniqueKeys in *.
    apply (Permutation_NoDup (l := map fst m)); [ | exact Hu ].
    apply Permutation_map. apply Permutation_sym. exact Hp. }
  destruct (mapLookup key m) as [v|] eqn:E.
  - apply (mapLookup_In key v m' Hu').
    apply (Permutation_in _ (Permutation_sym Hp)).
    apply (mapLookup_In key v m Hu). exact E.
  - destruct (mapLookup key m') as [v'|] eqn:E'; [ | reflexivity ].
    apply (mapLookup_In key v' m' Hu') in E'.
    apply (Permutation_in _ Hp) in E'.
    apply (mapLookup_In key v' m Hu) in E'. congruence.
Qed.
End StringMaps.

Section DeepCopies.
Context {k : Kube}.

Lemma copyStringMap_visits (m : list (string * string)) :
  uniqueKeys m -> copyStringMap m = rangeOrder m.
Proof.
  intro Hu. unfold copyStringMap.
  rewrite fold_mapAssign_unique; [ reflexivity | ].
  cbn. unfold uniqueKeys in *.
  apply (Permutation_NoDup (l := map fst m)); [ | exact Hu ].
  apply Permutation_map. apply Permutation_sym. apply rangeOrder_visits_all.
Qed.

Lemma extends_refl (h : Heap) : extends h h.
Proof. unfold extends. repeat split; exists []; symmetry; apply app_nil_r. Qed.

Lemma extends_trans (h1 h2 h3 : Heap) :
  extends h1 h2 -> extends h2 h3 -> extends h1 h3.
Proof.
  intros (a1 & a2 & a3 & a4 & a5) (b1 & b2 & b3 & b4 & b5).
  unfold extends. repeat split; eapply prefix_trans; eassumption.
Qed.

Ltac grown :=
  unfold extends; cbn; repeat split;
  first [ exists []; symmetry; apply app_nil_r | eexists; reflexivity ].

Lemma Spec_DeepCopyInto_extends (s : RedisOperatorSpec) (h : Heap) :
  extends h (snd (RedisOperatorSpec_DeepCopyInto s h)).
Proof.
  destruct s as [rest [c|] res sel [ann|] [env|]];
    unfold RedisOperatorSpec_DeepCopyInto; cbn; grown.
Qed.

Lemma Status_DeepCopyInto_extends (s : RedisOperatorStatus) (h : Heap) :
  extends h (snd (RedisOperatorStatus_DeepCopyInto s h)).
Proof.
  destruct s as [rest [p|]]; unfold RedisOperatorStatus_DeepCopyInto; cbn; grown.
Qed.

Lemma Spec_DeepCopyInto_allocated (s : RedisOperatorSpec) (h : Heap) :
  specAllocated (snd (RedisOperatorSpec_DeepCopyInto s h))
                (fst (RedisOperatorSpec_DeepCopyInto s h)).
Proof.
  destruct s as [rest [c|] res sel [ann|] [env|]];
    unfold RedisOperatorSpec_DeepCopyInto, specAllocated; cbn;
    repeat split; rewrite ?length_app; cbn; lia.
Qed.

Lemma Spec_DeepCopyInto_fresh (s : RedisOperatorSpec) (h : Heap) :
  specFresh h (fst (RedisOperatorSpec_DeepCopyInto s h)).
Proof.
  destruct s as [rest [c|] res sel [ann|] [env|]];
    unfold RedisOperatorSpec_DeepCopyInto, specFresh; cbn;
    repeat split; lia.
Qed.

Lemma Spec_DeepCopyInto_copied (s : RedisOperatorSpec) (h : Heap) :
  specWellFormed h s ->
  copiedSpec h s (snd (RedisOperatorSpec_DeepCopyInto s h))
             (fst (RedisOperatorSpec_DeepCopyInto s h)).
Proof.
  intros [_ Hkeys].
  assert (Hmap : forall a, PodAnnotations s = Some a ->
                           sameMap (stringMapAt h a) (copyStringMap (stringMapAt h a))).
  { intros a Ha. rewrite (copyStringMap_visits _ (Hkeys a Ha)).
    apply mapLookup_Permutation; [ exact (Hkeys a Ha) | ].
    apply rangeOrder_visits_all. }
  clear Hkeys.
  destruct s as [rest [c|] res sel [ann|] [env|]];
    unfold RedisOperatorSpec_DeepCopyInto, copiedSpec, sameCell; cbn in *;
    repeat split; rewrite ?nth_new; try reflexivity;
    apply (Hmap ann eq_refl).
Qed.

Lemma Status_DeepCopyInto_copied (s : RedisOperatorStatus) (h : Heap) :
  copiedStatus h s (snd (RedisOperatorStatus_DeepCopyInto s h))
               (fst (RedisOperatorStatus_DeepCopyInto s h)).
Proof.
  destruct s as [rest [p|]];
    unfold RedisOperatorStatus_DeepCopyInto, copiedStatus, sameCell; cbn;
    split; rewrite ?nth_new; reflexivity.
Qed.

Lemma Status_DeepCopyInto_allocated (s : RedisOperatorStatus) (h : Heap) :
  statusAllocated (snd (RedisOperatorStatus_DeepCopyInto s h))
                  (fst (RedisOperatorStatus_DeepCopyInto s h)) /\
  fresh (objectReferenceArrays h)
        (Pods (fst (RedisOperatorStatus_DeepCopyInto s h))).
Proof.
  destruct s as [rest [p|]];
    unfold RedisOperatorStatus_DeepCopyInto, statusAllocated; cbn;
    split; rewrite ?length_app; cbn; try lia; exact I.
Qed.

(** ** Growing heaps *)

Lemma specAllocated_mono (h h' : Heap) (s : RedisOperatorSpec) :
  extends h h' -> specAllocated h s -> specAllocated h' s.
Proof.
  intros (e1 & e2 & e3 & _) (a1 & a2 & a3).
  repeat split; eapply allocated_mono; eassumption.
Qed.

Lemma specFresh_mono (h h' : Heap) (s : RedisOperatorSpec) :
  extends h h' -> specFresh h' s -> specFresh h s.
Proof.
  intros (e1 & e2 & e3 & _) (a1 & a2 & a3).
  repeat split; eapply fresh_mono; eassumption.
Qed.

Lemma specWellFormed_mono (h h' : Heap) (s : RedisOperatorSpec) :
  extends h h' -> specWellFormed h s -> specWellFormed h' s.
Proof.
  intros He [Ha Hkeys]. split.
  - exact (specAllocated_mono h h' s He Ha).
  - intros a Hann. unfold stringMapAt.
    destruct He as (_ & e2 & _). destruct Ha as (_ & a2 & _).
    rewrite Hann in a2. cbn in a2.
    rewrite (nth_prefix _ _ _ _ e2 a2). exact (Hkeys a Hann).
Qed.

Lemma operatorWellFormed_mono (h h' : Heap) (o : RedisOperator) :
  extends h h' -> operatorWellFormed h o -> operatorWellFormed h' o.
Proof.
  intros He [Hs Hst]. split.
  - exact (specWellFormed_mono h h' _ He Hs).
  - destruct He as (_ & _ & _ & e4 & _).
    exact (allocated_mono _ _ _ e4 Hst).
Qed.

Lemma operatorAllocated_mono (h h' : Heap) (o : RedisOperator) :
  extends h h' -> operatorAllocated h o -> operatorAllocated h' o.
Proof.
  intros He [Hs Hst]. split.
  - exact (specAllocated_mono h h' _ He Hs).
  - destruct He as (_ & _ & _ & e4 & _).
    exact (allocated_mono _ _ _ e4 Hst).
Qed.

Lemma operatorFresh_mono (h h' : Heap) (o : RedisOperator) :
  extends h h' -> operatorFresh h' o -> operatorFresh h o.
Proof.
  intros He [Hs Hst]. split.
  - exact (specFresh_mono h h' _ He Hs).
  - destruct He as (_ & _ & _ & e4 & _).
    exact (fresh_mono _ _ _ e4 Hst).
Qed.

Lemma copiedSpec_mono (h h1 h2 h3 : Heap) (s s' : RedisOperatorSpec) :
  specAllocated h s -> extends h h1 ->
  specAllocated h2 s' -> extends h2 h3 ->
  copiedSpec h1 s h2 s' -> copiedSpec h s h3 s'.
Proof.
  intros (a1 & a2 & a3) (e1 & e2 & e3 & _) (b1 & b2 & b3) (f1 & f2 & f3 & _)
         (H1 & H2 & H3 & H4 & H5 & H6).
  unfold copiedSpec. repeat split; try assumption;
    eapply sameCell_mono; eassumption.
Qed.

Lemma copiedStatus_mono (h h1 h2 h3 : Heap) (s s' : RedisOperatorStatus) :
  statusAllocated h s -> extends h h1 ->
  statusAllocated h2 s' -> extends h2 h3 ->
  copiedStatus h1 s h2 s' -> copiedStatus h s h3 s'.
Proof.
  intros a1 (_ & _ & _ & e4 & _) b1 (_ & _ & _ & f4 & _) (H1 & H2).
  unfold copiedStatus. split; [ exact H1 | ].
  eapply sameCell_mono; eassumption.
Qed.

Lemma copiedOperator_mono (h h1 h2 h3 : Heap) (o o' : RedisOperator) :
  operatorAllocated h o -> extends h h1 ->
  operatorAllocated h2 o' -> extends h2 h3 ->
  copiedOperator h1 o h2 o' -> copiedOperator h o h3 o'.
Proof.
  intros [a1 a2] He [b1 b2] Hf (H1 & H2 & H3 & H4).
  unfold copiedOperator. split; [ exact H1 | split; [ exact H2 | split ] ].
  - eapply copiedSpec_mono; eassumption.
  - eapply copiedStatus_mono; eassumption.
Qed.

Lemma RedisOperator_DeepCopyInto_parts (o : RedisOperator) (h : Heap) :
  let r1 := RedisOperatorSpec_DeepCopyInto (OperatorSpec o) h in
  let r2 := RedisOperatorStatus_DeepCopyInto (OperatorStatus o) (snd r1) in
  RedisOperator_DeepCopyInto o h =
  ({| OperatorTypeMeta := OperatorTypeMeta o;
      OperatorObjectMeta := ObjectMeta_DeepCopy (OperatorObjectMeta o);
      OperatorSpec := fst r1;
      OperatorStatus := fst r2 |}, snd r2).
Proof.
  cbv zeta. unfold RedisOperator_DeepCopyInto.
  destruct (RedisOperatorSpec_DeepCopyInto (OperatorSpec o) h) as [s' h1].
  cbn [fst snd].
  destruct (RedisOperatorStatus_DeepCopyInto (OperatorStatus o) h1) as [st' h2].
  reflexivity.
Qed.

Lemma RedisOperator_DeepCopyInto_sound (o : RedisOperator) (h : Heap) :
  operatorWellFormed h o ->
  copiedOperator h o (snd (RedisOperator_DeepCopyInto o h))
                 (fst (RedisOperator_DeepCopyInto o h)) /\
  operatorFresh h (fst (RedisOperator_DeepCopyInto o h)) /\
  operatorAllocated (snd (RedisOperator_DeepCopyInto o h))
                    (fst (RedisOperator_DeepCopyInto o h)) /\
  extends h (snd (RedisOperator_DeepCopyInto o h)).
Proof.
  intros [Hs Hst]. rewrite RedisOperator_DeepCopyInto_parts. cbn [fst snd].
  pose proof (Spec_DeepCopyInto_extends (OperatorSpec o) h) as He1.
  pose proof (Spec_DeepCopyInto_allocated (OperatorSpec o) h) as Ha1.
  pose proof (Spec_DeepCopyInto_fresh (OperatorSpec o) h) as Hf1.
  pose proof (Spec_DeepCopyInto_copied (OperatorSpec o) h Hs) as Hc1.
  destruct (RedisOperatorSpec_DeepCopyInto (OperatorSpec o) h) as [s' h1].
  cbn [fst snd] in *.
  pose proof (Status_DeepCopyInto_extends (OperatorStatus o) h1) as He2.
  pose proof (Status_DeepCopyInto_allocated (OperatorStatus o) h1) as [Ha2 Hf2].
  pose proof (Status_DeepCopyInto_copied (OperatorStatus o) h1) as Hc2.
  destruct (RedisOperatorStatus_DeepCopyInto (OperatorStatus o) h1) as [st' h2].
  cbn [fst snd] in *.
  split; [ | split; [ | split ] ].
  - unfold copiedOperator. cbn.
    split; [ reflexivity | split; [ reflexivity | split ] ].
    + eapply copiedSpec_mono;
        [ exact (proj1 Hs) | apply extends_refl | exact Ha1 | exact He2 | exact Hc1 ].
    + eapply copiedStatus_mono;
        [ exact Hst | exact He1 | exact Ha2 | apply extends_refl | exact Hc2 ].
  - split; cbn.
    + exact Hf1.
    + destruct He1 as (_ & _ & _ & e4 & _). exact (fresh_mono _ _ _ e4 Hf2).
  - split; cbn.
    + exact (specAllocated_mono _ _ _ He2 Ha1).
    + exact Ha2.
  - exact (extends_trans _ _ _ He1 He2).
Qed.

Lemma copyOperators_sound (items : list RedisOperator) :
  forall h, Forall (operatorWellFormed h) items ->
  Forall2 (fun o o' => copiedOperator h o (snd (copyOperators items h)) o')
          items (fst (copyOperators items h)) /\
  Forall (operatorFresh h) (fst (copyOperators items h)) /\
  Forall (operatorAllocated (snd (copyOperators items h)))
         (fst (copyOperators items h)) /\
  extends h (snd (copyOperators items h)) /\
  operatorArrays (snd (copyOperators items h)) = operatorArrays h.
Proof.
  induction items as [|item rest IH]; intros h Hwf; cbn [copyOperators].
  - cbn. split; [ constructor | split; [ constructor | split; [ constructor | ] ] ].
    split; [ apply extends_refl | reflexivity ].
  - pose proof (RedisOperator_DeepCopyInto_sound item h (Forall_inv Hwf))
      as (Hc & Hf & Ha & He).
    assert (Harr : operatorArrays (snd (RedisOperator_DeepCopyInto item h))
                   = operatorArrays h).
    { rewrite RedisOperator_DeepCopyInto_parts. cbn [snd].
      destruct item as [tm om [rest' [c|] res sel [ann|] [env|]] [srest [p|]]];
        reflexivity. }
    destruct (RedisOperator_DeepCopyInto item h) as [out h1]. cbn [fst snd] in *.
    assert (Hwf1 : Forall (operatorWellFormed h1) rest).
    { apply (Forall_impl _ (fun o => operatorWellFormed_mono h h1 o He)).
      exact (Forall_inv_tail Hwf). }
    destruct (IH h1 Hwf1) as (Hcs & Hfs & Has & Hes & Harrs).
    destruct (copyOperators rest h1) as [outs h2]. cbn [fst snd] in *.
    split; [ | split; [ | split; [ | split ] ] ].
    + constructor.
      * eapply copiedOperator_mono;
          [ exact (conj (proj1 (proj1 (Forall_inv Hwf))) (proj2 (Forall_inv Hwf)))
          | apply extends_refl | exact Ha | exact Hes | exact Hc ].
      * apply (Forall2_weaken (operatorWellFormed h) (operatorAllocated h2)
                 (fun o o' => copiedOperator h1 o h2 o'));
          [ | exact (Forall_inv_tail Hwf) | exact Has | exact Hcs ].
        intros x y Hx Hy Hxy.
        eapply copiedOperator_mono;
          [ exact (conj (proj1 (proj1 Hx)) (proj2 Hx))
          | exact He | exact Hy | apply extends_refl | exact Hxy ].
    + constructor; [ exact Hf | ].
      apply (Forall_impl _ (fun o => operatorFresh_mono h h1 o He)). exact Hfs.
    + constructor; [ exact (operatorAllocated_mono _ _ _ Hes Ha) | exact Has ].
    + exact (extends_trans _ _ _ He Hes).
    + rewrite Harrs. exact Harr.
Qed.
Lemma allocated_fresh_apart {A : Type} (store : list A) (r r' : option nat) :
  allocated store r -> fresh store r' -> apart r r'.
Proof.
  destruct r as [a|], r' as [a'|]; cbn; try (intros; exact I).
  intros Ha Hf. lia.
Qed.

Lemma operator_allocated_fresh_apart (h : Heap) (o o' : RedisOperator) :
  operatorAllocated h o -> operatorFresh h o' -> operatorsApart o o'.
Proof.
  intros [(a1 & a2 & a3) a4] [(f1 & f2 & f3) f4].
  unfold operatorsApart.
  split; [ | split; [ | split ] ]; eapply allocated_fresh_apart; eassumption.
Qed.

Lemma RedisOperator_DeepCopyInto_cells (o : RedisOperator) (h : Heap) :
  operatorFresh h (fst (RedisOperator_DeepCopyInto o h)) /\
  operatorAllocated (snd (RedisOperator_DeepCopyInto o h))
                    (fst (RedisOperator_DeepCopyInto o h)) /\
  extends h (snd (RedisOperator_DeepCopyInto o h)).
Proof.
  rewrite RedisOperator_DeepCopyInto_parts. cbn [fst snd].
  pose proof (Spec_DeepCopyInto_extends (OperatorSpec o) h) as He1.
  pose proof (Spec_DeepCopyInto_allocated (OperatorSpec o) h) as Ha1.
  pose proof (Spec_DeepCopyInto_fresh (OperatorSpec o) h) as Hf1.
  destruct (RedisOperatorSpec_DeepCopyInto (OperatorSpec o) h) as [s' h1].
  cbn [fst snd] in *.
  pose proof (Status_DeepCopyInto_extends (OperatorStatus o) h1) as He2.
  pose proof (Status_DeepCopyInto_allocated (OperatorStatus o) h1) as [Ha2 Hf2].
  destruct (RedisOperatorStatus_DeepCopyInto (OperatorStatus o) h1) as [st' h2].
  cbn [fst snd] in *.
  split; [ | split ].
  - split; cbn.
    + exact Hf1.
    + destruct He1 as (_ & _ & _ & e4 & _). exact (fresh_mono _ _ _ e4 Hf2).
  - split; cbn.
    + exact (specAllocated_mono _ _ _ He2 Ha1).
    + exact Ha2.
  - exact (extends_trans _ _ _ He1 He2).
Qed.

Lemma copyOperators_length (items : list RedisOperator) :
  forall h, List.length (fst (copyOperators items h)) = List.length items.
Proof.
  induction items as [|item rest IH]; intro h; cbn [copyOperators].
  - reflexivity.
  - destruct (RedisOperator_DeepCopyInto item h) as [out h1].
    specialize (IH h1). destruct (copyOperators rest h1) as [outs h2].
    cbn in *. rewrite IH. reflexivity.
Qed.

(** The copies of the items of a list share no cell with each other. *)
Lemma copyOperators_apart (items : list RedisOperator) :
  forall h,
  Forall (operatorFresh h) (fst (copyOperators items h)) /\
  ForallOrdPairs operatorsApart (fst (copyOperators items h)).
Proof.
  induction items as [|item rest IH]; intro h; cbn [copyOperators].
  - cbn. split; constructor.
  - pose proof (RedisOperator_DeepCopyInto_cells item h) as (Hf & Ha & He).
    destruct (RedisOperator_DeepCopyInto item h) as [out h1]. cbn [fst snd] in *.
    destruct (IH h1) as [Hfs Hps].
    destruct (copyOperators rest h1) as [outs h2]. cbn [fst snd] in *.
    split.
    + constructor; [ exact Hf | ].
      apply (Forall_impl _ (fun o => operatorFresh_mono h h1 o He)). exact Hfs.
    + constructor; [ | exact Hps ].
      apply (Forall_impl _ (fun o => operator_allocated_fresh_apart h1 out o Ha)).
      exact Hfs.
Qed.

Lemma RedisOperatorList_DeepCopyInto_sound (l : RedisOperatorList) (h : Heap) :
  listWellFormed h l ->
  copiedList h l (snd (RedisOperatorList_DeepCopyInto l h))
             (fst (RedisOperatorList_DeepCopyInto l h)) /\
  fresh (operatorArrays h) (Items (fst (RedisOperatorList_DeepCopyInto l h))) /\
  (forall a', Items (fst (RedisOperatorList_DeepCopyInto l h)) = Some a' ->
     Forall (operatorFresh h)
            (operatorsAt (snd (RedisOperatorList_DeepCopyInto l h)) a')) /\
  extends h (snd (RedisOperatorList_DeepCopyInto l h)).
Proof.
  intros [Ha Hwf]. unfold RedisOperatorList_DeepCopyInto.
  destruct (Items l) as [a|] eqn:Hitems.
  - destruct (copyOperators_sound (operatorsAt h a) h (Hwf a eq_refl))
      as (Hc & Hf & Hal & He & Harr).
    destruct (copyOperators (operatorsAt h a) h) as [outs h1].
    cbn [fst snd] in *. cbn.
    assert (He' : extends h1 (snd (newOperatorArray outs h1))).
    { unfold extends; cbn; repeat split;
        first [ exists []; symmetry; apply app_nil_r | eexists; reflexivity ]. }
    cbn in He'.
    split; [ | split; [ | split ] ].
    + unfold copiedList. cbn. rewrite Hitems.
      split; [ reflexivity | split; [ reflexivity | ] ].
      unfold sameCell. rewrite nth_new.
      apply (Forall2_weaken (fun _ => True) (operatorAllocated h1)
               (fun o o' => copiedOperator h o h1 o'));
        [ | apply Forall_forall; intros; exact I | exact Hal | exact Hc ].
      intros x y _ Hy Hxy. unfold copiedOperator in *.
      destruct Hxy as (H1 & H2 & H3 & H4).
      split; [ exact H1 | split; [ exact H2 | split ] ].
      * destruct H3 as (G1 & G2 & G3 & G4 & G5 & G6).
        unfold copiedSpec. cbn.
        split; [ exact G1 | split; [ exact G2 | split; [ exact G3 | ] ] ].
        split; [ exact G4 | split; [ exact G5 | exact G6 ] ].
      * exact H4.
    + rewrite Harr. apply Nat.le_refl.
    + intros a' Ha'. injection Ha' as <-.
      unfold operatorsAt. cbn. rewrite nth_new. exact Hf.
    + exact (extends_trans _ _ _ He He').
  - cbn. split; [ | split; [ | split ] ].
    + unfold copiedList. cbn. rewrite Hitems.
      split; [ reflexivity | split; [ reflexivity | exact I ] ].
    + exact I.
    + intros a' Ha'. discriminate Ha'.
    + apply extends_refl.
Qed.

(** X20.  [RedisOperatorSpec.DeepCopy] of a spec is a deep copy: a new spec
    that reads as the original does (the same plain fields, a replica
    count of the same value, the same annotation under every key whatever
    the order of [range], the environment variables copied one by one, nil
    where the original has nil), whose references are to cells that did not
    exist before, in a heap where every cell of before is unchanged. *)
Theorem RedisOperatorSpec_DeepCopy_deep (s : RedisOperatorSpec) (h : Heap) :
  specWellFormed h s ->
  exists s' h',
    RedisOperatorSpec_DeepCopy (Some s) h = (Some s', h') /\
    copiedSpec h s h' s' /\ specFresh h s' /\ specAllocated h' s' /\
    extends h h'.
Proof.
  intro Hwf. unfold RedisOperatorSpec_DeepCopy.
  pose proof (Spec_DeepCopyInto_copied s h Hwf) as Hc.
  pose proof (Spec_DeepCopyInto_fresh s h) as Hf.
  pose proof (Spec_DeepCopyInto_allocated s h) as Ha.
  pose proof (Spec_DeepCopyInto_extends s h) as He.
  destruct (RedisOperatorSpec_DeepCopyInto s h) as [s' h']. cbn [fst snd] in *.
  exists s', h'. split; [ reflexivity | ].
  split; [ exact Hc | split; [ exact Hf | split; [ exact Ha | exact He ] ] ].
Qed.

(** X21.  The copy of a spec and the original are independent: a write
    through the replica count or into the annotations of one is not seen
    through the other. *)
Theorem RedisOperatorSpec_DeepCopy_independent
        (s s' : RedisOperatorSpec) (h h' : Heap) :
  specWellFormed h s ->
  RedisOperatorSpec_DeepCopy (Some s) h = (Some s', h') ->
  (forall a a' v,
      LeaderFollowersCount s = Some a -> LeaderFollowersCount s' = Some a' ->
      int32At (storeInt32 a' v h') a = int32At h a /\
      int32At (storeInt32 a v h') a' = int32At h a) /\
  (forall a a' key val,
      PodAnnotations s = Some a -> PodAnnotations s' = Some a' ->
      stringMapAt (storeMapEntry a' key val h') a = stringMapAt h a /\
      sameMap (stringMapAt h a) (stringMapAt (storeMapEntry a key val h') a')).
Proof.
  intros Hwf Hcopy. unfold RedisOperatorSpec_DeepCopy in Hcopy.
  pose proof (Spec_DeepCopyInto_copied s h Hwf) as (_ & _ & _ & Hc & Hm & _).
  pose proof (Spec_DeepCopyInto_fresh s h) as (Hf1 & Hf2 & _).
  pose proof (Spec_DeepCopyInto_extends s h) as (He1 & He2 & _).
  destruct (RedisOperatorSpec_DeepCopyInto s h) as [s1 h1].
  injection Hcopy as -> ->. cbn [fst snd] in *.
  destruct Hwf as [(Ha1 & Ha2 & _) _].
  split.
  - intros a a' v Hs Hs'. rewrite Hs in *. rewrite Hs' in *. cbn in *.
    unfold int32At, storeInt32. cbn [int32s].
    assert (Hne : a <> a') by lia.
    split.
    + rewrite nth_setNth_other by congruence.
      apply (nth_prefix _ _ _ _ He1 Ha1).
    + rewrite nth_setNth_other by exact Hne. symmetry. exact Hc.
  - intros a a' key val Hs Hs'. rewrite Hs in *. rewrite Hs' in *. cbn in *.
    unfold stringMapAt, storeMapEntry. cbn [stringMaps].
    assert (Hne : a <> a') by lia.
    split.
    + rewrite nth_setNth_other by congruence.
      apply (nth_prefix _ _ _ _ He2 Ha2).
    + rewrite nth_setNth_other by exact Hne. exact Hm.
Qed.

(** X22.  [RedisOperator.DeepCopy] of a resource is a deep copy: the type
    meta copied, the object meta copied by its own deep copy, the spec and
    the status deep copies of the original's, with every reference of the
    copy to a cell that did not exist before, and no cell of before
    changed. *)
Theorem RedisOperator_DeepCopy_deep (o : RedisOperator) (h : Heap) :
  operatorWellFormed h o ->
  exists o' h',
    RedisOperator_DeepCopy (Some o) h = (Some o', h') /\
    copiedOperator h o h' o' /\ operatorFresh h o' /\
    operatorAllocated h' o' /\ extends h h'.
Proof.
  intro Hwf. unfold RedisOperator_DeepCopy.
  pose proof (RedisOperator_DeepCopyInto_sound o h Hwf) as H.
  destruct (RedisOperator_DeepCopyInto o h) as [o' h']. cbn [fst snd] in H.
  exists o', h'. split; [ reflexivity | exact H ].
Qed.

(** X23.  [RedisOperatorList.DeepCopy] copies a list item by item: the
    copy has nil items exactly when the original has, as many items as the
    original, each a deep copy of the item of the same index, in a new
    array; no item of the copy refers to a cell of before, and no cell of
    before is changed. *)
Theorem RedisOperatorList_DeepCopy_deep (l : RedisOperatorList) (h : Heap) :
  listWellFormed h l ->
  exists l' h',
    RedisOperatorList_DeepCopy (Some l) h = (Some l', h') /\
    copiedList h l h' l' /\
    isNil (Items l') = isNil (Items l) /\
    (forall a a', Items l = Some a -> Items l' = Some a' ->
       List.length (operatorsAt h' a') = List.length (operatorsAt h a) /\
       (List.length (operatorArrays h) <= a')%nat /\
       Forall (operatorFresh h) (operatorsAt h' a')) /\
    extends h h'.
Proof.
  intro Hwf. unfold RedisOperatorList_DeepCopy.
  pose proof (RedisOperatorList_DeepCopyInto_sound l h Hwf)
    as (Hc & Hf & Hfs & He).
  destruct (RedisOperatorList_DeepCopyInto l h) as [l' h']. cbn [fst snd] in *.
  exists l', h'. split; [ reflexivity | ].
  split; [ exact Hc | ].
  destruct Hc as (_ & _ & Hcell). unfold sameCell in Hcell.
  split; [ | split; [ | exact He ] ].
  - destruct (Items l), (Items l'); cbn; try reflexivity; contradiction.
  - intros a a' Hl Hl'. rewrite Hl, Hl' in Hcell. rewrite Hl' in Hf.
    split; [ | split ].
    + symmetry. exact (Forall2_length Hcell).
    + exact Hf.
    + exact (Hfs a' Hl').
Qed.

(** X24.  [DeepCopyObject] never returns an interface that holds a nil
    pointer: for a nil receiver it returns the nil interface and leaves
    the heap as it is, and otherwise an interface that holds the pointer
    that [DeepCopy] returns, which is not nil. *)
Theorem DeepCopyObject_never_typed_nil :
  (forall (inp : option RedisOperator) (h : Heap),
      fst (RedisOperator_DeepCopyObject inp h) <> operatorObject None /\
      isNilObject (fst (RedisOperator_DeepCopyObject inp h)) = isNil inp /\
      (inp = None -> snd (RedisOperator_DeepCopyObject inp h) = h) /\
      (inp <> None ->
       RedisOperator_DeepCopyObject inp h =
       (operatorObject (fst (RedisOperator_DeepCopy inp h)),
        snd (RedisOperator_DeepCopy inp h)))) /\
  (forall (inp : option RedisOperatorList) (h : Heap),
      fst (RedisOperatorList_DeepCopyObject inp h) <> listObject None /\
      isNilObject (fst (RedisOperatorList_DeepCopyObject inp h)) = isNil inp /\
      (inp = None -> snd (RedisOperatorList_DeepCopyObject inp h) = h) /\
      (inp <> None ->
       RedisOperatorList_DeepCopyObject inp h =
       (listObject (fst (RedisOperatorList_DeepCopy inp h)),
        snd (RedisOperatorList_DeepCopy inp h)))).
Proof.
  split; intros [inv|] h.
  - unfold RedisOperator_DeepCopyObject, RedisOperator_DeepCopy.
    destruct (RedisOperator_DeepCopyInto inv h) as [out h']. cbn.
    split; [ discriminate | split; [ reflexivity | split ] ].
    + discriminate.
    + reflexivity.
  - cbn. split; [ discriminate | split; [ reflexivity | split ] ].
    + reflexivity.
    + intro H. contradiction H. reflexivity.
  - unfold RedisOperatorList_DeepCopyObject, RedisOperatorList_DeepCopy.
    destruct (RedisOperatorList_DeepCopyInto inv h) as [out h']. cbn.
    split; [ discriminate | split; [ reflexivity | split ] ].
    + discriminate.
    + reflexivity.
  - cbn. split; [ discriminate | split; [ reflexivity | split ] ].
    + reflexivity.
    + intro H. contradiction H. reflexivity.
Qed.
(** X25.  [RedisOperatorList.DeepCopy] unshares: no two items of the copy
    refer to the same cell, whether or not items of the original do. *)
Theorem RedisOperatorList_DeepCopy_unshares
        (l : RedisOperatorList) (h : Heap) (a : nat) :
  Items l = Some a ->
  exists l' h' a',
    RedisOperatorList_DeepCopy (Some l) h = (Some l', h') /\
    Items l' = Some a' /\
    List.length (operatorsAt h' a') = List.length (operatorsAt h a) /\
    ForallOrdPairs operatorsApart (operatorsAt h' a').
Proof.
  intro Hitems.
  unfold RedisOperatorList_DeepCopy, RedisOperatorList_DeepCopyInto.
  rewrite Hitems.
  pose proof (copyOperators_apart (operatorsAt h a) h) as [_ Hps].
  pose proof (copyOperators_length (operatorsAt h a) h) as Hlen.
  destruct (copyOperators (operatorsAt h a) h) as [outs h1].
  cbn [fst snd] in *. cbn.
  eexists. eexists. eexists.
  split; [ reflexivity | split; [ reflexivity | ] ].
  unfold operatorsAt at 1 3. cbn. rewrite nth_new.
  split; [ exact Hlen | exact Hps ].
Qed.
End DeepCopies.

Ltac closedCells :=
  repeat match goal with
         | |- _ /\ _ => split
         | |- allocated _ _ => unfold allocated; cbn; lia
         | |- specAllocated _ _ => unfold specAllocated
         | |- statusAllocated _ _ => unfold statusAllocated
         | |- specWellFormed _ _ => unfold specWellFormed
         | |- operatorWellFormed _ _ => unfold operatorWellFormed
         | |- forall a, _ = Some a -> uniqueKeys _ =>
             let a := fresh "a" in
             let E := fresh "E" in
             intros a E; cbn in E; try discriminate E; injection E as <-;
             unfold uniqueKeys; cbn;
             repeat (constructor; cbn; try tauto);
             intuition discriminate
         end.

(** The spec of [operator0], copied in [heap0]. *)
Lemma RedisOperatorSpec_DeepCopy_deep_witness :
  exists s' h',
    RedisOperatorSpec_DeepCopy (Some spec0) heap0 = (Some s', h') /\
    copiedSpec heap0 spec0 h' s' /\ specFresh heap0 s' /\
    specAllocated h' s' /\ extends heap0 h'.
Proof.
  apply (RedisOperatorSpec_DeepCopy_deep (k := kube) spec0 heap0).
  closedCells.
Defined.

(** After the copy of [spec0], 7 stored through the count of the copy
    leaves 2 to read through the count of the original. *)
Lemma RedisOperatorSpec_DeepCopy_independent_witness :
  int32At (storeInt32 1 7
             (snd (RedisOperatorSpec_DeepCopy (Some spec0) heap0))) 0 = 2.
Proof.
  apply (proj1 (RedisOperatorSpec_DeepCopy_independent (k := kube)
                  spec0 _ heap0 _ ltac:(closedCells) eq_refl)
               0%nat 1%nat 7 eq_refl eq_refl).
Defined.

Lemma RedisOperator_DeepCopy_deep_witness :
  exists o' h',
    RedisOperator_DeepCopy (Some operator0) heap0 = (Some o', h') /\
    copiedOperator heap0 operator0 h' o' /\ operatorFresh heap0 o' /\
    operatorAllocated h' o' /\ extends heap0 h'.
Proof.
  apply (RedisOperator_DeepCopy_deep (k := kube) operator0 heap0).
  closedCells.
Defined.

(** The list of [operator0] and [operator1], copied in [heap0]. *)
Lemma RedisOperatorList_DeepCopy_deep_witness :
  exists l' h',
    RedisOperatorList_DeepCopy (Some list0) heap0 = (Some l', h') /\
    copiedList heap0 list0 h' l' /\
    isNil (Items l') = isNil (Items list0) /\
    (forall a a', Items list0 = Some a -> Items l' = Some a' ->
       List.length (operatorsAt h' a') = List.length (operatorsAt heap0 a) /\
       (List.length (operatorArrays heap0) <= a')%nat /\
       Forall (operatorFresh heap0) (operatorsAt h' a')) /\
    extends heap0 h'.
Proof.
  apply (RedisOperatorList_DeepCopy_deep (k := kube) list0 heap0).
  split.
  - unfold allocated; cbn; lia.
  - intros a E. injection E as <-. cbn.
    repeat (constructor; [ closedCells | ]). constructor.
Defined.

(** The first and the last item of [list0] are the same resource; their
    copies are apart. *)
Lemma RedisOperatorList_DeepCopy_unshares_witness :
  exists l' h' a',
    RedisOperatorList_DeepCopy (Some list0) heap0 = (Some l', h') /\
    Items l' = Some a' /\
    List.length (operatorsAt h' a') = List.length (operatorsAt heap0 0) /\
    ForallOrdPairs operatorsApart (operatorsAt h' a').
Proof.
  apply (RedisOperatorList_DeepCopy_unshares (k := kube) list0 heap0 0%nat).
  reflexivity.
Defined.
